(** * RLCU ground-station pad link: a shallow embedding of [rlcu_socket.py]

    The development follows the Python module function by function:
    the telemetry codec ([TELEMETRY_STRUCT], [_parse_telemetry]), the pad
    store of [globals.py] ([Pad], [pad_data]), the discovery handler, the
    command register ([send_command]), the telemetry loop, the connection
    worker and the staleness ticker.

    Python [int] is [Z], Python [float] is a binary64 [spec_float], [bytes]
    is [list byte], [str] is [string], and every [dict] is a [gmap].  Calls
    into the operating system (socket reads and writes, the clock) take the
    value the environment answered as an explicit argument. *)

From Stdlib Require Import ZArith Lia List Strings.Byte Floats.SpecFloat.
From stdpp Require Import gmap strings list.
Import ListNotations.

Local Open Scope Z_scope.

(* ===================================================================== *)
(** * Part I.  Definitions                                                *)
(* ===================================================================== *)

(** ** Bytes and little-endian words *)

Definition byte_val (b : byte) : Z := Z.of_N (Byte.to_N b).

Definition byte_of (z : Z) : byte :=
  default x00 (Byte.of_N (Z.to_N (z mod 256))).

(** [struct] reads a little-endian 32-bit word from four bytes. *)
Definition le32 (b0 b1 b2 b3 : byte) : Z :=
  byte_val b0 + 256 * byte_val b1 + 65536 * byte_val b2
  + 16777216 * byte_val b3.

Definition to_le32 (w : Z) : list byte :=
  [byte_of w; byte_of (w / 256); byte_of (w / 65536); byte_of (w / 16777216)].

(** ** IEEE 754 binary32 patterns and Python floats

    A Python [float] is a binary64 number; it is represented by the
    standard library's [spec_float] in binary64 canonical form
    ([prec = 53], [emax = 1024]).  [spec_float] carries no NaN payload:
    no operation of this program observes one. *)

Definition prec32 : Z := 24.
Definition emax32 : Z := 128.
Definition prec64 : Z := 53.
Definition emax64 : Z := 1024.

Definition f32_sign (w : Z) : bool := Z.odd (w / 2147483648).
Definition f32_expo (w : Z) : Z := (w / 8388608) mod 256.
Definition f32_frac (w : Z) : Z := w mod 8388608.

(** The binary32 number denoted by a 32-bit pattern. *)
Definition float32_of_bits (w : Z) : spec_float :=
  let s := f32_sign w in
  let e := f32_expo w in
  let f := f32_frac w in
  if e =? 0 then
    (if f =? 0 then S754_zero s else S754_finite s (Z.to_pos f) (-149))
  else if e =? 255 then
    (if f =? 0 then S754_infinity s else S754_nan)
  else S754_finite s (Z.to_pos (f + 8388608)) (e - 150).

Definition sign_bit (s : bool) : Z := if s then 2147483648 else 0.

(** The 32-bit pattern of a binary32 number (NaN as the default quiet NaN). *)
Definition bits_of_float32 (x : spec_float) : Z :=
  match x with
  | S754_zero s => sign_bit s
  | S754_infinity s => sign_bit s + 2139095040
  | S754_nan => 2143289344
  | S754_finite s m e =>
      if Z.pos m <? 8388608 then sign_bit s + Z.pos m
      else sign_bit s + (e + 150) * 8388608 + (Z.pos m - 8388608)
  end.

(** The number of zero bits that widening appends to a binary32 mantissa
    to make it a 53-bit one. *)
Definition widen_shift (m : positive) : positive :=
  Z.to_pos (53 - Z.pos (digits2_pos m)).

(** Widening binary32 to binary64 (what unpacking an [f] field does). *)
Definition widen (x : spec_float) : spec_float :=
  match x with
  | S754_finite s m e => binary_round prec64 emax64 s m e
  | _ => x
  end.

(** Narrowing binary64 to binary32 with round-to-nearest-even; packing an
    [f] field raises [OverflowError] when a finite value rounds to an
    infinity. *)
Definition narrow (x : spec_float) : option spec_float :=
  match x with
  | S754_finite s m e =>
      match binary_round prec32 emax32 s m e with
      | S754_infinity _ => None
      | y => Some y
      end
  | _ => Some x
  end.

Definition unpack_f32 (b0 b1 b2 b3 : byte) : spec_float :=
  widen (float32_of_bits (le32 b0 b1 b2 b3)).

Definition pack_f32 (x : spec_float) : option (list byte) :=
  match narrow x with
  | Some y => Some (to_le32 (bits_of_float32 y))
  | None => None
  end.

(** A Python [int] used where a [float] is expected. *)
Definition float_of_int (z : Z) : spec_float :=
  binary_normalize prec64 emax64 z 0 false.

Definition float_gt (x y : spec_float) : bool := SFltb y x.
Definition float_ge (x y : spec_float) : bool := SFleb y x.
Definition float_le (x y : spec_float) : bool := SFleb x y.
Definition float_lt (x y : spec_float) : bool := SFltb x y.
Definition float_sub (x y : spec_float) : spec_float :=
  SFsub prec64 emax64 x y.

(** ** The telemetry codec: [TELEMETRY_STRUCT = struct.Struct("<ff??Bx")] *)

Definition TELEMETRY_STRUCT_size : nat := 12.

Record telemetry := mkTelemetry {
  t_voltage : spec_float;
  t_rssi : spec_float;
  t_rbf_status : bool;
  t_squib_continuity : bool;
  t_igniter_id : Z
}.

(** The [?] format: any non-zero byte is [True]. *)
Definition unpack_bool (b : byte) : bool := negb (byte_val b =? 0).
Definition pack_bool (b : bool) : byte := if b then x01 else x00.

(** [_parse_telemetry]; [None] is the [ValueError] of a size mismatch. *)
Definition _parse_telemetry (frame : list byte) : option telemetry :=
  match frame with
  | [v0; v1; v2; v3; r0; r1; r2; r3; rbf; cont; ign; _] =>
      Some {| t_voltage := unpack_f32 v0 v1 v2 v3;
              t_rssi := unpack_f32 r0 r1 r2 r3;
              t_rbf_status := unpack_bool rbf;
              t_squib_continuity := unpack_bool cont;
              t_igniter_id := byte_val ign |}
  | _ => None
  end.

(** Modelled from the spec: the encoder of a telemetry frame.  The
    repository only decodes; the frame is produced by the pad.  This is
    [TELEMETRY_STRUCT.pack] for the layout of the external interface:
    two little-endian float32, two one-byte booleans, the igniter id and a
    zero padding byte.  [None] is the error [struct] raises for a float
    outside the binary32 range or an id outside [0, 255]. *)
Definition pack_telemetry (t : telemetry) : option (list byte) :=
  match pack_f32 (t_voltage t), pack_f32 (t_rssi t) with
  | Some v, Some r =>
      if (0 <=? t_igniter_id t) && (t_igniter_id t <=? 255) then
        Some (v ++ r ++ [pack_bool (t_rbf_status t);
                         pack_bool (t_squib_continuity t);
                         byte_of (t_igniter_id t); x00])
      else None
  | _, _ => None
  end.

(** The frame of the worked example: voltage 11.4, rssi -48.0, interlock
    in place, continuity present, igniter 2. *)
Definition example_frame : list byte :=
  [x66; x66; x36; x41; x00; x00; x40; xc2; x00; x01; x02; x00].

(** ** The pad store: [globals.py] *)

Definition n_pads : Z := 6.

(** The colour names the source stores as strings. *)
Inductive color := red | green | yellow | black.

Record Pad := mkPad {
  team_id : Z;
  ip_address : string;
  rssi : spec_float;
  rssi_color : color;
  continuity : bool;
  continuity_color : color;
  voltage : spec_float;
  voltage_color : color;
  arm_status : bool;
  arm_color : color;
  last_seen : Z;
  last_seen_color : color;
  buzzer_on : bool;
  led_on : bool;
  rdy_on : bool
}.

(** [Pad.__init__]; the initial [rssi] is the integer [-100]. *)
Definition Pad_init : Pad :=
  {| team_id := 0; ip_address := EmptyString; rssi := float_of_int (-100);
     rssi_color := red; continuity := false; continuity_color := red;
     voltage := S754_zero false; voltage_color := red;
     arm_status := false; arm_color := green;
     last_seen := 0; last_seen_color := black;
     buzzer_on := false; led_on := false; rdy_on := false |}.

(** [pad_data = {i: Pad() for i in range(n_pads)}] *)
Definition pad_data_init : gmap Z Pad :=
  list_to_map ((fun i => (i, Pad_init)) <$> seqZ 0 n_pads).

(** ** Field updates performed under [pad_data_lock] *)

(** [pad.ip_address = ip; pad.last_seen = 0; pad.last_seen_color = "black"] *)
Definition mark_contact (ip : string) (p : Pad) : Pad :=
  {| team_id := team_id p; ip_address := ip;
     rssi := rssi p; rssi_color := rssi_color p;
     continuity := continuity p; continuity_color := continuity_color p;
     voltage := voltage p; voltage_color := voltage_color p;
     arm_status := arm_status p; arm_color := arm_color p;
     last_seen := 0; last_seen_color := black;
     buzzer_on := buzzer_on p; led_on := led_on p; rdy_on := rdy_on p |}.

Definition voltage_color_of (v : spec_float) : color :=
  if float_ge v (float_of_int 10) then green else red.

Definition rssi_color_of (r : spec_float) : color :=
  if float_gt r (float_of_int (-50)) then green
  else if float_gt r (float_of_int (-70)) then yellow
  else red.

Definition continuity_color_of (c : bool) : color :=
  if c then green else red.

Definition arm_color_of (a : bool) : color :=
  if a then red else green.

(** The body of [_apply_telemetry] on the pad it found. *)
Definition telemetry_update (ip : string) (t : telemetry) (p : Pad) : Pad :=
  {| team_id := team_id p; ip_address := ip;
     rssi := t_rssi t; rssi_color := rssi_color_of (t_rssi t);
     continuity := t_squib_continuity t;
     continuity_color := continuity_color_of (t_squib_continuity t);
     voltage := t_voltage t; voltage_color := voltage_color_of (t_voltage t);
     arm_status := t_rbf_status t;
     arm_color := arm_color_of (t_rbf_status t);
     last_seen := 0; last_seen_color := black;
     buzzer_on := buzzer_on p; led_on := led_on p; rdy_on := rdy_on p |}.

(** [_apply_telemetry]: a missing pad leaves the store as it is. *)
Definition _apply_telemetry (pads : gmap Z Pad) (pad_num : Z) (ip : string)
    (t : telemetry) : gmap Z Pad :=
  match pads !! pad_num with
  | None => pads
  | Some p => <[pad_num := telemetry_update ip t p]> pads
  end.

(** One pass of the body of [_timer_loop] over a pad. *)
Definition age_pad (p : Pad) : Pad :=
  let age := last_seen p + 1 in
  {| team_id := team_id p; ip_address := ip_address p;
     rssi := rssi p; rssi_color := rssi_color p;
     continuity := continuity p; continuity_color := continuity_color p;
     voltage := voltage p; voltage_color := voltage_color p;
     arm_status := arm_status p; arm_color := arm_color p;
     last_seen := age;
     last_seen_color := if 30 <? age then red else black;
     buzzer_on := buzzer_on p; led_on := led_on p; rdy_on := rdy_on p |}.

(** One iteration of [_timer_loop] (after the one-second sleep). *)
Definition _timer_tick (pads : gmap Z Pad) : gmap Z Pad := age_pad <$> pads.

(** [n] iterations of the endless [_timer_loop]. *)
Fixpoint _timer_loop (n : nat) (pads : gmap Z Pad) : gmap Z Pad :=
  match n with
  | O => pads
  | S k => _timer_loop k (_timer_tick pads)
  end.

(** ** The socket object: [RLCUSocket] *)

Definition AUTH_KEY : string := "RLCU!2025".
Definition DISCOVERY_STRUCT_size : nat := 17.
Definition TELEMETRY_TIMEOUT : spec_float := float_of_int 10.

Definition CMD_RDY_TO_FIRE : Z := 1.
Definition CMD_LAUNCH : Z := 2.
Definition CMD_LED : Z := 4.
Definition CMD_BUZZER : Z := 8.

(** A connected TCP socket is known by its descriptor. *)
Definition sock := nat.

(** An entry of [_command_history]. *)
Record cmd_entry := mkCmd {
  c_mask : Z;
  c_success : bool;
  c_timestamp : spec_float
}.

(** A worker thread of [_connection_threads]. *)
Record worker := mkWorker { w_pad : Z; w_alive : bool }.

Record RLCU := mkRLCU {
  pad_data : gmap Z Pad;
  _connections : gmap string sock;
  _connection_threads : gmap string worker;
  _pad_peers : gmap Z string;
  _command_state : gmap Z Z;
  _command_history : gmap Z cmd_entry
}.

Definition command_state_init : gmap Z Z :=
  list_to_map ((fun i => (i, 0)) <$> seqZ 0 n_pads).

Definition command_history_init (ts : spec_float) : gmap Z cmd_entry :=
  list_to_map ((fun i => (i, mkCmd 0 false ts)) <$> seqZ 0 n_pads).

(** [RLCUSocket.__init__] together with the module-level pad store. *)
Definition RLCU_init : RLCU :=
  {| pad_data := pad_data_init;
     _connections := ∅; _connection_threads := ∅; _pad_peers := ∅;
     _command_state := command_state_init;
     _command_history := command_history_init (S754_zero false) |}.

Definition with_pad_data (st : RLCU) (pads : gmap Z Pad) : RLCU :=
  {| pad_data := pads;
     _connections := _connections st;
     _connection_threads := _connection_threads st;
     _pad_peers := _pad_peers st;
     _command_state := _command_state st;
     _command_history := _command_history st |}.

Definition with_connections (st : RLCU) (c : gmap string sock) : RLCU :=
  {| pad_data := pad_data st;
     _connections := c;
     _connection_threads := _connection_threads st;
     _pad_peers := _pad_peers st;
     _command_state := _command_state st;
     _command_history := _command_history st |}.

Definition with_connection_threads (st : RLCU) (w : gmap string worker)
    : RLCU :=
  {| pad_data := pad_data st;
     _connections := _connections st;
     _connection_threads := w;
     _pad_peers := _pad_peers st;
     _command_state := _command_state st;
     _command_history := _command_history st |}.

Definition with_pad_peers (st : RLCU) (pp : gmap Z string) : RLCU :=
  {| pad_data := pad_data st;
     _connections := _connections st;
     _connection_threads := _connection_threads st;
     _pad_peers := pp;
     _command_state := _command_state st;
     _command_history := _command_history st |}.

Definition with_command_state (st : RLCU) (cs : gmap Z Z) : RLCU :=
  {| pad_data := pad_data st;
     _connections := _connections st;
     _connection_threads := _connection_threads st;
     _pad_peers := _pad_peers st;
     _command_state := cs;
     _command_history := _command_history st |}.

Definition with_command_history (st : RLCU) (h : gmap Z cmd_entry) : RLCU :=
  {| pad_data := pad_data st;
     _connections := _connections st;
     _connection_threads := _connection_threads st;
     _pad_peers := _pad_peers st;
     _command_state := _command_state st;
     _command_history := h |}.

(** ** What the worker and the command path do to the outside world *)

Inductive loop_exit :=
  | ExitStop          (* the loop condition turned false *)
  | ExitRecvError     (* [recv] raised [OSError] *)
  | ExitPeerClosed    (* [recv] returned no bytes *)
  | ExitTimeout       (* no data for [TELEMETRY_TIMEOUT] *)
  | ExitValueError    (* [_parse_telemetry] raised *)
  | StillRunning.     (* the observed script ended first *)

Inductive event :=
  | EvRegister (ip : string) (c : sock)
  | EvSendall (ip : string) (payload : list byte) (ok : bool)
  | EvApply (pad_num : Z) (t : telemetry)
  | EvLoopExit (e : loop_exit)
  | EvConnectFailed (ip : string)
  | EvClose (ip : string)
  | EvSleep
  | EvWorkerExit.

(** ** Discovery: [_handle_discovery] and [_ensure_connection] *)

(** [raw_auth.split(b"\x00", 1)[0]] *)
Fixpoint until_null (bs : list byte) : list byte :=
  match bs with
  | [] => []
  | b :: r => if byte_val b =? 0 then [] else b :: until_null r
  end.

(** [.decode("ascii", errors="ignore")]: bytes above 127 are dropped. *)
Fixpoint decode_ascii_ignore (bs : list byte) : string :=
  match bs with
  | [] => EmptyString
  | b :: r =>
      if byte_val b <? 128
      then String (Ascii.ascii_of_byte b) (decode_ascii_ignore r)
      else decode_ascii_ignore r
  end.

(** [DISCOVERY_STRUCT.unpack_from(data)] for the layout [!B16s]. *)
Definition discovery_pad_num (data : list byte) : Z :=
  match data with
  | b :: _ => byte_val b
  | [] => 0
  end.

Definition discovery_raw_auth (data : list byte) : list byte :=
  take 16 (drop 1 data).

Definition discovery_auth_key (data : list byte) : string :=
  decode_ascii_ignore (until_null (discovery_raw_auth data)).

Definition _ensure_connection (st : RLCU) (pad_num : Z) (ip : string)
    : RLCU :=
  let spawn :=
    with_connection_threads st
      (<[ip := mkWorker pad_num true]> (_connection_threads st)) in
  match _connection_threads st !! ip with
  | Some w => if w_alive w then st else spawn
  | None => spawn
  end.

Definition _handle_discovery (st : RLCU) (data : list byte) (ip : string)
    : RLCU :=
  if (length data <? DISCOVERY_STRUCT_size)%nat then st
  else
    let pad_num := discovery_pad_num data in
    let auth_key := discovery_auth_key data in
    if negb (String.eqb auth_key AUTH_KEY) then st
    else if n_pads <=? pad_num then st
    else
      let pads :=
        match pad_data st !! pad_num with
        | Some p => <[pad_num := mark_contact ip p]> (pad_data st)
        | None => pad_data st
        end in
      let st1 := with_pad_data st pads in
      let st2 := with_pad_peers st1 (<[pad_num := ip]> (_pad_peers st1)) in
      _ensure_connection st2 pad_num ip.

(** A run of the UDP loop: one datagram after the other. *)
Fixpoint _udp_loop (st : RLCU) (packets : list (list byte * string)) : RLCU :=
  match packets with
  | [] => st
  | (data, ip) :: rest => _udp_loop (_handle_discovery st data ip) rest
  end.

(** ** The command register: [send_command] *)

(** Truth value of the [command] argument ([None] and [0] are falsy). *)
Definition truthy (command : option Z) : bool :=
  match command with
  | Some c => negb (c =? 0)
  | None => false
  end.

Definition command_value (command : option Z) : Z :=
  match command with
  | Some c => c
  | None => 0
  end.

(** [self._command_state.get(pad_num, 0)] *)
Definition stored_mask (st : RLCU) (pad_num : Z) : Z :=
  default 0 (_command_state st !! pad_num).

(** [pad_data.get(pad_num).ip_address] when [pad_num in pad_data], else
    the empty string. *)
Definition pad_ip (st : RLCU) (pad_num : Z) : string :=
  match pad_data st !! pad_num with
  | Some p => ip_address p
  | None => EmptyString
  end.

(** The mask computed under [_command_lock]: the state to persist
    (if any) and the mask to transmit. *)
Definition next_mask (state : Z) (command : option Z) (enable : option bool)
    : option Z * Z :=
  match enable with
  | Some true =>
      let state' := if truthy command
                    then Z.lor state (command_value command) else state in
      (Some state', state')
  | Some false =>
      let state' := if truthy command
                    then Z.land state (Z.lnot (command_value command))
                    else state in
      (Some state', state')
  | None =>
      (None, Z.lor state (if truthy command then command_value command else 0))
  end.

(** [bytes([mask & 0xFF])] *)
Definition mask_payload (mask : Z) : list byte := [byte_of (Z.land mask 255)].

(** [send_command]: [sendall_ok] tells whether [conn.sendall] returned or
    raised [OSError], [now] is the clock reading stored as the timestamp.
    The result is the returned boolean, the new state, and what was handed
    to the transport. *)
Definition send_command (st : RLCU) (pad_num : Z) (command : option Z)
    (enable : option bool) (sendall_ok : bool) (now : spec_float)
    : bool * RLCU * list event :=
  let ip := pad_ip st pad_num in
  if String.eqb ip EmptyString then (false, st, [])
  else
    match _connections st !! ip with
    | None => (false, st, [])
    | Some conn =>
        let state := stored_mask st pad_num in
        let '(persist, mask) := next_mask state command enable in
        let st1 :=
          match persist with
          | Some state' =>
              with_command_state st (<[pad_num := state']> (_command_state st))
          | None => st
          end in
        let st2 :=
          with_command_history st1
            (<[pad_num := mkCmd mask sendall_ok now]> (_command_history st1)) in
        (sendall_ok, st2, [EvSendall ip (mask_payload mask) sendall_ok])
    end.

(** ** The telemetry loop: [_telemetry_loop] *)

(** What the network does while [conn.recv] blocks: some bytes of the
    peer's stream become readable, nothing arrives before the socket
    timeout, or the socket fails. *)
Inductive net_event :=
  | Readable (k : nat)
  | Quiet
  | SockError.

(** One iteration as the environment drives it: the value of the loop
    condition, the network event, and the two clock readings. *)
Record loop_step := mkStep {
  ls_running : bool;
  ls_net : net_event;
  ls_t_data : spec_float;
  ls_t_check : spec_float
}.

(** [conn.recv(n)]: [None] is [socket.timeout]; a returned chunk has at
    most [n] bytes and is empty only at the end of the stream. *)
Inductive recv_result :=
  | RecvChunk (chunk rest : list byte)
  | RecvTimedOut
  | RecvRaised.

Definition recv (ev : net_event) (n : nat) (stream : list byte)
    : recv_result :=
  match ev with
  | Readable k => RecvChunk (take (Nat.min n k) stream)
                            (drop (Nat.min n k) stream)
  | Quiet => RecvTimedOut
  | SockError => RecvRaised
  end.

(** [time.time() - last_data_ts >= TELEMETRY_TIMEOUT] *)
Definition timed_out (last now : spec_float) : bool :=
  float_ge (float_sub now last) TELEMETRY_TIMEOUT.

(** The inner [while len(buffer) >= TELEMETRY_STRUCT.size] loop.  Each
    round removes a frame, so the buffer length bounds the rounds. *)
Inductive drained :=
  | Drained (pads : gmap Z Pad) (buffer : list byte) (applied : list telemetry)
  | DrainRaised (pads : gmap Z Pad) (applied : list telemetry)
  | DrainFuel.

Definition drained_cons (t : telemetry) (d : drained) : drained :=
  match d with
  | Drained pads b applied => Drained pads b (t :: applied)
  | DrainRaised pads applied => DrainRaised pads (t :: applied)
  | DrainFuel => DrainFuel
  end.

Fixpoint drain (fuel : nat) (pad_num : Z) (ip : string) (pads : gmap Z Pad)
    (buffer : list byte) : drained :=
  if (length buffer <? TELEMETRY_STRUCT_size)%nat then Drained pads buffer []
  else
    match fuel with
    | O => DrainFuel
    | S fuel' =>
        let frame := take TELEMETRY_STRUCT_size buffer in
        let buffer' := drop TELEMETRY_STRUCT_size buffer in
        match _parse_telemetry frame with
        | None => DrainRaised pads []
        | Some t =>
            drained_cons t
              (drain fuel' pad_num ip
                 (_apply_telemetry pads pad_num ip t) buffer')
        end
    end.

(** What a run of the loop leaves behind: the pad store, the updates it
    applied, how it ended, and the bytes of the peer's stream that no
    [recv] has returned yet. *)
Record loop_result := mkLoop {
  lr_pads : gmap Z Pad;
  lr_applied : list telemetry;
  lr_exit : loop_exit;
  lr_unread : list byte
}.

Definition loop_cons (ts : list telemetry) (r : loop_result) : loop_result :=
  mkLoop (lr_pads r) (ts ++ lr_applied r) (lr_exit r) (lr_unread r).

Fixpoint telemetry_iter (script : list loop_step) (pad_num : Z) (ip : string)
    (pads : gmap Z Pad) (buffer : list byte) (last_data_ts : spec_float)
    (stream : list byte) : loop_result :=
  match script with
  | [] => mkLoop pads [] StillRunning stream
  | s :: script' =>
      if negb (ls_running s) then mkLoop pads [] ExitStop stream
      else
        match recv (ls_net s) (TELEMETRY_STRUCT_size - length buffer) stream with
        | RecvRaised => mkLoop pads [] ExitRecvError stream
        | RecvTimedOut =>
            if timed_out last_data_ts (ls_t_check s)
            then mkLoop pads [] ExitTimeout stream
            else telemetry_iter script' pad_num ip pads buffer
                   last_data_ts stream
        | RecvChunk [] stream' => mkLoop pads [] ExitPeerClosed stream'
        | RecvChunk chunk stream' =>
            let buffer1 := buffer ++ chunk in
            match drain (length buffer1) pad_num ip pads buffer1 with
            | DrainFuel =>
                mkLoop pads [] StillRunning stream' (* never: [drain_total] *)
            | DrainRaised pads' applied =>
                mkLoop pads' applied ExitValueError stream'
            | Drained pads' buffer' applied =>
                if timed_out (ls_t_data s) (ls_t_check s)
                then mkLoop pads' applied ExitTimeout stream'
                else loop_cons applied
                       (telemetry_iter script' pad_num ip pads' buffer'
                          (ls_t_data s) stream')
            end
        end
  end.

(** [_telemetry_loop]: an empty buffer and the clock reading [t0]. *)
Definition _telemetry_loop (script : list loop_step) (pad_num : Z)
    (ip : string) (pads : gmap Z Pad) (t0 : spec_float) (stream : list byte)
    : loop_result :=
  telemetry_iter script pad_num ip pads [] t0 stream.

(** ** The connection worker: [_connection_worker] *)

(** What the environment does during one round of the reconnect loop. *)
Record attempt := mkAttempt {
  a_running : bool;             (* the loop condition at the top *)
  a_connect : option sock;      (* [create_connection]; [None] is [OSError] *)
  a_sync_ok : bool;             (* did the re-sync [sendall] return? *)
  a_sync_time : spec_float;     (* the timestamp it is recorded with *)
  a_loop_start : spec_float;    (* clock at the start of the telemetry loop *)
  a_stream : list byte;         (* what the peer sends on this session *)
  a_script : list loop_step;    (* the iterations of the telemetry loop *)
  a_running_after : bool        (* the loop condition after the session *)
}.

Inductive attempt_end :=
  | AttemptDone       (* the session ended, [finally] ran *)
  | AttemptRaised     (* an exception other than [OSError] left the worker *)
  | AttemptPending.   (* the session is still in its telemetry loop *)

Definition apply_events (pad_num : Z) (ts : list telemetry) : list event :=
  EvApply pad_num <$> ts.

(** The [finally] clause: close the socket, forget the connection. *)
Definition release (st : RLCU) (ip : string) : RLCU :=
  with_connections st (delete ip (_connections st)).

(** The re-sync of a fresh session: read the stored mask under the lock,
    send it, and record the outcome. *)
Definition resync (st : RLCU) (pad_num : Z) (ip : string) (ok : bool)
    (now : spec_float) : RLCU * list event :=
  let mask := stored_mask st pad_num in
  (with_command_history st
     (<[pad_num := mkCmd mask ok now]> (_command_history st)),
   [EvSendall ip (mask_payload mask) ok]).

(** The body of the [while] loop of the worker, up to the [finally]. *)
Definition connection_attempt (st : RLCU) (pad_num : Z) (ip : string)
    (a : attempt) : RLCU * list event * attempt_end :=
  match a_connect a with
  | None => (release st ip, [EvConnectFailed ip], AttemptDone)
  | Some conn =>
      let st1 := with_connections st (<[ip := conn]> (_connections st)) in
      let '(st2, sync_events) :=
        resync st1 pad_num ip (a_sync_ok a) (a_sync_time a) in
      let r := _telemetry_loop (a_script a) pad_num ip (pad_data st2)
                 (a_loop_start a) (a_stream a) in
      let st3 := with_pad_data st2 (lr_pads r) in
      let events :=
        EvRegister ip conn :: sync_events
        ++ apply_events pad_num (lr_applied r) ++ [EvLoopExit (lr_exit r)] in
      match lr_exit r with
      | StillRunning => (st3, events, AttemptPending)
      | ExitValueError => (release st3 ip, events ++ [EvClose ip], AttemptRaised)
      | _ => (release st3 ip, events ++ [EvClose ip], AttemptDone)
      end
  end.

(** The worker: one round per element of [attempts]. *)
Fixpoint _connection_worker (attempts : list attempt) (st : RLCU)
    (pad_num : Z) (ip : string) : RLCU * list event :=
  let exit_worker st :=
    with_connection_threads st (delete ip (_connection_threads st)) in
  match attempts with
  | [] => (st, [])
  | a :: rest =>
      if negb (a_running a) then (exit_worker st, [EvWorkerExit])
      else
        match connection_attempt st pad_num ip a with
        | (st1, events, AttemptPending) => (st1, events)
        | (st1, events, AttemptRaised) => (st1, events)
        | (st1, events, AttemptDone) =>
            if negb (a_running_after a)
            then (exit_worker st1, events ++ [EvWorkerExit])
            else
              let '(st2, more) := _connection_worker rest st1 pad_num ip in
              (st2, events ++ EvSleep :: more)
        end
  end.

(** ** The operations that write the pad store *)

(** The fields the operator screens write ([pad_detail_screen.py]):
    [team_id], [rdy_on], [buzzer_on] and [led_on]. *)
Inductive operator_write :=
  | SetTeamId (v : Z)
  | SetRdyOn (b : bool)
  | SetBuzzerOn (b : bool)
  | SetLedOn (b : bool).

Definition operator_update (w : operator_write) (p : Pad) : Pad :=
  {| team_id := match w with SetTeamId v => v | _ => team_id p end;
     ip_address := ip_address p;
     rssi := rssi p; rssi_color := rssi_color p;
     continuity := continuity p; continuity_color := continuity_color p;
     voltage := voltage p; voltage_color := voltage_color p;
     arm_status := arm_status p; arm_color := arm_color p;
     last_seen := last_seen p; last_seen_color := last_seen_color p;
     buzzer_on := match w with SetBuzzerOn b => b | _ => buzzer_on p end;
     led_on := match w with SetLedOn b => b | _ => led_on p end;
     rdy_on := match w with SetRdyOn b => b | _ => rdy_on p end |}.

Inductive store_op :=
  | OpDiscovery (data : list byte) (ip : string)
  | OpTelemetry (pad_num : Z) (ip : string) (t : telemetry)
  | OpCommand (pad_num : Z) (command : option Z) (enable : option bool)
              (sendall_ok : bool) (now : spec_float)
  | OpOperator (pad_num : Z) (w : operator_write)
  | OpTick.

Definition run_op (st : RLCU) (op : store_op) : RLCU :=
  match op with
  | OpDiscovery data ip => _handle_discovery st data ip
  | OpTelemetry pad_num ip t =>
      with_pad_data st (_apply_telemetry (pad_data st) pad_num ip t)
  | OpCommand pad_num command enable ok now =>
      snd (fst (send_command st pad_num command enable ok now))
  | OpOperator pad_num w =>
      match pad_data st !! pad_num with
      | Some p =>
          with_pad_data st (<[pad_num := operator_update w p]> (pad_data st))
      | None => st
      end
  | OpTick => with_pad_data st (_timer_tick (pad_data st))
  end.

Definition run_ops (st : RLCU) (ops : list store_op) : RLCU :=
  foldl run_op st ops.

(** ** Vocabulary of the statements *)

(** The two float32 words of a frame, as 32-bit patterns. *)
Definition frame_voltage_bits (frame : list byte) : Z :=
  match frame with
  | v0 :: v1 :: v2 :: v3 :: _ => le32 v0 v1 v2 v3
  | _ => 0
  end.

Definition frame_rssi_bits (frame : list byte) : Z :=
  frame_voltage_bits (drop 4 frame).

Definition is_nan (x : spec_float) : bool :=
  match x with
  | S754_nan => true
  | _ => false
  end.

(** The frame of the worked example with the voltage word replaced by
    the pattern 0x7f800001: exponent all ones, fraction 1, a NaN. *)
Definition nan_frame : list byte :=
  [x01; x00; x80; x7f; x00; x00; x40; xc2; x00; x01; x02; x00].

(** The signal-strength bands behind [rssi_color]. *)
Inductive rssi_band := strong | medium | weak.

Definition band_of_color (c : color) : rssi_band :=
  match c with
  | green => strong
  | yellow => medium
  | _ => weak
  end.

(** The decimal literal [11.4] as Python reads it: the binary64 number
    nearest to 114/10. *)
Definition float_11_4 : spec_float :=
  SFdiv prec64 emax64 (float_of_int 114) (float_of_int 10).

(** The telemetry of the worked example. *)
Definition example_telemetry : telemetry :=
  {| t_voltage := float_11_4; t_rssi := float_of_int (-48);
     t_rbf_status := false; t_squib_continuity := true;
     t_igniter_id := 2 |}.

(** A discovery datagram passes the three checks of [_handle_discovery]. *)
Definition discovery_accepted (data : list byte) : bool :=
  negb (length data <? DISCOVERY_STRUCT_size)%nat
  && String.eqb (discovery_auth_key data) AUTH_KEY
  && negb (n_pads <=? discovery_pad_num data).

(** No two slots are bound to the same non-empty address. *)
Definition unique_binding (pads : gmap Z Pad) : Prop :=
  forall (i j : Z) (p q : Pad),
    pads !! i = Some p -> pads !! j = Some q ->
    ip_address p <> EmptyString -> ip_address p = ip_address q -> i = j.

(** The bytes of a string, and a well-formed discovery datagram for a
    slot: the slot byte, the token, null padding up to 16 bytes. *)
Definition bytes_of_string (s : string) : list byte :=
  String.list_byte_of_string s.

Definition discovery_packet (slot : byte) (token : list byte) : list byte :=
  slot :: take 16 (token ++ replicate 16 x00).

(** The token field of a datagram as raw bytes, cut at the first null. *)
Definition discovery_token_bytes (data : list byte) : list byte :=
  until_null (discovery_raw_auth data).

(** A token that is not the secret: a byte 0xFF sits inside it. *)
Definition smuggled_token : list byte :=
  bytes_of_string "RLCU" ++ [xff] ++ bytes_of_string "!2025".

(** The connection [send_command] finds for a slot, if any: the slot has an
    address and [_connections] has a socket for it. *)
Definition live_connection (st : RLCU) (pad_num : Z) : option sock :=
  if String.eqb (pad_ip st pad_num) EmptyString then None
  else _connections st !! pad_ip st pad_num.

(** The mask a call attempts to transmit. *)
Definition attempted_mask (st : RLCU) (pad_num : Z) (command : option Z)
    (enable : option bool) : Z :=
  snd (next_mask (stored_mask st pad_num) command enable).

(** A value that fits the one-byte command mask. *)
Definition is_mask (z : Z) : Prop := 0 <= z < 256.

(** The mask recorded in [_command_history] for a slot. *)
Definition history_mask (st : RLCU) (pad_num : Z) : option Z :=
  c_mask <$> _command_history st !! pad_num.

(** Slot 0 bound to an address by a discovery datagram; its worker has not
    connected yet. *)
Definition st_bound : RLCU :=
  _handle_discovery RLCU_init
    (discovery_packet x00 (bytes_of_string AUTH_KEY)) "10.0.0.7".

(** The same with the session of slot 0 established on descriptor 5. *)
Definition st_connected : RLCU :=
  with_connections st_bound (<["10.0.0.7" := 5%nat]> (_connections st_bound)).

(** The write of the persisted state, if the call persists one. *)
Definition persist_mask (st : RLCU) (pad_num : Z) (persist : option Z)
    : RLCU :=
  match persist with
  | Some state' =>
      with_command_state st (<[pad_num := state']> (_command_state st))
  | None => st
  end.

(** An iteration of the telemetry loop in which the session is up, at
    least one byte is readable, and the clock has not run past the
    timeout since the data arrived. *)
Definition delivering (s : loop_step) : bool :=
  ls_running s
  && match ls_net s with
     | Readable (S _) => true
     | _ => false
     end
  && negb (timed_out (ls_t_data s) (ls_t_check s)).

(** The pad store after a list of telemetry updates, in order. *)
Definition apply_all (pads : gmap Z Pad) (pad_num : Z) (ip : string)
    (ts : list telemetry) : gmap Z Pad :=
  foldl (fun m t => _apply_telemetry m pad_num ip t) pads ts.

(** How a session ends, read off the exit of its telemetry loop. *)
Definition attempt_end_of (e : loop_exit) : attempt_end :=
  match e with
  | StillRunning => AttemptPending
  | ExitValueError => AttemptRaised
  | _ => AttemptDone
  end.

(** A session whose re-sync write fails and whose peer then sends one
    frame and goes quiet. *)
Definition failed_sync_attempt : attempt :=
  {| a_running := true; a_connect := Some 5%nat; a_sync_ok := false;
     a_sync_time := S754_zero false; a_loop_start := S754_zero false;
     a_stream := example_frame;
     a_script := [mkStep true (Readable 12) (S754_zero false) (S754_zero false);
                  mkStep false Quiet (S754_zero false) (S754_zero false)];
     a_running_after := true |}.

(** No slot has a negative age. *)
Definition ages_nonneg (st : RLCU) : Prop :=
  forall (i : Z) (p : Pad), pad_data st !! i = Some p -> 0 <= last_seen p.

(** The command of an operation fits the command byte. *)
Definition byte_command (op : store_op) : Prop :=
  match op with
  | OpCommand _ command _ _ _ => is_mask (command_value command)
  | _ => True
  end.

(** What a writer other than the ticker does to one slot: it maps the
    record through a function that keeps the age or resets it. *)
Definition keeps_or_resets (f : Pad -> Pad) : Prop :=
  forall p : Pad,
    (last_seen (f p) = last_seen p
     /\ last_seen_color (f p) = last_seen_color p)
    \/ (last_seen (f p) = 0 /\ last_seen_color (f p) = black).

(* ===================================================================== *)
(** * Part I, continued.  The rest of the modules                         *)
(* ===================================================================== *)

(** ** More of [RLCUSocket]: status queries and shutdown *)

(** [has_active_connection] *)
Definition has_active_connection (st : RLCU) (pad_num : Z) : bool :=
  let ip :=
    match pad_data st !! pad_num with
    | Some pad => ip_address pad
    | None => EmptyString
    end in
  if String.eqb ip EmptyString then false
  else
    match _connections st !! ip with
    | Some _ => true
    | None => false
    end.

(** [get_last_command_status]: a copy of the history entry; [None] is the
    empty dict returned for a slot without one. *)
Definition get_last_command_status (st : RLCU) (pad_num : Z)
    : option cmd_entry :=
  _command_history st !! pad_num.

(** The socket object with the flag the UI toggles. *)
Record RLCUSocket := mkSocket {
  sk_state : RLCU;
  sk_listening : bool;
  sk_port : Z
}.

(** The history [stop_listening] builds: one clock reading per slot. *)
Definition command_history_reset (now : Z -> spec_float)
    : gmap Z cmd_entry :=
  list_to_map ((fun i => (i, mkCmd 0 false (now i))) <$> seqZ 0 n_pads).

(** [stop_listening]: every session is closed and forgotten, the worker
    and peer tables are cleared, and the command register starts over;
    [now i] is the clock reading stored in the fresh history of slot [i]. *)
Definition stop_listening (s : RLCUSocket) (now : Z -> spec_float)
    : RLCUSocket :=
  if negb (sk_listening s) then s
  else
    mkSocket
      {| pad_data := pad_data (sk_state s);
         _connections := ∅;
         _connection_threads := ∅;
         _pad_peers := ∅;
         _command_state := command_state_init;
         _command_history := command_history_reset now |}
      false (sk_port s).

(** ** The operator's buttons: [pad_detail_screen.py] *)

(** [update_button_texts]: the labels of the buzzer and the LED button;
    [None] is the [KeyError] of a slot that does not exist. *)
Definition update_button_texts (st : RLCU) (pad_num : Z)
    : option (string * string) :=
  match pad_data st !! pad_num with
  | None => None
  | Some pad =>
      Some (if buzzer_on pad then "Buzzer OFF" else "Buzzer ON",
            if led_on pad then "LED OFF" else "LED ON")
  end.

(** The common shape of [toggle_buzzer] and [toggle_led]: read the flag,
    send the command with the opposite state, and flip the flag only if
    the send reported success. *)
Definition toggle_flag (flag : Pad -> bool) (command : Z)
    (write : bool -> operator_write) (st : RLCU) (pad_num : Z)
    (sendall_ok : bool) (now : spec_float)
    : option (RLCU * list event * (string * string)) :=
  match pad_data st !! pad_num with
  | None => None
  | Some pad =>
      let next_state := negb (flag pad) in
      let '(sent, st1, events) :=
        send_command st pad_num (Some command) (Some next_state)
          sendall_ok now in
      let st2 :=
        if sent then
          match pad_data st1 !! pad_num with
          | Some pad1 =>
              with_pad_data st1
                (<[pad_num := operator_update (write next_state) pad1]>
                   (pad_data st1))
          | None => st1
          end
        else st1 in
      match update_button_texts st2 pad_num with
      | Some texts => Some (st2, events, texts)
      | None => None
      end
  end.

Definition toggle_buzzer : RLCU -> Z -> bool -> spec_float ->
    option (RLCU * list event * (string * string)) :=
  toggle_flag buzzer_on CMD_BUZZER SetBuzzerOn.

Definition toggle_led : RLCU -> Z -> bool -> spec_float ->
    option (RLCU * list event * (string * string)) :=
  toggle_flag led_on CMD_LED SetLedOn.

(** ** The serial link to the remote box: [rlcu_serial.py] *)

Definition TX_ARM_HMI : Z := 1.
Definition TX_ARM_PAD : Z := 2.
Definition TX_CONTINUITY : Z := 4.
Definition RX_ARM_HMI : Z := 1.
Definition RX_LAUNCH : Z := 2.

(** [RLCUSerial]: [_serial_obj] is [None] or a port that is open or not;
    [_event_callback] is registered or not. *)
Record RLCUSerial := mkSerial {
  _serial_obj : option bool;
  connected : bool;
  _event_callback : bool;
  _tx_mask : Z;
  _rx_mask : Z
}.

(** [is_serial_open] *)
Definition is_serial_open (s : RLCUSerial) : bool :=
  match _serial_obj s with
  | Some is_open => is_open
  | None => false
  end.

(** [_write_byte]: the bytes that reach the port; a closed port and a
    failing write both swallow the byte. *)
Definition _write_byte (s : RLCUSerial) (value : Z) (write_ok : bool)
    : list byte :=
  if is_serial_open s && write_ok then [byte_of (Z.land value 255)] else [].

(** [send_status_update] *)
Definition send_status_update (s : RLCUSerial)
    (arm_pad arm_hmi continuity : bool) (write_ok : bool)
    : RLCUSerial * list byte :=
  let mask := 0 in
  let mask := if arm_hmi then Z.lor mask TX_ARM_HMI else mask in
  let mask := if arm_pad then Z.lor mask TX_ARM_PAD else mask in
  let mask := if continuity then Z.lor mask TX_CONTINUITY else mask in
  (mkSerial (_serial_obj s) (connected s) (_event_callback s) mask
     (_rx_mask s),
   _write_byte s mask write_ok).

(** The payload of a status event. *)
Record status_event := mkStatus {
  ev_arm_hmi : bool;
  ev_launch : bool;
  ev_launch_edge : bool
}.

Definition bit_set (value mask : Z) : bool := negb (Z.land value mask =? 0).

(** [_handle_rx_byte] with [_emit_event]: the new state and the event
    handed to the callback, if one is registered and the byte is new. *)
Definition _handle_rx_byte (s : RLCUSerial) (b : Z)
    : RLCUSerial * option status_event :=
  let prev_mask := _rx_mask s in
  if b =? prev_mask then (s, None)
  else
    let s' := mkSerial (_serial_obj s) (connected s) (_event_callback s)
                (_tx_mask s) b in
    let payload :=
      {| ev_arm_hmi := bit_set b RX_ARM_HMI;
         ev_launch := bit_set b RX_LAUNCH;
         ev_launch_edge :=
           bit_set b RX_LAUNCH && negb (bit_set prev_mask RX_LAUNCH) |} in
    (s', if _event_callback s then Some payload else None).

(** What one round of [_listen_serial] sees: the stop flag set, a read
    that returns a byte, a read that times out, or an exception. *)
Inductive serial_step :=
  | SerStop
  | SerByte (b : byte)
  | SerIdle
  | SerError.

(** [_listen_serial]: the events delivered while the steps last. *)
Fixpoint _listen_serial (steps : list serial_step) (s : RLCUSerial)
    : RLCUSerial * list status_event :=
  match steps with
  | [] => (s, [])
  | step :: rest =>
      match step with
      | SerStop => (s, [])
      | _ =>
          if negb (is_serial_open s) then (s, [])
          else
            match step with
            | SerByte b =>
                let '(s1, ev) := _handle_rx_byte s (byte_val b) in
                let '(s2, evs) := _listen_serial rest s1 in
                (s2, match ev with Some e => e :: evs | None => evs end)
            | SerIdle => _listen_serial rest s
            | _ => (s, [])
            end
      end
  end.

(** ** The pad simulator: [socket_sim/socket_sim.py] *)

(** [parse_payload]; [None] is the [ValueError] of a short packet. *)
Definition sim_parse_payload (data : list byte) : option (Z * string) :=
  if (length data <? DISCOVERY_STRUCT_size)%nat then None
  else
    let packet := take DISCOVERY_STRUCT_size data in
    Some (discovery_pad_num packet,
          decode_ascii_ignore (until_null (take 16 (drop 1 packet)))).

(** [parse_telemetry] of the simulator: the first 12 bytes of [data]. *)
Definition sim_parse_telemetry (data : list byte) : option telemetry :=
  let payload := take TELEMETRY_STRUCT_size data in
  if (length payload <? TELEMETRY_STRUCT_size)%nat then None
  else _parse_telemetry payload.

(** [recv_exact]: how the call ends. *)
Inductive recv_exact_result :=
  | ExactBytes (data rest : list byte)
  | ExactTimeout
  | ExactClosed
  | ExactRaised
  | ExactPending.

(** [recv_exact]: read until [size] bytes are buffered; [events] is what
    the network does at each [recv]. *)
Fixpoint recv_exact (events : list net_event) (size : nat)
    (buffer stream : list byte) : recv_exact_result :=
  if (length buffer <? size)%nat then
    match events with
    | [] => ExactPending
    | ev :: events' =>
        match recv ev (size - length buffer) stream with
        | RecvTimedOut => ExactTimeout
        | RecvRaised => ExactRaised
        | RecvChunk [] _ => ExactClosed
        | RecvChunk chunk stream' =>
            recv_exact events' size (buffer ++ chunk) stream'
        end
    end
  else ExactBytes buffer stream.

(** ** More vocabulary *)

(** All derived display fields of a pad agree with its raw fields. *)
Definition pad_consistent (p : Pad) : Prop :=
  last_seen_color p = (if 30 <? last_seen p then red else black)
  /\ voltage_color p = voltage_color_of (voltage p)
  /\ rssi_color p = rssi_color_of (rssi p)
  /\ continuity_color p = continuity_color_of (continuity p)
  /\ arm_color p = arm_color_of (arm_status p).

(** An accepted datagram that names slot [k]. *)
Definition binds_slot (k : Z) (packet : list byte * string) : bool :=
  discovery_accepted (fst packet) && (discovery_pad_num (fst packet) =? k).

(** Every [EvRegister] in a trace is followed at once by the one-byte
    [EvSendall] of the re-sync on the same address. *)
Fixpoint register_then_sync (trace : list event) : bool :=
  match trace with
  | [] => true
  | EvRegister ip _ :: rest =>
      match rest with
      | EvSendall ip' [_] _ :: _ =>
          String.eqb ip ip' && register_then_sync rest
      | _ => false
      end
  | _ :: rest => register_then_sync rest
  end.

(** Every byte a trace hands to the transport is the given payload. *)
Definition sends_only (payload : list byte) (trace : list event) : Prop :=
  forall (ip : string) (p : list byte) (ok : bool),
    EvSendall ip p ok ∈ trace -> p = payload.

(** The command of an operation is a combination of the four command
    bits. *)
Definition four_bit_command (op : store_op) : Prop :=
  match op with
  | OpCommand _ command _ _ _ => 0 <= command_value command < 16
  | _ => True
  end.

(** The telemetry loop of a session has not ended yet. *)
Definition still_running (e : loop_exit) : bool :=
  match e with
  | StillRunning => true
  | _ => false
  end.

(** The state a session leaves behind while it is still registered. *)
Definition session_state (st : RLCU) (pad_num : Z) (ip : string)
    (a : attempt) (c : sock) : RLCU :=
  with_pad_data
    (with_command_history
       (with_connections st (<[ip := c]> (_connections st)))
       (<[pad_num := mkCmd (stored_mask st pad_num) (a_sync_ok a)
                       (a_sync_time a)]> (_command_history st)))
    (lr_pads (_telemetry_loop (a_script a) pad_num ip (pad_data st)
                (a_loop_start a) (a_stream a))).

(** What a round leaves of the state it started from. *)
Record round_frame (pad_num : Z) (ip : string) (st st' : RLCU) : Prop := {
  rf_command_state : _command_state st' = _command_state st;
  rf_pad_peers : _pad_peers st' = _pad_peers st;
  rf_pads : forall k, k <> pad_num -> pad_data st' !! k = pad_data st !! k;
  rf_slots : forall k, is_Some (pad_data st' !! k)
                       <-> is_Some (pad_data st !! k);
  rf_history : forall k, k <> pad_num ->
                 _command_history st' !! k = _command_history st !! k;
  rf_connections : forall ip', ip' <> ip ->
                     _connections st' !! ip' = _connections st !! ip';
  rf_threads : forall ip', ip' <> ip ->
                 _connection_threads st' !! ip'
                 = _connection_threads st !! ip'
}.

(** In a list of status events every [launch_edge] marks a rising edge:
    the launch bit is set and was clear in the event before ([prev] for
    the first one). *)
Fixpoint rising_edges (prev : bool) (evs : list status_event) : bool :=
  match evs with
  | [] => true
  | e :: rest =>
      Bool.eqb (ev_launch_edge e) (ev_launch e && negb prev)
      && rising_edges (ev_launch e) rest
  end.

(* ===================================================================== *)
(** * Part II.  Lemmas and theorems                                       *)
(* ===================================================================== *)

(** ** Binary32 numbers inside binary64 *)

Lemma digits2_pos_log2 (m : positive) :
  Z.pos (digits2_pos m) = Z.log2 (Z.pos m) + 1.
Proof.
  induction m as [m IH | m IH |]; simpl digits2_pos.
  - rewrite Pos2Z.inj_succ, IH.
    change (Z.pos m~1) with (2 * Z.pos m + 1).
    rewrite Z.log2_succ_double by lia. lia.
  - rewrite Pos2Z.inj_succ, IH.
    change (Z.pos m~0) with (2 * Z.pos m).
    rewrite Z.log2_double by lia. lia.
  - reflexivity.
Qed.

Lemma digits2_pos_range (m : positive) (d : Z) :
  0 < d -> 2 ^ (d - 1) <= Z.pos m < 2 ^ d -> Z.pos (digits2_pos m) = d.
Proof.
  intros Hd Hm. rewrite digits2_pos_log2.
  rewrite (Z.log2_unique (Z.pos m) (d - 1)); try lia.
  replace (Z.succ (d - 1)) with d by lia. lia.
Qed.

Lemma digits2_pos_upper (m : positive) (d : Z) :
  0 <= d -> Z.pos m < 2 ^ d -> Z.pos (digits2_pos m) <= d.
Proof.
  intros Hd Hm. rewrite digits2_pos_log2.
  assert (Z.log2 (Z.pos m) < d) by (apply Z.log2_lt_pow2; lia). lia.
Qed.

Lemma digits2_pos_shift (m d : positive) :
  Z.pos (digits2_pos (Pos.iter xO m d)) = Z.pos (digits2_pos m) + Z.pos d.
Proof.
  induction d as [| d IH] using Pos.peano_ind.
  - simpl. lia.
  - rewrite Pos.iter_succ. simpl digits2_pos. lia.
Qed.

Lemma iter_pos_iter {A} (f : A -> A) (n : positive) (x : A) :
  SpecFloat.iter_pos f n x = Pos.iter f x n.
Proof.
  revert x. induction n as [n IH | n IH |]; intros x; simpl.
  - rewrite !IH, !Pos.iter_swap. reflexivity.
  - rewrite !IH. reflexivity.
  - reflexivity.
Qed.

Lemma shr_1_double (m : positive) :
  shr_1 {| shr_m := Z.pos m~0; shr_r := false; shr_s := false |}
  = {| shr_m := Z.pos m; shr_r := false; shr_s := false |}.
Proof. reflexivity. Qed.

Lemma shr_iter_shift (m d : positive) :
  SpecFloat.iter_pos shr_1 d
    {| shr_m := Z.pos (Pos.iter xO m d); shr_r := false; shr_s := false |}
  = {| shr_m := Z.pos m; shr_r := false; shr_s := false |}.
Proof.
  rewrite iter_pos_iter.
  induction d as [| d IH] using Pos.peano_ind.
  - reflexivity.
  - rewrite Pos.iter_succ_r. rewrite Pos.iter_succ. simpl shr_1.
    exact IH.
Qed.

Lemma canonical_fexp prec emax m e :
  canonical_mantissa prec emax m e = true ->
  fexp prec emax (Z.pos (digits2_pos m) + e) = e.
Proof. unfold canonical_mantissa. intros H. apply Z.eqb_eq in H. exact H. Qed.

Lemma shr_fexp_canonical prec emax m e :
  canonical_mantissa prec emax m e = true ->
  shr_fexp prec emax (Z.pos m) e loc_Exact
  = ({| shr_m := Z.pos m; shr_r := false; shr_s := false |}, e).
Proof.
  intros H. unfold shr_fexp. simpl Zdigits2.
  rewrite (canonical_fexp _ _ _ _ H), Z.sub_diag. reflexivity.
Qed.

Lemma binary_round_aux_canonical prec emax s m e :
  bounded prec emax m e = true ->
  binary_round_aux prec emax s (Z.pos m) e loc_Exact = S754_finite s m e.
Proof.
  unfold bounded. intros H. apply andb_true_iff in H as [Hc He].
  unfold binary_round_aux.
  rewrite (shr_fexp_canonical _ _ _ _ Hc). simpl.
  rewrite (shr_fexp_canonical _ _ _ _ Hc). simpl.
  rewrite He. reflexivity.
Qed.

(** Facts about a binary32-bounded mantissa and exponent. *)
Lemma bounded32_inv m e :
  bounded prec32 emax32 m e = true ->
  Z.pos (digits2_pos m) <= 24 /\ -149 <= e <= 104 /\
  Z.max (Z.pos (digits2_pos m) + e - 24) (-149) = e.
Proof.
  unfold bounded, canonical_mantissa, fexp, emin, prec32, emax32.
  intros H. apply andb_true_iff in H as [Hc He].
  apply Z.eqb_eq in Hc. apply Z.leb_le in He. lia.
Qed.

Lemma widen_finite s m e :
  bounded prec32 emax32 m e = true ->
  widen (S754_finite s m e)
  = S754_finite s (Pos.iter xO m (widen_shift m)) (e - Z.pos (widen_shift m)).
Proof.
  intros Hb. destruct (bounded32_inv _ _ Hb) as (Hd & He & Hc).
  assert (Hw : Z.pos (widen_shift m) = 53 - Z.pos (digits2_pos m))
    by (unfold widen_shift; lia).
  unfold widen, binary_round.
  assert (Hf : fexp prec64 emax64 (Z.pos (digits2_pos m) + e)
               = e - Z.pos (widen_shift m))
    by (unfold fexp, emin, prec64, emax64; lia).
  rewrite Hf. unfold shl_align.
  replace (e - Z.pos (widen_shift m) - e) with (Z.neg (widen_shift m)) by lia.
  apply binary_round_aux_canonical.
  unfold bounded, canonical_mantissa. apply andb_true_iff. split.
  - apply Z.eqb_eq. rewrite digits2_pos_shift.
    unfold fexp, emin, prec64, emax64. lia.
  - apply Z.leb_le. unfold prec64, emax64. lia.
Qed.

Lemma narrow_widen_finite s m e :
  bounded prec32 emax32 m e = true ->
  narrow (widen (S754_finite s m e)) = Some (S754_finite s m e).
Proof.
  intros Hb. rewrite (widen_finite _ _ _ Hb).
  destruct (bounded32_inv _ _ Hb) as (Hd & He & Hc).
  assert (Hw : Z.pos (widen_shift m) = 53 - Z.pos (digits2_pos m))
    by (unfold widen_shift; lia).
  set (d := widen_shift m) in *.
  assert (Hcan : canonical_mantissa prec32 emax32 m e = true).
  { unfold bounded in Hb. apply andb_true_iff in Hb. tauto. }
  assert (Hf : fexp prec32 emax32 (Z.pos (digits2_pos (Pos.iter xO m d)) + (e - Z.pos d)) = e).
  { rewrite digits2_pos_shift.
    replace (Z.pos (digits2_pos m) + Z.pos d + (e - Z.pos d))
      with (Z.pos (digits2_pos m) + e) by lia.
    apply canonical_fexp. exact Hcan. }
  unfold narrow, binary_round. rewrite Hf. unfold shl_align.
  replace (e - (e - Z.pos d)) with (Z.pos d) by lia.
  unfold binary_round_aux.
  unfold shr_fexp at 1. simpl Zdigits2. rewrite Hf.
  replace (e - (e - Z.pos d)) with (Z.pos d) by lia.
  unfold shr. simpl shr_record_of_loc. rewrite shr_iter_shift.
  replace (e - Z.pos d + Z.pos d) with e by lia.
  simpl loc_of_shr_record. simpl round_nearest_even.
  rewrite (shr_fexp_canonical _ _ _ _ Hcan). simpl shr_m.
  replace (e <=? emax32 - prec32) with true
    by (symmetry; apply Z.leb_le; unfold emax32, prec32; lia).
  reflexivity.
Qed.

(** *** Bit patterns *)

Lemma f32_fields (w : Z) :
  0 <= w < 4294967296 ->
  w = sign_bit (f32_sign w) + f32_expo w * 8388608 + f32_frac w
  /\ 0 <= f32_expo w < 256 /\ 0 <= f32_frac w < 8388608.
Proof.
  intros Hw. unfold f32_sign, f32_expo, f32_frac.
  assert (Hq : w / 2147483648 = 0 \/ w / 2147483648 = 1)
    by (Z.div_mod_to_equations; lia).
  destruct Hq as [Hq | Hq]; rewrite Hq; simpl sign_bit;
    Z.div_mod_to_equations; lia.
Qed.

Lemma float32_of_bits_valid (w : Z) :
  0 <= w < 4294967296 ->
  valid_binary prec32 emax32 (float32_of_bits w) = true.
Proof.
  intros Hw. destruct (f32_fields w Hw) as (_ & He & Hf).
  unfold float32_of_bits.
  destruct (Z.eqb_spec (f32_expo w) 0) as [E0 | E0].
  - destruct (Z.eqb_spec (f32_frac w) 0) as [F0 | F0]; [reflexivity |].
    simpl. unfold bounded, canonical_mantissa. apply andb_true_iff. split.
    + apply Z.eqb_eq.
      assert (Z.pos (digits2_pos (Z.to_pos (f32_frac w))) <= 23).
      { apply digits2_pos_upper; [lia |]. rewrite Z2Pos.id by lia.
        change (2 ^ 23) with 8388608. lia. }
      unfold fexp, emin, prec32, emax32. lia.
    + reflexivity.
  - destruct (Z.eqb_spec (f32_expo w) 255) as [E1 | E1].
    + destruct (f32_frac w =? 0); reflexivity.
    + simpl. unfold bounded, canonical_mantissa. apply andb_true_iff. split.
      * apply Z.eqb_eq.
        rewrite (digits2_pos_range _ 24); [| lia |].
        -- unfold fexp, emin, prec32, emax32. lia.
        -- rewrite Z2Pos.id by lia.
           change (2 ^ (24 - 1)) with 8388608.
           change (2 ^ 24) with 16777216. lia.
      * apply Z.leb_le. unfold prec32, emax32. lia.
Qed.

Lemma bits_of_float32_of_bits (w : Z) :
  0 <= w < 4294967296 ->
  float32_of_bits w <> S754_nan ->
  bits_of_float32 (float32_of_bits w) = w.
Proof.
  intros Hw. destruct (f32_fields w Hw) as (Hdec & He & Hf).
  unfold float32_of_bits.
  destruct (Z.eqb_spec (f32_expo w) 0) as [E0 | E0].
  - destruct (Z.eqb_spec (f32_frac w) 0) as [F0 | F0]; intros _; simpl.
    + lia.
    + rewrite Z2Pos.id by lia.
      replace (f32_frac w <? 8388608) with true by (symmetry; apply Z.ltb_lt; lia).
      lia.
  - destruct (Z.eqb_spec (f32_expo w) 255) as [E1 | E1].
    + destruct (Z.eqb_spec (f32_frac w) 0) as [F0 | F0]; intros Hn; simpl.
      * lia.
      * congruence.
    + intros _. simpl. rewrite Z2Pos.id by lia.
      replace (f32_frac w + 8388608 <? 8388608) with false
        by (symmetry; apply Z.ltb_ge; lia).
      lia.
Qed.

Lemma float32_of_bits_idem (w : Z) :
  0 <= w < 4294967296 ->
  float32_of_bits (bits_of_float32 (float32_of_bits w)) = float32_of_bits w.
Proof.
  intros Hw. destruct (float32_of_bits w) eqn:E;
    try (rewrite <- E at 2; f_equal; rewrite <- E;
         apply bits_of_float32_of_bits; [exact Hw | congruence]).
  reflexivity.
Qed.

Lemma bits_of_float32_range (w : Z) :
  0 <= w < 4294967296 ->
  0 <= bits_of_float32 (float32_of_bits w) < 4294967296.
Proof.
  intros Hw. destruct (float32_of_bits w) eqn:E;
    try (rewrite <- E; rewrite bits_of_float32_of_bits; [exact Hw | exact Hw | congruence]).
  simpl. lia.
Qed.

(** *** Bytes *)

Lemma byte_val_range (b : byte) : 0 <= byte_val b < 256.
Proof.
  unfold byte_val. pose proof (Byte.to_N_bounded b). lia.
Qed.

Lemma byte_of_val (b : byte) : byte_of (byte_val b) = b.
Proof.
  unfold byte_of. pose proof (byte_val_range b) as Hr.
  rewrite Z.mod_small by lia. unfold byte_val.
  rewrite N2Z.id, Byte.of_to_N. reflexivity.
Qed.

Lemma byte_val_of (z : Z) : byte_val (byte_of z) = z mod 256.
Proof.
  unfold byte_of, byte_val.
  assert (Hr : 0 <= z mod 256 < 256) by (apply Z.mod_pos_bound; lia).
  destruct (Byte.of_N (Z.to_N (z mod 256))) as [b |] eqn:E.
  - simpl. apply Byte.to_of_N in E. rewrite E. lia.
  - apply Byte.of_N_None_iff in E. lia.
Qed.

Lemma le32_range b0 b1 b2 b3 : 0 <= le32 b0 b1 b2 b3 < 4294967296.
Proof.
  unfold le32.
  pose proof (byte_val_range b0). pose proof (byte_val_range b1).
  pose proof (byte_val_range b2). pose proof (byte_val_range b3). lia.
Qed.

Lemma byte_of_mod (z v : Z) : z mod 256 = v mod 256 -> byte_of z = byte_of v.
Proof. unfold byte_of. intros ->. reflexivity. Qed.

Lemma to_le32_le32 b0 b1 b2 b3 :
  to_le32 (le32 b0 b1 b2 b3) = [b0; b1; b2; b3].
Proof.
  pose proof (byte_val_range b0). pose proof (byte_val_range b1).
  pose proof (byte_val_range b2). pose proof (byte_val_range b3).
  transitivity [byte_of (byte_val b0); byte_of (byte_val b1);
                byte_of (byte_val b2); byte_of (byte_val b3)];
    [| rewrite !byte_of_val; reflexivity].
  unfold to_le32, le32.
  f_equal; [| f_equal; [| f_equal; [| f_equal]]];
    apply byte_of_mod; Z.div_mod_to_equations; lia.
Qed.

Lemma le32_to_le32 (w : Z) :
  0 <= w < 4294967296 ->
  match to_le32 w with
  | [b0; b1; b2; b3] => le32 b0 b1 b2 b3 = w
  | _ => False
  end.
Proof.
  intros Hw. unfold to_le32, le32. rewrite !byte_val_of.
  Z.div_mod_to_equations. lia.
Qed.

(** *** The float32 field codec *)

Lemma narrow_widen (x : spec_float) :
  valid_binary prec32 emax32 x = true -> narrow (widen x) = Some x.
Proof.
  destruct x as [s | s | | s m e]; intros Hv; try reflexivity.
  apply narrow_widen_finite. exact Hv.
Qed.

Lemma pack_unpack_f32 b0 b1 b2 b3 :
  pack_f32 (unpack_f32 b0 b1 b2 b3)
  = Some (to_le32 (bits_of_float32 (float32_of_bits (le32 b0 b1 b2 b3)))).
Proof.
  unfold pack_f32, unpack_f32.
  rewrite narrow_widen by (apply float32_of_bits_valid, le32_range).
  reflexivity.
Qed.

Lemma pack_unpack_f32_exact b0 b1 b2 b3 :
  float32_of_bits (le32 b0 b1 b2 b3) <> S754_nan ->
  pack_f32 (unpack_f32 b0 b1 b2 b3) = Some [b0; b1; b2; b3].
Proof.
  intros Hn. rewrite pack_unpack_f32.
  rewrite bits_of_float32_of_bits by (apply le32_range || exact Hn).
  rewrite to_le32_le32. reflexivity.
Qed.

Lemma unpack_to_le32 (w : Z) :
  0 <= w < 4294967296 ->
  match to_le32 w with
  | [c0; c1; c2; c3] => unpack_f32 c0 c1 c2 c3 = widen (float32_of_bits w)
  | _ => False
  end.
Proof.
  intros Hw. pose proof (le32_to_le32 w Hw) as H.
  unfold to_le32 in *. unfold unpack_f32. rewrite H. reflexivity.
Qed.

Lemma unpack_pack_unpack_f32 b0 b1 b2 b3 :
  match to_le32 (bits_of_float32 (float32_of_bits (le32 b0 b1 b2 b3))) with
  | [c0; c1; c2; c3] => unpack_f32 c0 c1 c2 c3 = unpack_f32 b0 b1 b2 b3
  | _ => False
  end.
Proof.
  pose proof (le32_range b0 b1 b2 b3) as Hr.
  pose proof (unpack_to_le32 _ (bits_of_float32_range _ Hr)) as H.
  unfold to_le32 in *. rewrite H.
  rewrite float32_of_bits_idem by exact Hr. reflexivity.
Qed.

Lemma unpack_pack_bool (b : byte) :
  unpack_bool (pack_bool (unpack_bool b)) = unpack_bool b.
Proof. destruct (unpack_bool b); reflexivity. Qed.

Lemma parse_frame_length (frame : list byte) :
  length frame = TELEMETRY_STRUCT_size -> is_Some (_parse_telemetry frame).
Proof.
  intros H.
  do 12 (destruct frame as [| ? frame]; [discriminate H |]).
  destruct frame; [| discriminate H]. simpl. eauto.
Qed.

Lemma parse_Some_length (frame : list byte) (t : telemetry) :
  _parse_telemetry frame = Some t -> length frame = TELEMETRY_STRUCT_size.
Proof.
  intros H.
  do 12 (destruct frame as [| ? frame]; [discriminate H |]).
  destruct frame; [reflexivity | discriminate H].
Qed.




(** *** Ordering of Python floats *)

Lemma SFcompare_swap (x y : spec_float) :
  SFcompare y x = CompOpp <$> SFcompare x y.
Proof.
  destruct x as [s1 | s1 | | s1 m1 e1], y as [s2 | s2 | | s2 m2 e2];
    simpl; try reflexivity;
    try (destruct s1; reflexivity); try (destruct s2; reflexivity);
    try (destruct s1, s2; reflexivity).
  assert (Hm : Pos.compare_cont Eq m2 m1
               = CompOpp (Pos.compare_cont Eq m1 m2))
    by (rewrite Pos.compare_cont_antisym; reflexivity).
  destruct s1, s2; simpl; try reflexivity;
    rewrite (Z.compare_antisym e1 e2), Hm;
    destruct (e1 ?= e2); simpl; try reflexivity;
    destruct (Pos.compare_cont Eq m1 m2); reflexivity.
Qed.

Lemma SFleb_not_ltb (x y : spec_float) :
  SFleb x y = true -> SFltb y x = false.
Proof.
  unfold SFleb, SFltb. rewrite (SFcompare_swap x y).
  destruct (SFcompare x y) as [[] |]; simpl; congruence.
Qed.

Lemma SFcompare_is_Some (x y : spec_float) :
  is_nan x = false -> is_nan y = false -> is_Some (SFcompare x y).
Proof. destruct x, y; simpl; try discriminate; eauto. Qed.

Lemma SFltb_false_leb (x y : spec_float) :
  is_nan x = false -> is_nan y = false ->
  SFltb y x = false -> SFleb x y = true.
Proof.
  intros Hx Hy. unfold SFleb, SFltb. rewrite (SFcompare_swap x y).
  destruct (SFcompare_is_Some x y Hx Hy) as [c Hc]. rewrite Hc.
  destruct c; simpl; congruence.
Qed.

Lemma SFltb_not_nan (x y : spec_float) :
  SFltb x y = true -> is_nan x = false /\ is_nan y = false.
Proof.
  unfold SFltb. destruct x, y; simpl; try discriminate; auto.
Qed.


(** *** The derived fields of a pad *)

Lemma SFltb_below_negative (m1 m2 : positive) (e1 e2 : Z) (r : spec_float) :
  e1 < e2 ->
  SFltb (S754_finite true m1 e1) r = true ->
  SFltb (S754_finite true m2 e2) r = true.
Proof.
  intros He. unfold SFltb.
  destruct r as [s | s | | s m e]; cbn [SFcompare]; try discriminate;
    try (destruct s; congruence).
  destruct s; [| reflexivity].
  destruct (Z.compare_spec e1 e) as [E1 | E1 | E1];
    destruct (Z.compare_spec e2 e) as [E2 | E2 | E2];
    try lia; try discriminate; reflexivity.
Qed.

Lemma above_50_above_70 (r : spec_float) :
  float_gt r (float_of_int (-50)) = true ->
  float_gt r (float_of_int (-70)) = true.
Proof.
  unfold float_gt.
  change (float_of_int (-50)) with (S754_finite true 7036874417766400 (-47)).
  change (float_of_int (-70)) with (S754_finite true 4925812092436480 (-46)).
  apply SFltb_below_negative. lia.
Qed.

Lemma rssi_color_strong (r : spec_float) :
  band_of_color (rssi_color_of r) = strong
  <-> float_gt r (float_of_int (-50)) = true.
Proof.
  unfold rssi_color_of.
  destruct (float_gt r (float_of_int (-50)));
    [| destruct (float_gt r (float_of_int (-70)))]; cbn [band_of_color];
    split; congruence.
Qed.

Lemma rssi_color_medium (r : spec_float) :
  band_of_color (rssi_color_of r) = medium
  <-> float_lt (float_of_int (-70)) r = true
      /\ float_le r (float_of_int (-50)) = true.
Proof.
  unfold rssi_color_of, float_gt, float_lt, float_le.
  destruct (SFltb (float_of_int (-50)) r) eqn:E50.
  - cbn [band_of_color]. split; [discriminate |]. intros [_ H].
    apply SFleb_not_ltb in H. congruence.
  - destruct (SFltb (float_of_int (-70)) r) eqn:E70; cbn [band_of_color].
    + split; [intros _ | reflexivity]. split; [reflexivity |].
      apply SFltb_not_nan in E70 as [_ Hr].
      apply SFltb_false_leb; [exact Hr | reflexivity | exact E50].
    + split; [discriminate |]. intros [H _]. discriminate.
Qed.

Lemma rssi_color_weak (r : spec_float) :
  band_of_color (rssi_color_of r) = weak
  <-> float_gt r (float_of_int (-70)) = false.
Proof.
  unfold rssi_color_of.
  destruct (float_gt r (float_of_int (-50))) eqn:E50.
  - apply above_50_above_70 in E50. rewrite E50.
    cbn [band_of_color]. split; discriminate.
  - destruct (float_gt r (float_of_int (-70)));
      cbn [band_of_color]; split; congruence.
Qed.

Lemma apply_telemetry_lookup (pads : gmap Z Pad) (pad_num : Z) (ip : string)
    (t : telemetry) (p : Pad) :
  pads !! pad_num = Some p ->
  _apply_telemetry pads pad_num ip t !! pad_num
  = Some (telemetry_update ip t p).
Proof.
  intros H. unfold _apply_telemetry. rewrite H. apply lookup_insert_eq.
Qed.

Lemma apply_telemetry_other (pads : gmap Z Pad) (pad_num k : Z) (ip : string)
    (t : telemetry) :
  k <> pad_num ->
  _apply_telemetry pads pad_num ip t !! k = pads !! k.
Proof.
  intros H. unfold _apply_telemetry.
  destruct (pads !! pad_num); [| reflexivity].
  apply lookup_insert_ne. congruence.
Qed.

(** C8: one application of a decoded telemetry frame writes the raw values
    and the derived fields together, the derived ones as functions of the
    raw ones: the voltage indicator is green iff voltage >= 10.0; the rssi
    band is strong iff rssi > -50, medium iff -70 < rssi <= -50, weak
    otherwise; the continuity indicator follows the continuity flag;
    arm_status is the interlock-removed flag and is shown red when set.
    The frame of the example (11.4, -48.0, false, true, 2) gives
    voltage_ok, a strong band, continuity and arm_status false. *)
Theorem apply_telemetry_derived (pads : gmap Z Pad) (pad_num : Z)
    (ip : string) (t : telemetry) (p : Pad) :
  pads !! pad_num = Some p ->
  exists p',
    _apply_telemetry pads pad_num ip t !! pad_num = Some p' /\
    voltage p' = t_voltage t /\ rssi p' = t_rssi t /\
    continuity p' = t_squib_continuity t /\
    arm_status p' = t_rbf_status t /\
    (voltage_color p' = green
     <-> float_ge (voltage p') (float_of_int 10) = true) /\
    (voltage_color p' = red
     <-> float_ge (voltage p') (float_of_int 10) = false) /\
    (band_of_color (rssi_color p') = strong
     <-> float_gt (rssi p') (float_of_int (-50)) = true) /\
    (band_of_color (rssi_color p') = medium
     <-> float_lt (float_of_int (-70)) (rssi p') = true
         /\ float_le (rssi p') (float_of_int (-50)) = true) /\
    (band_of_color (rssi_color p') = weak
     <-> float_gt (rssi p') (float_of_int (-70)) = false) /\
    (continuity_color p' = green <-> continuity p' = true) /\
    (arm_color p' = red <-> arm_status p' = true) /\
    pack_telemetry example_telemetry = Some example_frame /\
    (_parse_telemetry example_frame = Some t ->
     voltage_color p' = green /\ band_of_color (rssi_color p') = strong /\
     continuity p' = true /\ arm_status p' = false).
Proof.
  intros H. exists (telemetry_update ip t p).
  split; [apply apply_telemetry_lookup; exact H |].
  cbn [telemetry_update voltage rssi continuity arm_status voltage_color
       rssi_color continuity_color arm_color].
  do 4 (split; [reflexivity |]).
  split; [| split].
  { unfold voltage_color_of.
    destruct (float_ge (t_voltage t) (float_of_int 10)); split; congruence. }
  { unfold voltage_color_of.
    destruct (float_ge (t_voltage t) (float_of_int 10)); split; congruence. }
  split; [apply rssi_color_strong |].
  split; [apply rssi_color_medium |].
  split; [apply rssi_color_weak |].
  split; [destruct (t_squib_continuity t); simpl; split; congruence |].
  split; [destruct (t_rbf_status t); simpl; split; congruence |].
  split; [reflexivity |].
  intros [= <-]. repeat split.
Qed.

Lemma apply_telemetry_derived_witness :
  exists p',
    _apply_telemetry pad_data_init 2 "10.0.0.7" example_telemetry !! 2
    = Some p' /\ voltage p' = float_11_4.
Proof.
  destruct (apply_telemetry_derived pad_data_init 2 "10.0.0.7"
              example_telemetry Pad_init eq_refl)
    as (p' & Hp & Hv & _).
  exists p'. split; [exact Hp | exact Hv].
Defined.

(** *** Discovery *)

Lemma ensure_connection_pad_data (st : RLCU) (pad_num : Z) (ip : string) :
  pad_data (_ensure_connection st pad_num ip) = pad_data st.
Proof.
  unfold _ensure_connection.
  destruct (_connection_threads st !! ip) as [w |]; [destruct (w_alive w) |];
    reflexivity.
Qed.

Lemma ensure_connection_command_state (st : RLCU) (pad_num : Z) (ip : string) :
  _command_state (_ensure_connection st pad_num ip) = _command_state st.
Proof.
  unfold _ensure_connection.
  destruct (_connection_threads st !! ip) as [w |]; [destruct (w_alive w) |];
    reflexivity.
Qed.

Lemma handle_discovery_rejected (st : RLCU) (data : list byte) (ip : string) :
  discovery_accepted data = false -> _handle_discovery st data ip = st.
Proof.
  unfold discovery_accepted, _handle_discovery. intros H.
  destruct (length data <? DISCOVERY_STRUCT_size)%nat; [reflexivity |].
  destruct (String.eqb (discovery_auth_key data) AUTH_KEY);
    [| reflexivity].
  destruct (n_pads <=? discovery_pad_num data); [reflexivity |].
  discriminate H.
Qed.

Lemma handle_discovery_accepted (st : RLCU) (data : list byte) (ip : string) :
  discovery_accepted data = true ->
  pad_data (_handle_discovery st data ip)
  = match pad_data st !! discovery_pad_num data with
    | Some p => <[discovery_pad_num data := mark_contact ip p]> (pad_data st)
    | None => pad_data st
    end.
Proof.
  unfold discovery_accepted, _handle_discovery. intros H.
  destruct (length data <? DISCOVERY_STRUCT_size)%nat; [discriminate H |].
  destruct (String.eqb (discovery_auth_key data) AUTH_KEY);
    [| discriminate H].
  destruct (n_pads <=? discovery_pad_num data); [discriminate H |].
  simpl negb. cbv iota. rewrite ensure_connection_pad_data. reflexivity.
Qed.

(** C6 (as amended): a discovery datagram that is shorter than the
    17-byte layout, or whose token -- cut at the first null byte and
    decoded as ASCII with the bytes above 127 dropped -- differs from the
    secret, or whose slot index is not below the fleet size, changes
    nothing: no pad record, and no other part of the state. *)
Theorem discovery_rejected_unchanged (st : RLCU) (data : list byte)
    (ip : string) :
  (length data < DISCOVERY_STRUCT_size)%nat
  \/ discovery_auth_key data <> AUTH_KEY
  \/ n_pads <= discovery_pad_num data ->
  _handle_discovery st data ip = st.
Proof.
  intros H. apply handle_discovery_rejected. unfold discovery_accepted.
  destruct H as [H | [H | H]].
  - apply Nat.ltb_lt in H. rewrite H. reflexivity.
  - apply String.eqb_neq in H. rewrite H. apply andb_false_iff.
    left. apply andb_false_r.
  - apply Z.leb_le in H. rewrite H. apply andb_false_r.
Qed.

Lemma discovery_rejected_unchanged_witness :
  _handle_discovery RLCU_init
    (discovery_packet x09 (bytes_of_string AUTH_KEY)) "10.0.0.7"
  = RLCU_init.
Proof.
  apply discovery_rejected_unchanged. right. right. vm_compute. discriminate.
Defined.

(** C6, as the claim words it, fails: the token field of this datagram,
    cut at the first null byte, is not the secret (it carries a byte
    0xFF), and the datagram still binds slot 0. *)
Lemma discovery_token_counterexample :
  ~ (forall (st : RLCU) (data : list byte) (ip : string),
       (length data < DISCOVERY_STRUCT_size)%nat
       \/ discovery_token_bytes data <> bytes_of_string AUTH_KEY
       \/ n_pads <= discovery_pad_num data ->
       pad_data (_handle_discovery st data ip) = pad_data st).
Proof.
  intros H.
  specialize (H RLCU_init (discovery_packet x00 smuggled_token) "10.0.0.7").
  assert (E : ip_address <$>
                (pad_data (_handle_discovery RLCU_init
                   (discovery_packet x00 smuggled_token) "10.0.0.7") !! 0)
              = ip_address <$> (pad_data RLCU_init !! 0)).
  { rewrite H; [reflexivity |]. right. left. vm_compute. discriminate. }
  vm_compute in E. discriminate E.
Qed.

(** C1 (as amended): an accepted discovery datagram binds the sender's
    address to the slot it names, whatever address that slot had before,
    resets its age, and leaves every other slot as it was. *)
Theorem discovery_binds_slot (st : RLCU) (data : list byte) (ip : string)
    (p : Pad) :
  discovery_accepted data = true ->
  pad_data st !! discovery_pad_num data = Some p ->
  pad_data (_handle_discovery st data ip) !! discovery_pad_num data
  = Some (mark_contact ip p)
  /\ ip_address (mark_contact ip p) = ip
  /\ forall j : Z, j <> discovery_pad_num data ->
       pad_data (_handle_discovery st data ip) !! j = pad_data st !! j.
Proof.
  intros Ha Hp. rewrite (handle_discovery_accepted _ _ _ Ha), Hp.
  split; [apply lookup_insert_eq |]. split; [reflexivity |].
  intros j Hj. apply lookup_insert_ne. congruence.
Qed.

Lemma discovery_binds_slot_witness :
  pad_data (_handle_discovery RLCU_init
              (discovery_packet x03 (bytes_of_string AUTH_KEY)) "10.0.0.7")
    !! 3
  = Some (mark_contact "10.0.0.7" Pad_init).
Proof.
  apply (discovery_binds_slot RLCU_init
           (discovery_packet x03 (bytes_of_string AUTH_KEY)) "10.0.0.7"
           Pad_init); reflexivity.
Defined.

(** C1, as the claim words it, fails: the same peer announcing slot 0 and
    then slot 1 leaves both slots bound to its address. *)
Lemma unique_binding_counterexample :
  ~ unique_binding
      (pad_data
         (_udp_loop RLCU_init
            [(discovery_packet x00 (bytes_of_string AUTH_KEY), "10.0.0.7");
             (discovery_packet x01 (bytes_of_string AUTH_KEY), "10.0.0.7")])).
Proof.
  intros H.
  specialize (H 0 1 (mark_contact "10.0.0.7" Pad_init)
                (mark_contact "10.0.0.7" Pad_init)).
  assert (E : 0 = 1); [| discriminate E].
  apply H; [reflexivity | reflexivity | discriminate | reflexivity].
Qed.

(** *** The command path never touches the pad store *)

Lemma send_command_pad_data (st : RLCU) (pad_num : Z) (command : option Z)
    (enable : option bool) (ok : bool) (now : spec_float) :
  pad_data (snd (fst (send_command st pad_num command enable ok now)))
  = pad_data st.
Proof.
  unfold send_command.
  destruct (String.eqb (pad_ip st pad_num) EmptyString); [reflexivity |].
  destruct (_connections st !! pad_ip st pad_num); [| reflexivity].
  destruct (next_mask _ _ _) as [[persist |] mask]; reflexivity.
Qed.

(** *** Staleness *)

Lemma timer_tick_lookup (pads : gmap Z Pad) (i : Z) :
  _timer_tick pads !! i = age_pad <$> pads !! i.
Proof. unfold _timer_tick. apply lookup_fmap. Qed.

Lemma keeps_id : keeps_or_resets id.
Proof. intros p. left. split; reflexivity. Qed.

Lemma resets_mark_contact (ip : string) : keeps_or_resets (mark_contact ip).
Proof. intros p. right. split; reflexivity. Qed.

Lemma resets_telemetry_update (ip : string) (t : telemetry) :
  keeps_or_resets (telemetry_update ip t).
Proof. intros p. right. split; reflexivity. Qed.

Lemma keeps_operator_update (w : operator_write) :
  keeps_or_resets (operator_update w).
Proof. intros p. left. split; reflexivity. Qed.

Create HintDb ages.

#[local] Hint Resolve keeps_id resets_mark_contact resets_telemetry_update
  keeps_operator_update : ages.

Lemma lookup_insert_fmap (pads : gmap Z Pad) (k i : Z) (f : Pad -> Pad)
    (p : Pad) :
  pads !! k = Some p ->
  <[k := f p]> pads !! i
  = (if decide (i = k) then f else id) <$> pads !! i.
Proof.
  intros Hk. destruct (decide (i = k)) as [-> | Hne].
  - rewrite lookup_insert_eq, Hk. reflexivity.
  - rewrite lookup_insert_ne by congruence.
    destruct (pads !! i); reflexivity.
Qed.

Lemma non_tick_lookup (st : RLCU) (op : store_op) (i : Z) :
  op <> OpTick ->
  exists f : Pad -> Pad,
    keeps_or_resets f /\
    pad_data (run_op st op) !! i = f <$> pad_data st !! i.
Proof.
  intros Hop.
  assert (Hid : forall m : gmap Z Pad, m !! i = id <$> m !! i)
    by (intros m; destruct (m !! i); reflexivity).
  destruct op as [data ip | k ip t | k c e ok now | k w |];
    [| | | | congruence]; cbn [run_op].
  - destruct (discovery_accepted data) eqn:Ha.
    + rewrite (handle_discovery_accepted _ _ _ Ha).
      destruct (pad_data st !! discovery_pad_num data) as [q |] eqn:Hq;
        [| exists id; auto with ages].
      eexists. split; [| apply lookup_insert_fmap; exact Hq].
      case_decide; auto with ages.
    + rewrite (handle_discovery_rejected _ _ _ Ha). exists id.
      auto with ages.
  - cbn [with_pad_data pad_data]. unfold _apply_telemetry.
    destruct (pad_data st !! k) as [q |] eqn:Hq;
      [| exists id; auto with ages].
    eexists. split; [| apply lookup_insert_fmap; exact Hq].
    case_decide; auto with ages.
  - rewrite send_command_pad_data. exists id. auto with ages.
  - destruct (pad_data st !! k) as [q |] eqn:Hq;
      [| exists id; auto with ages].
    cbn [with_pad_data pad_data].
    eexists. split; [| apply lookup_insert_fmap; exact Hq].
    case_decide; auto with ages.
Qed.

(** Every writer other than the ticker leaves the age of a slot as it
    was or resets it to a fresh zero. *)
Lemma non_tick_age (st : RLCU) (op : store_op) (i : Z) (p p' : Pad) :
  op <> OpTick ->
  pad_data st !! i = Some p ->
  pad_data (run_op st op) !! i = Some p' ->
  (last_seen p' = last_seen p /\ last_seen_color p' = last_seen_color p)
  \/ (last_seen p' = 0 /\ last_seen_color p' = black).
Proof.
  intros Hop Hp Hp'.
  destruct (non_tick_lookup st op i Hop) as (f & Hf & E).
  rewrite E, Hp in Hp'. injection Hp' as <-. apply Hf.
Qed.

(** C9: a ticker step adds exactly one to the age of every slot and
    recomputes the indicator, which then reads stale iff the new age
    exceeds 30; every other writer of the store leaves an age unchanged or
    resets it, so only the ticker increases it; an accepted discovery
    datagram and an applied telemetry frame reset the age of their slot
    to 0 with the indicator fresh. *)
Theorem staleness_ticker (st : RLCU) (i : Z) (p : Pad) :
  pad_data st !! i = Some p ->
  (exists p',
     pad_data (run_op st OpTick) !! i = Some p' /\
     last_seen p' = last_seen p + 1 /\
     (last_seen_color p' = red <-> 30 < last_seen p') /\
     (last_seen_color p' = black <-> last_seen p' <= 30)) /\
  (forall (op : store_op) (p' : Pad),
     op <> OpTick ->
     pad_data (run_op st op) !! i = Some p' ->
     0 <= last_seen p ->
     last_seen p' <= last_seen p /\
     (last_seen p' <> last_seen p ->
      last_seen p' = 0 /\ last_seen_color p' = black)) /\
  (forall (data : list byte) (ip : string),
     discovery_accepted data = true -> discovery_pad_num data = i ->
     exists p',
       pad_data (run_op st (OpDiscovery data ip)) !! i = Some p' /\
       last_seen p' = 0 /\ last_seen_color p' = black) /\
  (forall (ip : string) (t : telemetry),
     exists p',
       pad_data (run_op st (OpTelemetry i ip t)) !! i = Some p' /\
       last_seen p' = 0 /\ last_seen_color p' = black).
Proof.
  intros Hp. split; [| split; [| split]].
  - exists (age_pad p). cbn [run_op with_pad_data pad_data].
    rewrite timer_tick_lookup, Hp. split; [reflexivity |].
    cbn [age_pad last_seen last_seen_color]. split; [reflexivity |].
    destruct (Z.ltb_spec 30 (last_seen p + 1)); (split; split); intros;
      try reflexivity; try lia; try discriminate.
  - intros op p' Hop Hp' Hage.
    destruct (non_tick_age st op i p p' Hop Hp Hp') as [[E1 E2] | [E1 E2]].
    + split; [lia |]. intros Hne. congruence.
    + split; [lia |]. intros _. split; assumption.
  - intros data ip Ha Hi. exists (mark_contact ip p). cbn [run_op].
    rewrite (handle_discovery_accepted _ _ _ Ha), Hi, Hp.
    rewrite lookup_insert_eq. repeat split.
  - intros ip t. exists (telemetry_update ip t p).
    cbn [run_op with_pad_data pad_data].
    rewrite (apply_telemetry_lookup _ _ _ _ _ Hp). repeat split.
Qed.

Lemma staleness_ticker_witness :
  exists p',
    pad_data (run_op RLCU_init OpTick) !! 0 = Some p' /\
    last_seen p' = last_seen Pad_init + 1.
Proof.
  destruct (staleness_ticker RLCU_init 0 Pad_init eq_refl)
    as [(p' & H1 & H2 & _) _].
  exists p'. split; assumption.
Defined.

(** The indicator turns stale exactly at the 31st silent second. *)
Lemma timer_loop_lookup (n : nat) (pads : gmap Z Pad) (i : Z) (p : Pad) :
  pads !! i = Some p ->
  exists p', _timer_loop n pads !! i = Some p' /\
             last_seen p' = last_seen p + Z.of_nat n /\
             (n <> O ->
              last_seen_color p' = if 30 <? last_seen p' then red else black).
Proof.
  revert pads p. induction n as [| n IH]; intros pads p Hp.
  - exists p. split; [exact Hp |]. split; [simpl; lia | congruence].
  - cbn [_timer_loop].
    assert (Hq : _timer_tick pads !! i = Some (age_pad p))
      by (rewrite timer_tick_lookup, Hp; reflexivity).
    destruct (IH _ _ Hq) as (p' & E & Hage & Hcol).
    exists p'. split; [exact E |]. split.
    + rewrite Hage. cbn [age_pad last_seen]. lia.
    + intros _. destruct n as [| n'].
      * cbn [_timer_loop] in E. rewrite Hq in E. injection E as <-.
        reflexivity.
      * apply Hcol. discriminate.
Qed.

(** Ages never go negative: they start at 0, the ticker adds one, and
    contact resets them to 0. *)
Lemma run_op_ages_nonneg (st : RLCU) (op : store_op) :
  ages_nonneg st -> ages_nonneg (run_op st op).
Proof.
  intros Hst i p' Hp'.
  assert (Hdec : op = OpTick \/ op <> OpTick)
    by (destruct op; (left; reflexivity) || (right; discriminate)).
  destruct Hdec as [-> | Hop].
  - cbn [run_op with_pad_data pad_data] in Hp'.
    rewrite timer_tick_lookup in Hp'.
    destruct (pad_data st !! i) as [p |] eqn:Hp; [| discriminate Hp'].
    injection Hp' as <-. cbn [age_pad last_seen].
    specialize (Hst i p Hp). lia.
  - destruct (non_tick_lookup st op i Hop) as (f & Hf & E).
    rewrite E in Hp'.
    destruct (pad_data st !! i) as [p |] eqn:Hp; [| discriminate Hp'].
    injection Hp' as <-. specialize (Hst i p Hp).
    destruct (Hf p) as [[E1 _] | [E1 _]]; lia.
Qed.

Lemma reachable_ages_nonneg (ops : list store_op) :
  ages_nonneg (run_ops RLCU_init ops).
Proof.
  unfold run_ops.
  assert (H0 : ages_nonneg RLCU_init).
  { intros i p Hp. unfold RLCU_init, pad_data, pad_data_init in Hp.
    apply elem_of_list_to_map_2 in Hp.
    apply list_elem_of_fmap in Hp as (k & [= _ ->] & _). simpl. lia. }
  revert H0. generalize RLCU_init.
  induction ops as [| op ops IH]; intros st Hst; [exact Hst |].
  cbn [foldl]. apply IH, run_op_ages_nonneg, Hst.
Qed.

(** *** The command register *)

Lemma send_command_no_connection (st : RLCU) (pad_num : Z)
    (command : option Z) (enable : option bool) (ok : bool)
    (now : spec_float) :
  live_connection st pad_num = None ->
  send_command st pad_num command enable ok now = (false, st, []).
Proof.
  unfold live_connection, send_command.
  destruct (String.eqb (pad_ip st pad_num) EmptyString); [reflexivity |].
  intros ->. reflexivity.
Qed.

Lemma send_command_connected (st : RLCU) (pad_num : Z) (command : option Z)
    (enable : option bool) (ok : bool) (now : spec_float) (c : sock) :
  live_connection st pad_num = Some c ->
  send_command st pad_num command enable ok now
  = (ok,
     with_command_history
       (persist_mask st pad_num
          (fst (next_mask (stored_mask st pad_num) command enable)))
       (<[pad_num := mkCmd (attempted_mask st pad_num command enable) ok now]>
          (_command_history st)),
     [EvSendall (pad_ip st pad_num)
        (mask_payload (attempted_mask st pad_num command enable)) ok]).
Proof.
  unfold live_connection, send_command, attempted_mask.
  destruct (String.eqb (pad_ip st pad_num) EmptyString); [discriminate |].
  intros ->.
  destruct (next_mask (stored_mask st pad_num) command enable)
    as [[state' |] mask]; reflexivity.
Qed.


Lemma is_mask_land (z : Z) : is_mask z <-> Z.land z 255 = z.
Proof.
  unfold is_mask. change 255 with (Z.ones 8). rewrite Z.land_ones by lia.
  change (2 ^ 8) with 256. split.
  - intros H. apply Z.mod_small. exact H.
  - intros <-. apply Z.mod_pos_bound. lia.
Qed.

Lemma lor_is_mask (a b : Z) : is_mask a -> is_mask b -> is_mask (Z.lor a b).
Proof.
  rewrite !is_mask_land. intros Ha Hb.
  rewrite Z.land_lor_distr_l, Ha, Hb. reflexivity.
Qed.

Lemma land_is_mask (a b : Z) : is_mask a -> is_mask (Z.land a b).
Proof.
  rewrite !is_mask_land. intros Ha.
  rewrite <- Z.land_assoc, (Z.land_comm b 255), Z.land_assoc, Ha.
  reflexivity.
Qed.

Lemma mask_payload_byte (m : Z) :
  is_mask m -> byte_val <$> mask_payload m = [m].
Proof.
  intros Hm. unfold mask_payload. cbn [fmap list_fmap].
  rewrite byte_val_of. f_equal.
  apply is_mask_land in Hm as Hl. rewrite Hl.
  apply Z.mod_small. exact Hm.
Qed.

(** Commands that fit the command byte keep the register a byte. *)
Lemma next_mask_is_mask (state : Z) (command : option Z)
    (enable : option bool) :
  is_mask state -> is_mask (command_value command) ->
  is_mask (snd (next_mask state command enable)) /\
  forall s', fst (next_mask state command enable) = Some s' -> is_mask s'.
Proof.
  intros Hs Hc. unfold next_mask.
  destruct enable as [[|] |]; cbn [fst snd]; destruct (truthy command).
  all: split; [| intros s' [= <-]]; auto using lor_is_mask, land_is_mask.
  all: try discriminate.
  all: apply lor_is_mask; auto. all: unfold is_mask; lia.
Qed.

Lemma stored_mask_persist (st : RLCU) (pad_num : Z) (persist : option Z)
    (h : gmap Z cmd_entry) :
  stored_mask (with_command_history (persist_mask st pad_num persist) h)
    pad_num
  = default (stored_mask st pad_num) persist.
Proof.
  unfold stored_mask, persist_mask. destruct persist as [s' |]; simpl.
  - rewrite lookup_insert_eq. reflexivity.
  - reflexivity.
Qed.

Lemma stored_mask_persist_other (st : RLCU) (pad_num k : Z)
    (persist : option Z) (h : gmap Z cmd_entry) :
  k <> pad_num ->
  stored_mask (with_command_history (persist_mask st pad_num persist) h) k
  = stored_mask st k.
Proof.
  intros Hk. unfold stored_mask, persist_mask.
  destruct persist as [s' |]; simpl; [| reflexivity].
  rewrite lookup_insert_ne by congruence. reflexivity.
Qed.

(** C2 (as amended): a call that finds no address or no live connection
    returns False and leaves the command register untouched, nothing is
    recorded and nothing is sent; a call whose byte write fails returns
    False, records the attempted mask with the failure and the timestamp
    in the command history, and -- when [enable] is True or False -- has
    stored the attempted mask as the persistent state, which is what the
    next re-sync sends. *)
Theorem send_command_failure (st : RLCU) (pad_num : Z) (command : option Z)
    (enable : option bool) (ok : bool) (now : spec_float) :
  live_connection st pad_num = None \/ ok = false ->
  fst (fst (send_command st pad_num command enable ok now)) = false /\
  (live_connection st pad_num = None ->
   send_command st pad_num command enable ok now = (false, st, [])) /\
  (forall c : sock,
     live_connection st pad_num = Some c ->
     let st' := snd (fst (send_command st pad_num command enable ok now)) in
     _command_history st' !! pad_num
     = Some (mkCmd (attempted_mask st pad_num command enable) false now) /\
     (enable <> None ->
      stored_mask st' pad_num = attempted_mask st pad_num command enable /\
      forall (ok' : bool) (t : spec_float) (ip : string),
        snd (resync st' pad_num ip ok' t)
        = [EvSendall ip
             (mask_payload (attempted_mask st pad_num command enable)) ok']) /\
     (enable = None -> stored_mask st' pad_num = stored_mask st pad_num)).
Proof.
  intros H. destruct (live_connection st pad_num) as [c |] eqn:Hl.
  - destruct H as [H | ->]; [discriminate H |].
    rewrite (send_command_connected _ _ _ _ _ _ c Hl). cbn [fst snd].
    split; [reflexivity |]. split; [discriminate |].
    intros c' _. split; [apply lookup_insert_eq |].
    rewrite stored_mask_persist. unfold attempted_mask. split.
    + intros He. destruct enable as [[|] |]; [| | congruence];
        cbn [next_mask fst snd default]; (split; [reflexivity |]);
        intros ok' t ip; unfold resync; cbn [snd];
        rewrite stored_mask_persist; reflexivity.
    + intros ->. reflexivity.
  - rewrite (send_command_no_connection _ _ _ _ _ _ Hl).
    split; [reflexivity |]. split; [reflexivity |]. intros c [=].
Qed.

Lemma send_command_failure_witness :
  fst (fst (send_command st_connected 0 (Some CMD_LED) (Some true) false
              (S754_zero false))) = false.
Proof.
  apply (send_command_failure st_connected 0 (Some CMD_LED) (Some true)
           false (S754_zero false)).
  right. reflexivity.
Defined.

(** C2, as the claim words it, fails: with an address but no live
    connection the call returns False and the register records nothing of
    the attempted mask, neither as stored state nor in the history. *)
Lemma send_command_unrecorded_counterexample :
  ~ (forall (st : RLCU) (pad_num : Z) (command : option Z)
            (enable : option bool) (ok : bool) (now : spec_float),
       live_connection st pad_num = None \/ ok = false ->
       let st' := snd (fst (send_command st pad_num command enable ok now)) in
       fst (fst (send_command st pad_num command enable ok now)) = false /\
       (stored_mask st' pad_num = attempted_mask st pad_num command enable
        \/ history_mask st' pad_num
           = Some (attempted_mask st pad_num command enable))).
Proof.
  intros H.
  destruct (H st_bound 0 (Some CMD_LED) (Some true) true (S754_zero false))
    as [_ [E | E]].
  - left. reflexivity.
  - vm_compute in E. discriminate E.
  - vm_compute in E. discriminate E.
Qed.

Lemma live_connection_no_ip (st : RLCU) (pad_num : Z) :
  pad_ip st pad_num = EmptyString -> live_connection st pad_num = None.
Proof. unfold live_connection. intros ->. reflexivity. Qed.

(** C4: for a slot without an address [send_command] returns False and
    leaves the register (indeed the whole state) unchanged; a momentary
    call ([enable=None]) on a connected slot hands exactly one byte to the
    transport, the stored mask OR the bit (its low eight bits, which are
    all of it for a mask and a bit of the command byte), and the stored
    mask of every slot is afterwards what it was before. *)
Theorem send_command_momentary (st : RLCU) (pad_num : Z) :
  (forall (command : option Z) (enable : option bool) (ok : bool)
          (now : spec_float),
     pad_ip st pad_num = EmptyString ->
     send_command st pad_num command enable ok now = (false, st, [])) /\
  (forall (bit : Z) (ok : bool) (now : spec_float) (c : sock),
     live_connection st pad_num = Some c ->
     exists st' : RLCU,
       send_command st pad_num (Some bit) None ok now
       = (ok, st',
          [EvSendall (pad_ip st pad_num)
             (mask_payload (Z.lor (stored_mask st pad_num) bit)) ok]) /\
       (is_mask (stored_mask st pad_num) -> is_mask bit ->
        byte_val <$> mask_payload (Z.lor (stored_mask st pad_num) bit)
        = [Z.lor (stored_mask st pad_num) bit]) /\
       _command_state st' = _command_state st /\
       forall k : Z, stored_mask st' k = stored_mask st k).
Proof.
  split.
  - intros command enable ok now Hip.
    apply send_command_no_connection, live_connection_no_ip, Hip.
  - intros bit ok now c Hl.
    rewrite (send_command_connected _ _ _ _ _ _ c Hl).
    assert (E : attempted_mask st pad_num (Some bit) None
                = Z.lor (stored_mask st pad_num) bit).
    { unfold attempted_mask. cbn [next_mask snd truthy command_value].
      destruct (Z.eqb_spec bit 0) as [-> | _]; reflexivity. }
    rewrite E. eexists. split; [reflexivity |].
    split; [| split; reflexivity].
    intros Hs Hb. apply mask_payload_byte, lor_is_mask; assumption.
Qed.

Lemma send_command_momentary_witness :
  send_command RLCU_init 0 (Some CMD_LAUNCH) None true (S754_zero false)
  = (false, RLCU_init, [])
  /\ exists st' : RLCU,
       send_command st_connected 0 (Some CMD_LAUNCH) None true
         (S754_zero false)
       = (true, st',
          [EvSendall (pad_ip st_connected 0)
             (mask_payload (Z.lor (stored_mask st_connected 0) CMD_LAUNCH))
             true]).
Proof.
  split.
  - apply (proj1 (send_command_momentary RLCU_init 0)). reflexivity.
  - destruct (proj2 (send_command_momentary st_connected 0) CMD_LAUNCH true
                (S754_zero false) 5%nat eq_refl) as (st' & H & _).
    exists st'. exact H.
Defined.

(** C10: on a connected slot a call with a falsy command (0 or None)
    leaves the stored mask unchanged for every value of [enable], hands
    exactly one byte to the transport, the current stored mask, records
    that mask with the outcome and the timestamp in the command history,
    and returns whether the write succeeded. *)
Theorem send_command_no_bit (st : RLCU) (pad_num : Z) (command : option Z)
    (enable : option bool) (ok : bool) (now : spec_float) (c : sock) :
  live_connection st pad_num = Some c ->
  truthy command = false ->
  exists st' : RLCU,
    send_command st pad_num command enable ok now
    = (ok, st',
       [EvSendall (pad_ip st pad_num)
          (mask_payload (stored_mask st pad_num)) ok]) /\
    (forall k : Z, stored_mask st' k = stored_mask st k) /\
    _command_history st' !! pad_num
    = Some (mkCmd (stored_mask st pad_num) ok now) /\
    (is_mask (stored_mask st pad_num) ->
     byte_val <$> mask_payload (stored_mask st pad_num)
     = [stored_mask st pad_num]).
Proof.
  intros Hl Hc. rewrite (send_command_connected _ _ _ _ _ _ c Hl).
  assert (Ha : attempted_mask st pad_num command enable
               = stored_mask st pad_num).
  { unfold attempted_mask, next_mask. rewrite Hc.
    destruct enable as [[|] |]; cbn [snd]; try reflexivity.
    apply Z.lor_0_r. }
  assert (Hp : default (stored_mask st pad_num)
                 (fst (next_mask (stored_mask st pad_num) command enable))
               = stored_mask st pad_num).
  { unfold next_mask. rewrite Hc. destruct enable as [[|] |]; reflexivity. }
  rewrite Ha. eexists. split; [reflexivity |].
  split; [| split; [apply lookup_insert_eq | apply mask_payload_byte]].
  intros k. destruct (decide (k = pad_num)) as [-> | Hk].
  - rewrite stored_mask_persist. exact Hp.
  - apply stored_mask_persist_other. exact Hk.
Qed.

Lemma send_command_no_bit_witness :
  exists st' : RLCU,
    send_command st_connected 0 (Some 0) (Some true) true (S754_zero false)
    = (true, st',
       [EvSendall (pad_ip st_connected 0)
          (mask_payload (stored_mask st_connected 0)) true]).
Proof.
  destruct (send_command_no_bit st_connected 0 (Some 0) (Some true) true
              (S754_zero false) 5%nat eq_refl eq_refl) as (st' & H & _).
  exists st'. exact H.
Defined.

(** From the initial register, commands that fit the command byte keep
    every stored mask a byte (so the transmitted byte is the mask). *)
Lemma run_op_is_mask (st : RLCU) (op : store_op) :
  (forall k, is_mask (stored_mask st k)) ->
  byte_command op ->
  forall k, is_mask (stored_mask (run_op st op) k).
Proof.
  intros Hst Hop k.
  destruct op as [data ip | pn ip t | pn command enable ok now | pn w |];
    cbn [run_op].
  - unfold stored_mask, _handle_discovery.
    destruct (length data <? DISCOVERY_STRUCT_size)%nat; [apply Hst |].
    destruct (negb _); [apply Hst |].
    destruct (n_pads <=? _); [apply Hst |].
    rewrite ensure_connection_command_state. apply Hst.
  - apply Hst.
  - destruct (live_connection st pn) as [c |] eqn:Hl.
    + rewrite (send_command_connected _ _ _ _ _ _ c Hl). cbn [fst snd].
      destruct (next_mask_is_mask (stored_mask st pn) command enable
                  (Hst pn) Hop) as [_ Hp].
      destruct (decide (k = pn)) as [-> | Hk].
      * rewrite stored_mask_persist.
        destruct (fst (next_mask _ _ _)) as [s' |] eqn:E; cbn [default];
          [apply Hp; reflexivity | apply Hst].
      * rewrite stored_mask_persist_other by exact Hk. apply Hst.
    + rewrite (send_command_no_connection _ _ _ _ _ _ Hl). apply Hst.
  - destruct (pad_data st !! pn); apply Hst.
  - apply Hst.
Qed.

Lemma reachable_is_mask (ops : list store_op) :
  Forall byte_command ops ->
  forall k, is_mask (stored_mask (run_ops RLCU_init ops) k).
Proof.
  unfold run_ops.
  assert (H0 : forall k, is_mask (stored_mask RLCU_init k)).
  { intros k. unfold stored_mask, RLCU_init, _command_state.
    destruct (command_state_init !! k) as [m |] eqn:E; cbn [default];
      [| unfold is_mask; lia].
    apply elem_of_list_to_map_2 in E.
    apply list_elem_of_fmap in E as (j & [= _ ->] & _).
    unfold is_mask, id. lia. }
  revert H0. generalize RLCU_init.
  induction ops as [| op ops IH]; intros st Hst Hops; [exact Hst |].
  inversion Hops as [| ? ? Hop Hrest]; subst.
  cbn [foldl]. apply IH; [| exact Hrest].
  apply run_op_is_mask; assumption.
Qed.

(** *** The inner drain loop *)

Section Drain.
Variables (pad_num : Z) (ip : string).

Lemma drain_short (fuel : nat) (pads : gmap Z Pad) (buffer : list byte) :
  (length buffer < TELEMETRY_STRUCT_size)%nat ->
  drain fuel pad_num ip pads buffer = Drained pads buffer [].
Proof.
  intros H. apply Nat.ltb_lt in H.
  destruct fuel; simpl; rewrite H; reflexivity.
Qed.

Lemma drain_frame (fuel : nat) (pads : gmap Z Pad) (frame rest : list byte)
    (t : telemetry) :
  _parse_telemetry frame = Some t ->
  drain (S fuel) pad_num ip pads (frame ++ rest)
  = drained_cons t
      (drain fuel pad_num ip (_apply_telemetry pads pad_num ip t) rest).
Proof.
  intros Hp. pose proof (parse_Some_length _ _ Hp) as Hl.
  cbn [drain].
  replace (length (frame ++ rest) <? TELEMETRY_STRUCT_size)%nat with false
    by (symmetry; apply Nat.ltb_ge; rewrite length_app; lia).
  rewrite take_app_length' by (symmetry; exact Hl).
  rewrite drop_app_length' by (symmetry; exact Hl).
  rewrite Hp. reflexivity.
Qed.

(** With the buffer length as fuel the loop always runs to its end, and
    more fuel changes nothing. *)
Lemma drain_total (fuel : nat) (pads : gmap Z Pad) (buffer : list byte) :
  (length buffer <= fuel)%nat ->
  exists pads' b applied,
    drain fuel pad_num ip pads buffer = Drained pads' b applied
    /\ (length b < TELEMETRY_STRUCT_size)%nat
    /\ drain (length buffer) pad_num ip pads buffer
       = Drained pads' b applied.
Proof.
  revert pads buffer.
  induction fuel as [fuel IH] using lt_wf_ind. intros pads buffer Hf.
  destruct (Nat.ltb_spec (length buffer) TELEMETRY_STRUCT_size) as [Hs | Hs].
  - exists pads, buffer, []. rewrite !drain_short by exact Hs. auto.
  - pose (frame := take TELEMETRY_STRUCT_size buffer).
    pose (rest := drop TELEMETRY_STRUCT_size buffer).
    assert (Hbuf : buffer = frame ++ rest)
      by (symmetry; apply take_drop).
    assert (Hl : length frame = TELEMETRY_STRUCT_size)
      by (subst frame; rewrite length_take; lia).
    destruct (parse_frame_length frame Hl) as [t Ht].
    clearbody frame rest. subst buffer.
    rewrite length_app, Hl in *. unfold TELEMETRY_STRUCT_size in Hf.
    destruct fuel as [| fuel]; [lia |].
    replace (TELEMETRY_STRUCT_size + length rest)%nat
      with (S (11 + length rest)) by (unfold TELEMETRY_STRUCT_size; lia).
    rewrite !(drain_frame _ _ _ _ _ Ht).
    destruct (IH fuel (Nat.lt_succ_diag_r _)
                (_apply_telemetry pads pad_num ip t) rest)
      as (pads' & b & applied & E1 & Hb & E2); [lia |].
    destruct (IH (11 + length rest)%nat ltac:(lia)
                (_apply_telemetry pads pad_num ip t) rest)
      as (pads2 & b2 & applied2 & E3 & _ & E4); [lia |].
    exists pads', b, (t :: applied).
    rewrite E1, E3. rewrite E2 in E4. injection E4 as <- <- <-.
    auto.
Qed.

Lemma drain_fuel (fuel : nat) (pads : gmap Z Pad) (buffer : list byte) :
  (length buffer <= fuel)%nat ->
  drain fuel pad_num ip pads buffer
  = drain (length buffer) pad_num ip pads buffer.
Proof.
  intros H. destruct (drain_total fuel pads buffer H)
    as (pads' & b & applied & E1 & _ & E2).
  congruence.
Qed.

(** Draining a buffer that holds whole frames, and the beginning of
    another, applies each whole frame in order and keeps the rest. *)
Lemma drain_frames (frames : list (list byte)) (ts : list telemetry) :
  Forall2 (fun f t => _parse_telemetry f = Some t) frames ts ->
  forall (pads : gmap Z Pad) (tail : list byte),
    (length tail < TELEMETRY_STRUCT_size)%nat ->
    drain (length (concat frames ++ tail)) pad_num ip pads
      (concat frames ++ tail)
    = Drained (apply_all pads pad_num ip ts) tail ts.
Proof.
  induction 1 as [| f t frames ts Hf _ IH]; intros pads tail Ht.
  - cbn [concat app apply_all foldl]. apply drain_short. exact Ht.
  - pose proof (parse_Some_length _ _ Hf) as Hl.
    cbn [concat]. rewrite <- app_assoc, length_app, Hl.
    change (TELEMETRY_STRUCT_size + length (concat frames ++ tail))%nat
      with (S (11 + length (concat frames ++ tail))).
    rewrite (drain_frame _ _ _ _ _ Hf), drain_fuel by lia.
    rewrite IH by exact Ht. reflexivity.
Qed.

Lemma drain_two_frames (pads : gmap Z Pad) (f1 f2 : list byte)
    (t1 t2 : telemetry) :
  _parse_telemetry f1 = Some t1 -> _parse_telemetry f2 = Some t2 ->
  drain (length (f1 ++ f2)) pad_num ip pads (f1 ++ f2)
  = Drained (apply_all pads pad_num ip [t1; t2]) [] [t1; t2].
Proof.
  intros H1 H2.
  pose proof (drain_frames [f1; f2] [t1; t2]
                ltac:(repeat constructor; assumption) pads []
                ltac:(unfold TELEMETRY_STRUCT_size; simpl; lia)) as H.
  cbn [concat] in H. rewrite !app_nil_r in H. exact H.
Qed.
End Drain.

(** *** The telemetry loop *)

Lemma delivering_inv (s : loop_step) :
  delivering s = true ->
  ls_running s = true /\ (exists k, ls_net s = Readable (S k)) /\
  timed_out (ls_t_data s) (ls_t_check s) = false.
Proof.
  unfold delivering. intros H.
  apply andb_true_iff in H as [H H3]. apply andb_true_iff in H as [H1 H2].
  split; [exact H1 |]. split.
  - destruct (ls_net s) as [[| k] | |]; try discriminate. eauto.
  - apply negb_true_iff. exact H3.
Qed.

Lemma loop_cons_nil (r : loop_result) : loop_cons [] r = r.
Proof. destruct r. reflexivity. Qed.

Section Loop.
Variables (pad_num : Z) (ip : string).

(** Bytes that arrive in pieces are decoded exactly as if the whole
    stream had been drained at once. *)
Lemma telemetry_iter_delivers (script : list loop_step) :
  forall (pads : gmap Z Pad) (buffer : list byte) (last : spec_float)
         (stream : list byte) (pads' : gmap Z Pad) (rest : list byte)
         (ts : list telemetry),
    (length buffer < TELEMETRY_STRUCT_size)%nat ->
    forallb delivering script = true ->
    (length stream <= length script)%nat ->
    drain (length (buffer ++ stream)) pad_num ip pads (buffer ++ stream)
    = Drained pads' rest ts ->
    lr_pads (telemetry_iter script pad_num ip pads buffer last stream)
    = pads'
    /\ lr_applied (telemetry_iter script pad_num ip pads buffer last stream)
       = ts.
Proof.
  induction script as [| s script IH];
    intros pads buffer last stream pads' rest ts Hb Hd Hlen Hdr.
  - destruct stream; [| simpl in Hlen; lia].
    rewrite app_nil_r, drain_short in Hdr by exact Hb.
    injection Hdr as <- <- <-. split; reflexivity.
  - cbn [forallb] in Hd. apply andb_true_iff in Hd as [Hs Hd].
    destruct (delivering_inv s Hs) as (Hrun & [k Hnet] & Hto).
    cbn [telemetry_iter]. rewrite Hrun, Hnet. cbn [negb recv].
    set (n := Nat.min (TELEMETRY_STRUCT_size - length buffer) (S k)).
    assert (Hn : (1 <= n <= TELEMETRY_STRUCT_size - length buffer)%nat)
      by (subst n; lia).
    destruct stream as [| b stream].
    + rewrite take_nil.
      rewrite app_nil_r, drain_short in Hdr by exact Hb.
      injection Hdr as <- <- <-. split; reflexivity.
    + destruct (take n (b :: stream)) as [| c chunk] eqn:Hchunk.
      { destruct n; [lia | discriminate Hchunk]. }
      rewrite <- Hchunk. clear c chunk Hchunk.
      set (chunk := take n (b :: stream)).
      set (stream' := drop n (b :: stream)).
      assert (Hsplit : b :: stream = chunk ++ stream')
        by (symmetry; apply take_drop).
      assert (Hcl : length chunk = Nat.min n (length (b :: stream)))
        by (subst chunk; apply length_take).
      assert (Hsl : (length stream' <= length script)%nat).
      { subst stream'. rewrite length_drop. simpl in *. lia. }
      rewrite Hsplit, app_assoc in Hdr.
      destruct (Nat.ltb_spec (length (buffer ++ chunk))
                  TELEMETRY_STRUCT_size) as [Hshort | Hfull].
      * rewrite (drain_short _ _ _ _ _ Hshort). rewrite Hto.
        rewrite loop_cons_nil.
        apply (IH pads (buffer ++ chunk) (ls_t_data s) stream' pads' rest ts
                 Hshort Hd Hsl Hdr).
      * assert (Hl12 : length (buffer ++ chunk) = TELEMETRY_STRUCT_size)
          by (rewrite length_app in *; lia).
        destruct (parse_frame_length _ Hl12) as [t Ht].
        rewrite Hl12.
        assert (E1 : drain TELEMETRY_STRUCT_size pad_num ip pads
                       (buffer ++ chunk)
                     = Drained (_apply_telemetry pads pad_num ip t) [] [t]).
        { rewrite <- (app_nil_r (buffer ++ chunk)).
          change TELEMETRY_STRUCT_size with (S 11).
          rewrite (drain_frame _ _ _ _ _ _ _ Ht).
          rewrite drain_short by (unfold TELEMETRY_STRUCT_size; simpl; lia).
          reflexivity. }
        rewrite E1, Hto.
        rewrite length_app, Hl12 in Hdr.
        change (TELEMETRY_STRUCT_size + length stream')%nat
          with (S (11 + length stream')) in Hdr.
        rewrite (drain_frame _ _ _ _ _ _ _ Ht) in Hdr.
        rewrite drain_fuel in Hdr by lia.
        destruct (drain (length stream') pad_num ip
                    (_apply_telemetry pads pad_num ip t) stream')
          as [pads2 rest2 ts2 | |] eqn:E2; try discriminate Hdr.
        cbn [drained_cons] in Hdr. injection Hdr as <- <- <-.
        destruct (IH (_apply_telemetry pads pad_num ip t) []
                    (ls_t_data s) stream' pads2 rest2 ts2) as [R1 R2].
        -- unfold TELEMETRY_STRUCT_size. simpl. lia.
        -- exact Hd.
        -- exact Hsl.
        -- exact E2.
        -- cbn [loop_cons lr_pads lr_applied]. rewrite R1, R2.
           split; reflexivity.
Qed.
(** Any number of back-to-back frames is applied in arrival order. *)
Lemma telemetry_loop_frames (script : list loop_step)
    (frames : list (list byte)) (ts : list telemetry)
    (pads : gmap Z Pad) (t0 : spec_float) :
  Forall2 (fun f t => _parse_telemetry f = Some t) frames ts ->
  forallb delivering script = true ->
  (length (concat frames) <= length script)%nat ->
  lr_applied (_telemetry_loop script pad_num ip pads t0 (concat frames))
  = ts
  /\ lr_pads (_telemetry_loop script pad_num ip pads t0 (concat frames))
     = apply_all pads pad_num ip ts.
Proof.
  intros Hf Hd Hlen.
  pose proof (drain_frames pad_num ip frames ts Hf pads []
                ltac:(unfold TELEMETRY_STRUCT_size; simpl; lia)) as Hdr.
  rewrite app_nil_r in Hdr.
  destruct (telemetry_iter_delivers script pads [] t0 (concat frames)
              _ _ _ ltac:(unfold TELEMETRY_STRUCT_size; simpl; lia)
              Hd Hlen Hdr) as [R1 R2].
  unfold _telemetry_loop. rewrite R1, R2. split; reflexivity.
Qed.
End Loop.

(** A read never makes the buffer longer than one frame: [recv] is asked
    for the bytes the current frame still lacks. *)
Lemma recv_fills_one_frame (k : nat) (buffer stream chunk rest : list byte) :
  (length buffer < TELEMETRY_STRUCT_size)%nat ->
  recv (Readable k) (TELEMETRY_STRUCT_size - length buffer) stream
  = RecvChunk chunk rest ->
  (length (buffer ++ chunk) <= TELEMETRY_STRUCT_size)%nat
  /\ chunk ++ rest = stream.
Proof.
  intros Hb [= <- <-]. rewrite length_app, length_take, take_drop.
  split; [lia | reflexivity].
Qed.

(** What the dequeuing loop returns: the buffer was a sequence of whole
    frames followed by the incomplete rest, and the updates are the
    decodings of those frames, in order. *)
Lemma drain_decompose (pad_num : Z) (ip : string) (fuel : nat) :
  forall (pads : gmap Z Pad) (buffer : list byte) (pads' : gmap Z Pad)
         (b : list byte) (ts : list telemetry),
    drain fuel pad_num ip pads buffer = Drained pads' b ts ->
    exists frames : list (list byte),
      buffer = concat frames ++ b
      /\ Forall2 (fun f t => _parse_telemetry f = Some t) frames ts
      /\ (length b < TELEMETRY_STRUCT_size)%nat
      /\ pads' = apply_all pads pad_num ip ts.
Proof.
  induction fuel as [| fuel IH]; intros pads buffer pads' b ts; cbn [drain].
  - destruct (Nat.ltb_spec (length buffer) TELEMETRY_STRUCT_size) as [Hs | Hs];
      [| discriminate].
    intros [= <- <- <-]. exists []. repeat split; [constructor | exact Hs].
  - destruct (Nat.ltb_spec (length buffer) TELEMETRY_STRUCT_size) as [Hs | Hs].
    { intros [= <- <- <-]. exists []. repeat split; [constructor | exact Hs]. }
    destruct (_parse_telemetry (take TELEMETRY_STRUCT_size buffer))
      as [t |] eqn:Hp; [| discriminate].
    destruct (drain fuel _ _ _ _) as [q b' ts' | |] eqn:E;
      cbn [drained_cons]; try discriminate.
    intros [= <- <- <-].
    destruct (IH _ _ _ _ _ E) as (frames & Hb & Hf & Hl & Hq).
    exists (take TELEMETRY_STRUCT_size buffer :: frames).
    split; [| split; [| split]].
    + cbn [concat]. rewrite <- app_assoc, <- Hb, take_drop. reflexivity.
    + constructor; assumption.
    + exact Hl.
    + exact Hq.
Qed.

Section Reads.
Variables (pad_num : Z) (ip : string).

(** Whatever the network and the clock do, the stream splits into the
    bytes the loop has read and the bytes it has not; the updates
    applied are those of the whole frames among the bytes read, and
    no iteration applies more than one. *)
Lemma telemetry_iter_reads (script : list loop_step) :
  forall (pads : gmap Z Pad) (buffer : list byte) (last : spec_float)
         (stream : list byte),
    (length buffer < TELEMETRY_STRUCT_size)%nat ->
    exists (read b : list byte),
      stream
      = read
        ++ lr_unread
             (telemetry_iter script pad_num ip pads buffer last stream)
      /\ drain (length (buffer ++ read)) pad_num ip pads (buffer ++ read)
         = Drained
             (lr_pads
                (telemetry_iter script pad_num ip pads buffer last stream))
             b
             (lr_applied
                (telemetry_iter script pad_num ip pads buffer last stream))
      /\ (length
            (lr_applied
               (telemetry_iter script pad_num ip pads buffer last stream))
          <= length script)%nat.
Proof.
  induction script as [| s script IH]; intros pads buffer last stream Hb.
  - exists [], buffer. cbn [telemetry_iter lr_unread lr_pads lr_applied].
    rewrite app_nil_r. split; [reflexivity |].
    split; [apply drain_short; exact Hb | apply Nat.le_refl].
  - assert (Hnone : forall e : loop_exit,
              exists (read b : list byte),
                stream = read ++ lr_unread (mkLoop pads [] e stream)
                /\ drain (length (buffer ++ read)) pad_num ip pads
                     (buffer ++ read)
                   = Drained (lr_pads (mkLoop pads [] e stream)) b
                       (lr_applied (mkLoop pads [] e stream))
                /\ (length (lr_applied (mkLoop pads [] e stream))
                    <= length (s :: script))%nat).
    { intros e. exists [], buffer. cbn [lr_unread lr_pads lr_applied].
      rewrite app_nil_r. split; [reflexivity |].
      split; [apply drain_short; exact Hb | cbn; lia]. }
    cbn [telemetry_iter].
    destruct (negb (ls_running s)); [apply Hnone |].
    destruct (ls_net s) as [k | |]; cbn [recv]; [| | apply Hnone].
    + set (m := Nat.min (TELEMETRY_STRUCT_size - length buffer) k).
      destruct (take m stream) as [| c chunk] eqn:Hchunk.
      { exists [], buffer. cbn [lr_unread lr_pads lr_applied].
        rewrite app_nil_r. split.
        - rewrite <- (take_drop m stream) at 1. rewrite Hchunk. reflexivity.
        - split; [apply drain_short; exact Hb | cbn; lia]. }
      rewrite <- Hchunk.
      assert (Hm : (length (buffer ++ take m stream)
                    <= TELEMETRY_STRUCT_size)%nat)
        by (rewrite length_app, length_take; subst m; lia).
      destruct (Nat.ltb_spec (length (buffer ++ take m stream))
                  TELEMETRY_STRUCT_size) as [Hshort | Hfull].
      * rewrite (drain_short _ _ _ _ _ Hshort).
        destruct (timed_out _ _).
        -- exists (take m stream), (buffer ++ take m stream).
           cbn [lr_unread lr_pads lr_applied].
           split; [symmetry; apply take_drop |].
           split; [apply drain_short; exact Hshort | cbn; lia].
        -- rewrite loop_cons_nil.
           destruct (IH pads (buffer ++ take m stream) (ls_t_data s)
                       (drop m stream) Hshort) as (read & b & Es & Ed & El).
           exists (take m stream ++ read), b.
           split; [| split].
           ++ rewrite <- app_assoc, <- Es. symmetry. apply take_drop.
           ++ rewrite app_assoc. exact Ed.
           ++ cbn [length]. lia.
      * assert (Hl12 : length (buffer ++ take m stream)
                       = TELEMETRY_STRUCT_size) by lia.
        destruct (parse_frame_length _ Hl12) as [t Ht].
        assert (E1 : drain (length (buffer ++ take m stream)) pad_num ip
                       pads (buffer ++ take m stream)
                     = Drained (_apply_telemetry pads pad_num ip t) [] [t]).
        { rewrite Hl12. rewrite <- (app_nil_r (buffer ++ take m stream)).
          change TELEMETRY_STRUCT_size with (S 11).
          rewrite (drain_frame _ _ _ _ _ _ _ Ht).
          rewrite drain_short by (unfold TELEMETRY_STRUCT_size; simpl; lia).
          reflexivity. }
        rewrite E1. destruct (timed_out _ _).
        -- exists (take m stream), []. cbn [lr_unread lr_pads lr_applied].
           split; [symmetry; apply take_drop |].
           split; [exact E1 | cbn; lia].
        -- destruct (IH (_apply_telemetry pads pad_num ip t) []
                       (ls_t_data s) (drop m stream)
                       ltac:(unfold TELEMETRY_STRUCT_size; simpl; lia))
             as (read & b & Es & Ed & El).
           exists (take m stream ++ read), b.
           cbn [loop_cons lr_unread lr_pads lr_applied].
           split; [| split].
           ++ rewrite <- app_assoc, <- Es. symmetry. apply take_drop.
           ++ rewrite app_assoc, length_app, Hl12.
              change (TELEMETRY_STRUCT_size + length read)%nat
                with (S (11 + length read)).
              rewrite (drain_frame _ _ _ _ _ _ _ Ht).
              rewrite drain_fuel by lia.
              cbn [app] in Ed. rewrite Ed. reflexivity.
           ++ cbn [app length]. lia.
    + destruct (timed_out _ _); [apply Hnone |].
      destruct (IH pads buffer last stream Hb) as (read & b & Es & Ed & El).
      exists read, b. split; [exact Es |]. split; [exact Ed | cbn; lia].
Qed.

Lemma telemetry_loop_reads (script : list loop_step) (pads : gmap Z Pad)
    (t0 : spec_float) (stream : list byte) :
  exists (read b : list byte),
    stream
    = read ++ lr_unread (_telemetry_loop script pad_num ip pads t0 stream)
    /\ drain (length read) pad_num ip pads read
       = Drained (lr_pads (_telemetry_loop script pad_num ip pads t0 stream))
           b
           (lr_applied (_telemetry_loop script pad_num ip pads t0 stream))
    /\ (length
          (lr_applied (_telemetry_loop script pad_num ip pads t0 stream))
        <= length script)%nat.
Proof.
  unfold _telemetry_loop.
  destruct (telemetry_iter_reads script pads [] t0 stream
              ltac:(unfold TELEMETRY_STRUCT_size; simpl; lia))
    as (read & b & Es & Ed & El).
  exists read, b. cbn [app] in Ed. auto.
Qed.

(** The prefixes of a stream of two frames, by their length. *)
Lemma drain_two_frames_prefix (pads : gmap Z Pad)
    (f1 f2 read unread : list byte) (t1 t2 : telemetry) :
  _parse_telemetry f1 = Some t1 -> _parse_telemetry f2 = Some t2 ->
  f1 ++ f2 = read ++ unread ->
  exists b : list byte,
    drain (length read) pad_num ip pads read
    = Drained
        (apply_all pads pad_num ip
           (if (length read <? 12)%nat then []
            else if (length read <? 24)%nat then [t1] else [t1; t2]))
        b
        (if (length read <? 12)%nat then []
         else if (length read <? 24)%nat then [t1] else [t1; t2]).
Proof.
  intros H1 H2 Hs.
  pose proof (parse_Some_length _ _ H1) as L1.
  pose proof (parse_Some_length _ _ H2) as L2.
  unfold TELEMETRY_STRUCT_size in L1, L2.
  assert (Hlen : (length read + length unread = 24)%nat).
  { apply (f_equal length) in Hs. rewrite !length_app in Hs. lia. }
  assert (Hr : read = take (length read) (f1 ++ f2))
    by (rewrite Hs, take_app_length; reflexivity).
  destruct (Nat.ltb_spec (length read) 12) as [Ha | Ha].
  - exists read. apply drain_short. exact Ha.
  - destruct (Nat.ltb_spec (length read) 24) as [Hb | Hb].
    + exists (take (length read - 12) f2).
      assert (E : read = concat [f1] ++ take (length read - 12) f2).
      { cbn [concat]. rewrite app_nil_r. rewrite Hr at 1.
        rewrite take_app, L1. rewrite take_ge by lia. reflexivity. }
      rewrite E at 1 2.
      apply (drain_frames pad_num ip [f1] [t1]).
      * constructor; [exact H1 | constructor].
      * rewrite length_take. unfold TELEMETRY_STRUCT_size. lia.
    + exists [].
      assert (E : read = f1 ++ f2).
      { rewrite Hr. apply take_ge. rewrite length_app. lia. }
      rewrite E. apply drain_two_frames; assumption.
Qed.
End Reads.




(** *** The connection worker *)

Lemma loop_cons_exit (ts : list telemetry) (r : loop_result) :
  lr_exit (loop_cons ts r) = lr_exit r.
Proof. reflexivity. Qed.

(** Framing is driven by length, so [_parse_telemetry] never raises inside
    the loop. *)
Lemma telemetry_iter_never_raises (script : list loop_step) (pad_num : Z)
    (ip : string) :
  forall (pads : gmap Z Pad) (buffer : list byte) (last : spec_float)
         (stream : list byte),
    lr_exit (telemetry_iter script pad_num ip pads buffer last stream)
    <> ExitValueError.
Proof.
  induction script as [| s script IH]; intros pads buffer last stream;
    cbn [telemetry_iter]; [discriminate |].
  destruct (negb (ls_running s)); [discriminate |].
  destruct (recv _ _ _) as [[| c chunk] rest | |]; try discriminate.
  - destruct (drain_total pad_num ip (length (buffer ++ c :: chunk)) pads
                (buffer ++ c :: chunk) (le_n _))
      as (pads' & b & applied & E & _ & _).
    rewrite E. destruct (timed_out _ _); [discriminate |].
    rewrite loop_cons_exit. apply IH.
  - destruct (timed_out _ _); [discriminate | apply IH].
Qed.

Lemma resync_history (st : RLCU) (pad_num : Z) (ip : string) (ok : bool)
    (now : spec_float) :
  _command_history (fst (resync st pad_num ip ok now)) !! pad_num
  = Some (mkCmd (stored_mask st pad_num) ok now).
Proof. unfold resync. cbn. apply lookup_insert_eq. Qed.

(** C7: a round of the worker that connects registers the session and
    then, before any telemetry is read or applied, hands one byte to the
    transport: the stored persistent mask of the slot.  The outcome of
    that write is recorded in the command history with the mask and the
    timestamp, as a success or as a failure; either way the telemetry loop
    runs on the session, the round ends as that loop ends, and the worker
    goes on to its next round. *)
Theorem worker_resync (st : RLCU) (pad_num : Z) (ip : string) (a : attempt)
    (rest : list attempt) (c : sock) :
  a_running a = true ->
  a_connect a = Some c ->
  let mask := stored_mask st pad_num in
  let r := _telemetry_loop (a_script a) pad_num ip (pad_data st)
             (a_loop_start a) (a_stream a) in
  exists (st1 : RLCU) (closing : list event),
    connection_attempt st pad_num ip a
    = (st1,
       EvRegister ip c :: EvSendall ip (mask_payload mask) (a_sync_ok a)
       :: apply_events pad_num (lr_applied r)
       ++ EvLoopExit (lr_exit r) :: closing,
       attempt_end_of (lr_exit r)) /\
    (is_mask mask -> byte_val <$> mask_payload mask = [mask]) /\
    _command_history st1 !! pad_num
    = Some (mkCmd mask (a_sync_ok a) (a_sync_time a)) /\
    stored_mask st1 pad_num = mask /\
    attempt_end_of (lr_exit r) <> AttemptRaised /\
    (attempt_end_of (lr_exit r) = AttemptDone ->
     a_running_after a = true ->
     snd (_connection_worker (a :: rest) st pad_num ip)
     = (EvRegister ip c :: EvSendall ip (mask_payload mask) (a_sync_ok a)
        :: apply_events pad_num (lr_applied r)
        ++ EvLoopExit (lr_exit r) :: closing)
       ++ EvSleep :: snd (_connection_worker rest st1 pad_num ip)).
Proof.
  intros Hrun Hconn mask r.
  assert (Hr : lr_exit r <> ExitValueError)
    by apply telemetry_iter_never_raises.
  assert (Hca : exists st1 closing,
            connection_attempt st pad_num ip a
            = (st1,
               EvRegister ip c
               :: EvSendall ip (mask_payload mask) (a_sync_ok a)
               :: apply_events pad_num (lr_applied r)
               ++ EvLoopExit (lr_exit r) :: closing,
               attempt_end_of (lr_exit r))
            /\ _command_history st1 = 
               <[pad_num := mkCmd mask (a_sync_ok a) (a_sync_time a)]>
                 (_command_history st)
            /\ _command_state st1 = _command_state st).
  { unfold connection_attempt. rewrite Hconn. cbn [resync].
    cbn [with_command_history with_connections pad_data].
    fold r. fold mask.
    change (stored_mask (with_connections st
                           (<[ip := c]> (_connections st))) pad_num)
      with mask.
    destruct (lr_exit r) eqn:E; cbn [attempt_end_of].
    all: try (eexists; exists [EvClose ip];
              split; [cbn [app]; rewrite <- app_assoc; reflexivity |];
              split; reflexivity).
    eexists. exists []. split; [reflexivity |]. split; reflexivity. }
  destruct Hca as (st1 & closing & Hca & Hh & Hs).
  exists st1, closing. split; [exact Hca |].
  split; [apply mask_payload_byte |].
  split; [rewrite Hh; apply lookup_insert_eq |].
  split; [unfold stored_mask; rewrite Hs; reflexivity |].
  split; [destruct (lr_exit r); cbn; congruence |].
  intros Hend Hafter. cbn [_connection_worker].
  rewrite Hrun, Hca, Hend, Hafter. cbn [negb].
  destruct (_connection_worker rest st1 pad_num ip) as [st2 more].
  reflexivity.
Qed.

Lemma worker_resync_witness :
  exists (st1 : RLCU) (closing : list event),
    _command_history st1 !! 0
    = Some (mkCmd (stored_mask st_bound 0) false (S754_zero false)) /\
    snd (_connection_worker [failed_sync_attempt] st_bound 0 "10.0.0.7")
    = (EvRegister "10.0.0.7" 5%nat
       :: EvSendall "10.0.0.7" (mask_payload (stored_mask st_bound 0)) false
       :: apply_events 0
            (lr_applied
               (_telemetry_loop (a_script failed_sync_attempt) 0 "10.0.0.7"
                  (pad_data st_bound) (a_loop_start failed_sync_attempt)
                  (a_stream failed_sync_attempt)))
       ++ EvLoopExit
            (lr_exit
               (_telemetry_loop (a_script failed_sync_attempt) 0 "10.0.0.7"
                  (pad_data st_bound) (a_loop_start failed_sync_attempt)
                  (a_stream failed_sync_attempt)))
       :: closing)
      ++ EvSleep :: snd (_connection_worker [] st1 0 "10.0.0.7").
Proof.
  destruct (worker_resync st_bound 0 "10.0.0.7" failed_sync_attempt []
              5%nat eq_refl eq_refl)
    as (st1 & closing & _ & _ & Hh & _ & _ & Hw).
  exists st1, closing. split; [exact Hh |].
  apply Hw; reflexivity.
Defined.

(* ===================================================================== *)
(** * Part III.  Further properties of the code                           *)
(* ===================================================================== *)

(** ** Status queries and the command path *)

Lemma has_active_connection_live (st : RLCU) (pad_num : Z) :
  has_active_connection st pad_num = true
  <-> is_Some (live_connection st pad_num).
Proof.
  unfold has_active_connection, live_connection, pad_ip.
  destruct (String.eqb _ EmptyString).
  - split; [discriminate | intros [? [=]]].
  - destruct (_connections st !! _); split; eauto; try discriminate.
    intros [? [=]].
Qed.

Lemma has_active_connection_dead (st : RLCU) (pad_num : Z) :
  has_active_connection st pad_num = false
  <-> live_connection st pad_num = None.
Proof.
  unfold has_active_connection, live_connection, pad_ip.
  destruct (String.eqb _ EmptyString); [split; reflexivity |].
  destruct (_connections st !! _); split; congruence.
Qed.

(** X1: [has_active_connection] predicts [send_command] exactly: where it
    answers False the call returns False, changes nothing and sends
    nothing; where it answers True the call hands exactly one byte to
    the transport and returns the outcome of that write. *)
Theorem active_connection_decides_send (st : RLCU) (pad_num : Z)
    (command : option Z) (enable : option bool) (ok : bool)
    (now : spec_float) :
  (has_active_connection st pad_num = false ->
   send_command st pad_num command enable ok now = (false, st, [])) /\
  (has_active_connection st pad_num = true ->
   exists st' : RLCU,
     send_command st pad_num command enable ok now
     = (ok, st',
        [EvSendall (pad_ip st pad_num)
           (mask_payload (attempted_mask st pad_num command enable)) ok])).
Proof.
  split.
  - intros H. apply send_command_no_connection, has_active_connection_dead, H.
  - intros H. apply has_active_connection_live in H as [c Hc].
    rewrite (send_command_connected _ _ _ _ _ _ c Hc). eauto.
Qed.

Lemma active_connection_decides_send_witness :
  send_command st_bound 0 (Some CMD_LED) (Some true) true (S754_zero false)
  = (false, st_bound, [])
  /\ exists st' : RLCU,
       send_command st_connected 0 (Some CMD_LED) (Some true) true
         (S754_zero false)
       = (true, st',
          [EvSendall (pad_ip st_connected 0)
             (mask_payload
                (attempted_mask st_connected 0 (Some CMD_LED) (Some true)))
             true]).
Proof.
  split.
  - apply (proj1 (active_connection_decides_send st_bound 0 (Some CMD_LED)
                    (Some true) true (S754_zero false))). reflexivity.
  - apply (proj2 (active_connection_decides_send st_connected 0
                    (Some CMD_LED) (Some true) true (S754_zero false))).
    reflexivity.
Defined.

Lemma command_history_persist (st : RLCU) (pad_num : Z) (persist : option Z)
    (h : gmap Z cmd_entry) :
  _command_history (with_command_history (persist_mask st pad_num persist) h)
  = h.
Proof. reflexivity. Qed.

(** X2: after a call on a slot with an active connection
    [get_last_command_status] reports the mask that was attempted, the
    timestamp, and as [success] exactly the boolean the call returned;
    the status of every other slot is what it was. *)
Theorem last_command_status_after_send (st : RLCU) (pad_num : Z)
    (command : option Z) (enable : option bool) (ok : bool)
    (now : spec_float) :
  has_active_connection st pad_num = true ->
  let result := send_command st pad_num command enable ok now in
  get_last_command_status (snd (fst result)) pad_num
  = Some (mkCmd (attempted_mask st pad_num command enable)
            (fst (fst result)) now)
  /\ forall k : Z,
       k <> pad_num ->
       get_last_command_status (snd (fst result)) k
       = get_last_command_status st k.
Proof.
  intros H. apply has_active_connection_live in H as [c Hc].
  rewrite (send_command_connected _ _ _ _ _ _ c Hc). cbn [fst snd].
  unfold get_last_command_status. rewrite command_history_persist.
  split; [apply lookup_insert_eq |].
  intros k Hk. apply lookup_insert_ne. congruence.
Qed.

Lemma last_command_status_after_send_witness :
  get_last_command_status
    (snd (fst (send_command st_connected 0 (Some CMD_LED) (Some true) false
                 (S754_zero false)))) 0
  = Some (mkCmd (attempted_mask st_connected 0 (Some CMD_LED) (Some true))
            (fst (fst (send_command st_connected 0 (Some CMD_LED) (Some true)
                         false (S754_zero false))))
            (S754_zero false)).
Proof.
  apply (last_command_status_after_send st_connected 0 (Some CMD_LED)
           (Some true) false (S754_zero false)).
  reflexivity.
Defined.

(** X3: on a connected slot a call with [enable=True] sets exactly the
    bits of the command in the stored mask, and a call with
    [enable=False] clears exactly those bits; every other bit of the
    stored mask keeps its value. *)
Theorem send_command_bits (st : RLCU) (pad_num : Z) (c : Z) (ok : bool)
    (now : spec_float) (n : Z) :
  has_active_connection st pad_num = true ->
  0 <= n ->
  Z.testbit
    (stored_mask
       (snd (fst (send_command st pad_num (Some c) (Some true) ok now)))
       pad_num) n
  = Z.testbit (stored_mask st pad_num) n || Z.testbit c n
  /\ Z.testbit
       (stored_mask
          (snd (fst (send_command st pad_num (Some c) (Some false) ok now)))
          pad_num) n
     = Z.testbit (stored_mask st pad_num) n && negb (Z.testbit c n).
Proof.
  intros H Hn. apply has_active_connection_live in H as [s Hs].
  rewrite !(send_command_connected _ _ _ _ _ _ s Hs). cbn [fst snd].
  rewrite !stored_mask_persist. cbn [next_mask fst truthy command_value].
  destruct (Z.eqb_spec c 0) as [-> | Hc]; cbn [negb default from_option id].
  - rewrite Z.bits_0, orb_false_r, andb_true_r. split; reflexivity.
  - rewrite Z.lor_spec, Z.land_spec, Z.lnot_spec by exact Hn.
    split; reflexivity.
Qed.

Lemma send_command_bits_witness :
  Z.testbit
    (stored_mask
       (snd (fst (send_command st_connected 0 (Some CMD_LED) (Some true) true
                    (S754_zero false)))) 0) 2
  = Z.testbit (stored_mask st_connected 0) 2 || Z.testbit CMD_LED 2.
Proof.
  apply (send_command_bits st_connected 0 CMD_LED true (S754_zero false) 2).
  - reflexivity.
  - lia.
Defined.

Lemma send_command_keeps_connection (st : RLCU) (pad_num k : Z)
    (command : option Z) (enable : option bool) (ok : bool)
    (now : spec_float) :
  live_connection
    (snd (fst (send_command st pad_num command enable ok now))) k
  = live_connection st k.
Proof.
  destruct (live_connection st pad_num) as [c |] eqn:Hl.
  - rewrite (send_command_connected _ _ _ _ _ _ c Hl). cbn [fst snd].
    unfold live_connection, pad_ip, persist_mask.
    destruct (fst (next_mask _ _ _)); reflexivity.
  - rewrite (send_command_no_connection _ _ _ _ _ _ Hl). reflexivity.
Qed.

(** X4: commands compose as bit operations on the stored mask: sending
    the same [enable=True] command twice leaves the mask it had after the
    first call and transmits the same byte again, and [enable=True]
    followed by [enable=False] for the same command leaves the original
    mask with the bits of the command cleared. *)
Theorem send_command_compose (st : RLCU) (pad_num : Z) (c : Z)
    (ok1 ok2 : bool) (t1 t2 : spec_float) :
  has_active_connection st pad_num = true ->
  let first := send_command st pad_num (Some c) (Some true) ok1 t1 in
  let st1 := snd (fst first) in
  let again := send_command st1 pad_num (Some c) (Some true) ok2 t2 in
  let undo := send_command st1 pad_num (Some c) (Some false) ok2 t2 in
  stored_mask (snd (fst again)) pad_num = stored_mask st1 pad_num
  /\ snd again
     = [EvSendall (pad_ip st pad_num)
          (mask_payload (stored_mask st1 pad_num)) ok2]
  /\ stored_mask (snd (fst undo)) pad_num
     = Z.land (stored_mask st pad_num) (Z.lnot c).
Proof.
  intros H first st1 again undo.
  apply has_active_connection_live in H as [s Hs].
  assert (Hs1 : live_connection st1 pad_num = Some s)
    by (unfold st1, first; rewrite send_command_keeps_connection; exact Hs).
  assert (Hip : pad_ip st1 pad_num = pad_ip st pad_num).
  { unfold st1, first, pad_ip. rewrite send_command_pad_data. reflexivity. }
  assert (Hm : stored_mask st1 pad_num
               = if truthy (Some c) then Z.lor (stored_mask st pad_num) c
                 else stored_mask st pad_num).
  { unfold st1, first. rewrite (send_command_connected _ _ _ _ _ _ s Hs).
    cbn [fst snd]. rewrite stored_mask_persist.
    cbn [next_mask fst command_value]. destruct (truthy (Some c)); reflexivity. }
  unfold again, undo.
  rewrite !(send_command_connected _ _ _ _ _ _ s Hs1). cbn [fst snd].
  rewrite !stored_mask_persist, Hip. unfold attempted_mask.
  cbn [next_mask fst snd command_value default from_option id].
  rewrite Hm. cbn [truthy] in *.
  destruct (Z.eqb_spec c 0) as [-> | Hc]; cbn [negb].
  - rewrite Z.land_m1_r || (change (Z.lnot 0) with (-1); rewrite Z.land_m1_r).
    repeat split.
  - assert (E1 : Z.lor (Z.lor (stored_mask st pad_num) c) c
                 = Z.lor (stored_mask st pad_num) c)
      by (rewrite <- Z.lor_assoc, Z.lor_diag; reflexivity).
    assert (E2 : Z.land (Z.lor (stored_mask st pad_num) c) (Z.lnot c)
                 = Z.land (stored_mask st pad_num) (Z.lnot c)).
    { apply Z.bits_inj'. intros n Hn.
      rewrite !Z.land_spec, Z.lor_spec, Z.lnot_spec by exact Hn.
      destruct (Z.testbit (stored_mask st pad_num) n), (Z.testbit c n);
        reflexivity. }
    rewrite E1, E2. repeat split.
Qed.

Lemma send_command_compose_witness :
  stored_mask
    (snd (fst (send_command
                 (snd (fst (send_command st_connected 0 (Some CMD_LED)
                              (Some true) true (S754_zero false))))
                 0 (Some CMD_LED) (Some false) true (S754_zero false)))) 0
  = Z.land (stored_mask st_connected 0) (Z.lnot CMD_LED).
Proof.
  apply (send_command_compose st_connected 0 CMD_LED true true
           (S754_zero false) (S754_zero false)).
  reflexivity.
Defined.

(** X5: a call for one slot never touches another slot: the stored mask
    and the history of every other slot, the pad store and the connection
    table are what they were, whatever the call did. *)
Theorem send_command_isolated (st : RLCU) (pad_num : Z)
    (command : option Z) (enable : option bool) (ok : bool)
    (now : spec_float) :
  let st' := snd (fst (send_command st pad_num command enable ok now)) in
  pad_data st' = pad_data st
  /\ _connections st' = _connections st
  /\ forall k : Z,
       k <> pad_num ->
       stored_mask st' k = stored_mask st k
       /\ _command_history st' !! k = _command_history st !! k.
Proof.
  destruct (live_connection st pad_num) as [c |] eqn:Hl.
  - rewrite (send_command_connected _ _ _ _ _ _ c Hl). cbn [fst snd].
    split; [| split].
    + unfold persist_mask. destruct (fst (next_mask _ _ _)); reflexivity.
    + unfold persist_mask. destruct (fst (next_mask _ _ _)); reflexivity.
    + intros k Hk. split; [apply stored_mask_persist_other; exact Hk |].
      rewrite command_history_persist. apply lookup_insert_ne. congruence.
  - rewrite (send_command_no_connection _ _ _ _ _ _ Hl). cbn [fst snd].
    auto.
Qed.

Lemma send_command_isolated_witness :
  stored_mask
    (snd (fst (send_command st_connected 0 (Some CMD_LED) (Some true) true
                 (S754_zero false)))) 1
  = stored_mask st_connected 1.
Proof.
  destruct (send_command_isolated st_connected 0 (Some CMD_LED) (Some true)
              true (S754_zero false)) as (_ & _ & H).
  apply (H 1). discriminate.
Defined.

Lemma four_bits_land (z : Z) : 0 <= z < 16 <-> Z.land z 15 = z.
Proof.
  change 15 with (Z.ones 4). rewrite Z.land_ones by lia.
  change (2 ^ 4) with 16. split.
  - intros H. apply Z.mod_small. exact H.
  - intros <-. apply Z.mod_pos_bound. lia.
Qed.

Lemma next_mask_four_bits (state : Z) (command : option Z)
    (enable : option bool) (s' : Z) :
  0 <= state < 16 -> 0 <= command_value command < 16 ->
  fst (next_mask state command enable) = Some s' -> 0 <= s' < 16.
Proof.
  rewrite !four_bits_land. intros Hs Hc. unfold next_mask.
  destruct enable as [[|] |]; cbn [fst]; destruct (truthy command);
    intros [= <-]; try exact Hs.
  - rewrite Z.land_lor_distr_l, Hs, Hc. reflexivity.
  - rewrite <- Z.land_assoc, (Z.land_comm (Z.lnot _) 15), Z.land_assoc, Hs.
    reflexivity.
Qed.



(** ** Discovery and the worker table *)

(** X7: [_ensure_connection] keeps one worker per address: it never
    touches pads, sessions or the command register; afterwards a live
    worker is registered for the address; when one was already alive
    the call changes nothing at all, so a repeated call is a no-op. *)
Theorem ensure_connection_once (st : RLCU) (pad_num pad_num' : Z)
    (ip : string) :
  let st' := _ensure_connection st pad_num ip in
  pad_data st' = pad_data st
  /\ _connections st' = _connections st
  /\ _command_state st' = _command_state st
  /\ _command_history st' = _command_history st
  /\ (exists w, _connection_threads st' !! ip = Some w /\ w_alive w = true)
  /\ (forall ip', ip' <> ip ->
        _connection_threads st' !! ip' = _connection_threads st !! ip')
  /\ (forall w, _connection_threads st !! ip = Some w -> w_alive w = true ->
        st' = st)
  /\ _ensure_connection st' pad_num' ip = st'.
Proof.
  cbn zeta. unfold _ensure_connection.
  destruct (_connection_threads st !! ip) as [w |] eqn:E;
    [destruct (w_alive w) eqn:Ea |].
  - rewrite E, Ea. repeat split; eauto.
  - cbn [with_connection_threads _connection_threads pad_data _connections
         _command_state _command_history].
    rewrite lookup_insert_eq. cbn [w_alive].
    repeat split; eauto.
    + intros ip' Hne. apply lookup_insert_ne. congruence.
    + intros w' [= <-] Hw. congruence.
  - cbn [with_connection_threads _connection_threads pad_data _connections
         _command_state _command_history].
    rewrite lookup_insert_eq. cbn [w_alive].
    repeat split; eauto.
    + intros ip' Hne. apply lookup_insert_ne. congruence.
    + intros w' [=].
Qed.

Lemma ensure_connection_once_witness :
  _ensure_connection (_ensure_connection RLCU_init 0 "10.0.0.7") 1 "10.0.0.7"
  = _ensure_connection RLCU_init 0 "10.0.0.7".
Proof.
  apply (ensure_connection_once RLCU_init 0 1 "10.0.0.7").
Defined.

(** X8: bytes after the 17-byte layout are ignored: a datagram of at
    least 17 bytes is handled exactly like itself followed by anything. *)
Theorem discovery_ignores_trailing (st : RLCU) (data extra : list byte)
    (ip : string) :
  (DISCOVERY_STRUCT_size <= length data)%nat ->
  _handle_discovery st (data ++ extra) ip = _handle_discovery st data ip.
Proof.
  intros Hl. unfold DISCOVERY_STRUCT_size in Hl.
  assert (Hp : discovery_pad_num (data ++ extra) = discovery_pad_num data)
    by (destruct data; [simpl in Hl; lia | reflexivity]).
  assert (Ha : discovery_auth_key (data ++ extra) = discovery_auth_key data).
  { unfold discovery_auth_key, discovery_raw_auth. f_equal. f_equal.
    rewrite drop_app_le by lia.
    apply take_app_le. rewrite length_drop. lia. }
  unfold _handle_discovery. rewrite Hp, Ha.
  replace (length (data ++ extra) <? DISCOVERY_STRUCT_size)%nat with false
    by (symmetry; apply Nat.ltb_ge; rewrite length_app;
        unfold DISCOVERY_STRUCT_size; lia).
  replace (length data <? DISCOVERY_STRUCT_size)%nat with false
    by (symmetry; apply Nat.ltb_ge; unfold DISCOVERY_STRUCT_size; lia).
  reflexivity.
Qed.

Lemma discovery_ignores_trailing_witness :
  _handle_discovery RLCU_init
    (discovery_packet x02 (bytes_of_string AUTH_KEY) ++ [xff; x00; x41])
    "10.0.0.7"
  = _handle_discovery RLCU_init
      (discovery_packet x02 (bytes_of_string AUTH_KEY)) "10.0.0.7".
Proof.
  apply discovery_ignores_trailing. vm_compute. lia.
Defined.

Lemma udp_loop_app (st : RLCU) (l1 l2 : list (list byte * string)) :
  _udp_loop st (l1 ++ l2) = _udp_loop (_udp_loop st l1) l2.
Proof.
  revert st. induction l1 as [| [data ip] l1 IH]; intros st; [reflexivity |].
  cbn [_udp_loop app]. apply IH.
Qed.

(** X9: rejected datagrams leave no trace in a run of the discovery loop:
    the state after any sequence of datagrams is the state after the
    accepted ones alone, and a run over a concatenation is the run over
    the second part started from the result of the first. *)
Theorem udp_loop_accepted_only (st : RLCU)
    (packets more : list (list byte * string)) :
  _udp_loop st packets
  = _udp_loop st (filter (fun pk => discovery_accepted (fst pk) = true)
                    packets)
  /\ _udp_loop st (packets ++ more) = _udp_loop (_udp_loop st packets) more.
Proof.
  split; [| apply udp_loop_app].
  revert st. induction packets as [| [data ip] packets IH]; intros st;
    [reflexivity |].
  rewrite filter_cons. cbn [fst].
  destruct (decide (discovery_accepted data = true)) as [Ha | Hr].
  - cbn [_udp_loop]. apply IH.
  - cbn [_udp_loop]. apply not_true_is_false in Hr.
    rewrite (handle_discovery_rejected _ _ _ Hr). apply IH.
Qed.

Lemma handle_discovery_slot (st : RLCU) (data : list byte) (ip : string)
    (k : Z) (p : Pad) :
  pad_data st !! k = Some p ->
  pad_data (_handle_discovery st data ip) !! k
  = Some (if binds_slot k (data, ip) then mark_contact ip p else p).
Proof.
  intros Hp. unfold binds_slot. cbn [fst].
  destruct (discovery_accepted data) eqn:Ha; cbn [andb].
  - rewrite (handle_discovery_accepted _ _ _ Ha).
    destruct (Z.eqb_spec (discovery_pad_num data) k) as [-> | Hne].
    + rewrite Hp. apply lookup_insert_eq.
    + destruct (pad_data st !! discovery_pad_num data);
        [rewrite lookup_insert_ne by exact Hne |]; exact Hp.
  - rewrite (handle_discovery_rejected _ _ _ Ha). exact Hp.
Qed.

(** X10: latest discovery wins, over a whole run: the address of a slot
    after any sequence of datagrams is the sender of the last accepted
    datagram that names the slot, and the address it had before when no
    datagram does. *)
Theorem udp_loop_latest_wins (packets : list (list byte * string))
    (st : RLCU) (k : Z) (p : Pad) :
  pad_data st !! k = Some p ->
  exists p' : Pad,
    pad_data (_udp_loop st packets) !! k = Some p'
    /\ ip_address p'
       = default (ip_address p)
           (snd <$> last (filter (fun pk => binds_slot k pk = true) packets)).
Proof.
  induction packets as [| [data ip] packets IH] using rev_ind; intros Hp.
  - exists p. split; [exact Hp | reflexivity].
  - destruct (IH Hp) as (q & Hq & Hip).
    rewrite udp_loop_app. cbn [_udp_loop].
    rewrite (handle_discovery_slot _ _ _ _ _ Hq).
    eexists. split; [reflexivity |].
    rewrite filter_app, filter_cons, filter_nil.
    destruct (decide (binds_slot k (data, ip) = true)) as [Hb | Hb].
    + rewrite Hb, last_snoc. reflexivity.
    + apply not_true_is_false in Hb. rewrite Hb, app_nil_r. exact Hip.
Qed.

Lemma udp_loop_latest_wins_witness :
  exists p' : Pad,
    pad_data
      (_udp_loop RLCU_init
         [(discovery_packet x01 (bytes_of_string AUTH_KEY), "10.0.0.7");
          (discovery_packet x01 smuggled_token, "10.0.0.9");
          (discovery_packet x01 [x41], "10.0.0.3")]) !! 1
    = Some p'
    /\ ip_address p' = "10.0.0.9".
Proof.
  destruct (udp_loop_latest_wins
              [(discovery_packet x01 (bytes_of_string AUTH_KEY), "10.0.0.7");
               (discovery_packet x01 smuggled_token, "10.0.0.9");
               (discovery_packet x01 [x41], "10.0.0.3")]
              RLCU_init 1 Pad_init eq_refl) as (p' & H1 & H2).
  exists p'. split; [exact H1 |]. rewrite H2. reflexivity.
Defined.

(** ** Invariants of the pad store *)

Lemma pad_consistent_init : pad_consistent Pad_init.
Proof. repeat split. Qed.

Lemma pad_consistent_mark_contact (ip : string) (p : Pad) :
  pad_consistent p -> pad_consistent (mark_contact ip p).
Proof. intros (_ & H). split; [reflexivity | exact H]. Qed.

Lemma pad_consistent_telemetry_update (ip : string) (t : telemetry) (p : Pad) :
  pad_consistent (telemetry_update ip t p).
Proof. repeat split. Qed.

Lemma pad_consistent_operator_update (w : operator_write) (p : Pad) :
  pad_consistent p -> pad_consistent (operator_update w p).
Proof. intros H. exact H. Qed.

Lemma pad_consistent_age_pad (p : Pad) :
  pad_consistent p -> pad_consistent (age_pad p).
Proof. intros (_ & H). split; [reflexivity | exact H]. Qed.

(** What any operation does to the record of one slot. *)
Lemma run_op_lookup (st : RLCU) (op : store_op) (i : Z) :
  exists f : Pad -> Pad,
    pad_data (run_op st op) !! i = f <$> pad_data st !! i
    /\ forall p, pad_consistent p -> pad_consistent (f p).
Proof.
  assert (Hid : forall m : gmap Z Pad, m !! i = id <$> m !! i)
    by (intros m; destruct (m !! i); reflexivity).
  destruct op as [data ip | k ip t | k c e ok now | k w |]; cbn [run_op].
  - destruct (discovery_accepted data) eqn:Ha.
    + rewrite (handle_discovery_accepted _ _ _ Ha).
      destruct (pad_data st !! discovery_pad_num data) as [q |] eqn:Hq;
        [| exists id; auto].
      eexists. split; [apply lookup_insert_fmap; exact Hq |].
      case_decide; auto using pad_consistent_mark_contact.
    + rewrite (handle_discovery_rejected _ _ _ Ha). exists id. auto.
  - cbn [with_pad_data pad_data]. unfold _apply_telemetry.
    destruct (pad_data st !! k) as [q |] eqn:Hq; [| exists id; auto].
    eexists. split; [apply lookup_insert_fmap; exact Hq |].
    case_decide; auto using pad_consistent_telemetry_update.
  - rewrite send_command_pad_data. exists id. auto.
  - destruct (pad_data st !! k) as [q |] eqn:Hq; [| exists id; auto].
    cbn [with_pad_data pad_data].
    eexists. split; [apply lookup_insert_fmap; exact Hq |].
    case_decide; auto using pad_consistent_operator_update.
  - exists age_pad. cbn [with_pad_data pad_data].
    split; [apply timer_tick_lookup | apply pad_consistent_age_pad].
Qed.

(** X11: in every state the program can reach, every displayed colour of
    every pad is the function of its raw field that the writers compute:
    the staleness colour is red exactly when the age exceeds 30, and the
    voltage, signal, continuity and arm colours follow their values. No
    sequence of discoveries, telemetry, commands, operator writes and
    ticks lets a raw field and its colour drift apart. *)
Theorem derived_fields_consistent (ops : list store_op) (i : Z) (p : Pad) :
  pad_data (run_ops RLCU_init ops) !! i = Some p ->
  pad_consistent p
  /\ (last_seen_color p = red <-> 30 < last_seen p)
  /\ 0 <= last_seen p.
Proof.
  intros Hp.
  assert (Hc : pad_consistent p).
  { revert p Hp. unfold run_ops.
    assert (H0 : forall q, pad_data RLCU_init !! i = Some q ->
                           pad_consistent q).
    { intros q Hq. unfold RLCU_init, pad_data, pad_data_init in Hq.
      apply elem_of_list_to_map_2 in Hq.
      apply list_elem_of_fmap in Hq as (k & [= _ ->] & _).
      apply pad_consistent_init. }
    revert H0. generalize RLCU_init.
    induction ops as [| op ops IH]; intros st Hst p Hp; [apply Hst, Hp |].
    cbn [foldl] in Hp. apply (IH (run_op st op)); [| exact Hp].
    intros q Hq. destruct (run_op_lookup st op i) as (f & E & Hf).
    rewrite E in Hq. destruct (pad_data st !! i) as [q0 |] eqn:E0;
      [| discriminate Hq].
    injection Hq as <-. apply Hf, Hst. reflexivity. }
  split; [exact Hc |]. split.
  - destruct Hc as (H & _). rewrite H.
    destruct (Z.ltb_spec 30 (last_seen p)); split; try lia; try discriminate;
      reflexivity.
  - apply (reachable_ages_nonneg ops i p Hp).
Qed.

Lemma derived_fields_consistent_witness :
  pad_consistent
    (telemetry_update "10.0.0.7" example_telemetry Pad_init).
Proof.
  apply (derived_fields_consistent
           [OpTelemetry 2 "10.0.0.7" example_telemetry] 2).
  reflexivity.
Defined.

Lemma run_op_dom (st : RLCU) (op : store_op) :
  dom (pad_data (run_op st op)) = dom (pad_data st).
Proof.
  apply set_eq. intros i. rewrite !elem_of_dom.
  destruct (run_op_lookup st op i) as (f & E & _). rewrite E.
  rewrite fmap_is_Some. reflexivity.
Qed.

(** X12: slots are never created and never deleted: after any sequence
    of discoveries, telemetry, commands, operator writes and ticks the pad
    store has exactly the slots 0 to 5 it started with. *)
Theorem slots_fixed (ops : list store_op) (i : Z) :
  is_Some (pad_data (run_ops RLCU_init ops) !! i) <-> 0 <= i < n_pads.
Proof.
  rewrite <- elem_of_dom.
  assert (E : dom (pad_data (run_ops RLCU_init ops))
              = dom (pad_data RLCU_init)).
  { unfold run_ops. generalize RLCU_init.
    induction ops as [| op ops IH]; intros st; [reflexivity |].
    cbn [foldl]. rewrite IH. apply run_op_dom. }
  rewrite E. unfold RLCU_init, pad_data, pad_data_init.
  rewrite dom_list_to_map_L, elem_of_list_to_set, <- list_fmap_compose.
  rewrite list_elem_of_fmap. split.
  - intros (k & -> & Hk). apply elem_of_seqZ in Hk. cbn. lia.
  - intros Hi. exists i. split; [reflexivity |]. apply elem_of_seqZ. lia.
Qed.

(** ** The ticker over time *)

(** X13: [n] ticks without contact add [n] to the age of a slot, and from
    the first tick on the indicator reads stale exactly when the age
    exceeds 30: a slot just contacted (age 0) turns stale at the 31st
    tick and not before. *)
Theorem timer_loop_ages (n : nat) (pads : gmap Z Pad) (i : Z) (p : Pad) :
  pads !! i = Some p ->
  exists p' : Pad,
    _timer_loop n pads !! i = Some p'
    /\ last_seen p' = last_seen p + Z.of_nat n
    /\ (n <> O ->
        (last_seen_color p' = red <-> 30 < last_seen p + Z.of_nat n))
    /\ (last_seen p = 0 -> n <> O ->
        (last_seen_color p' = red <-> (31 <= n)%nat)).
Proof.
  intros Hp. destruct (timer_loop_lookup n pads i p Hp) as (p' & E & Ha & Hc).
  exists p'. split; [exact E |]. split; [exact Ha |].
  assert (Hiff : n <> O ->
            (last_seen_color p' = red <-> 30 < last_seen p + Z.of_nat n)).
  { intros Hn. rewrite (Hc Hn), Ha.
    destruct (Z.ltb_spec 30 (last_seen p + Z.of_nat n)); split;
      try lia; try discriminate; reflexivity. }
  split; [exact Hiff |].
  intros H0 Hn. rewrite (Hiff Hn), H0. lia.
Qed.

Lemma timer_loop_ages_witness :
  exists p' : Pad,
    _timer_loop 31 pad_data_init !! 0 = Some p'
    /\ last_seen p' = last_seen Pad_init + Z.of_nat 31.
Proof.
  destruct (timer_loop_ages 31 pad_data_init 0 Pad_init eq_refl)
    as (p' & H1 & H2 & _).
  exists p'. split; assumption.
Defined.

(** ** Shutdown *)

Lemma command_state_init_lookup (k : Z) :
  default 0 (command_state_init !! k) = 0.
Proof.
  destruct (command_state_init !! k) as [m |] eqn:E; [| reflexivity].
  apply elem_of_list_to_map_2 in E.
  apply list_elem_of_fmap in E as (i & [= _ ->] & _). reflexivity.
Qed.

(** X14: [stop_listening] on a listening socket leaves it not listening,
    with no session, no worker and no peer entry, every stored mask 0 and
    every recorded mask 0 and unsuccessful; the pad records, addresses
    included, are kept.  So afterwards no slot has an active connection
    and every command fails without effect.  On a socket that is not
    listening it changes nothing, so a second call is a no-op. *)
Theorem stop_listening_resets (s : RLCUSocket) (now now' : Z -> spec_float) :
  let s' := stop_listening s now in
  (sk_listening s = false -> s' = s)
  /\ sk_listening s' = false
  /\ stop_listening s' now' = s'
  /\ pad_data (sk_state s') = pad_data (sk_state s)
  /\ (sk_listening s = true ->
      _connections (sk_state s') = ∅
      /\ _connection_threads (sk_state s') = ∅
      /\ _pad_peers (sk_state s') = ∅
      /\ (forall k, stored_mask (sk_state s') k = 0)
      /\ (forall k e, get_last_command_status (sk_state s') k = Some e ->
            c_mask e = 0 /\ c_success e = false)
      /\ (forall k, has_active_connection (sk_state s') k = false)
      /\ (forall k command enable ok t,
            send_command (sk_state s') k command enable ok t
            = (false, sk_state s', []))).
Proof.
  cbn zeta. unfold stop_listening.
  destruct (sk_listening s) eqn:El; cbn [negb].
  - split; [discriminate |]. split; [reflexivity |].
    split; [reflexivity |]. split; [reflexivity |]. intros _.
    cbn [sk_state _connections _connection_threads _pad_peers].
    split; [reflexivity |]. split; [reflexivity |]. split; [reflexivity |].
    assert (Hdead : forall k,
              has_active_connection
                {| pad_data := pad_data (sk_state s); _connections := ∅;
                   _connection_threads := ∅; _pad_peers := ∅;
                   _command_state := command_state_init;
                   _command_history := command_history_reset now |} k
              = false).
    { intros k. unfold has_active_connection. cbn [pad_data _connections].
      destruct (String.eqb _ EmptyString); [reflexivity |].
      rewrite lookup_empty. reflexivity. }
    split; [intros k; apply command_state_init_lookup |].
    split; [| split; [exact Hdead |]].
    + intros k e He. unfold get_last_command_status in He.
      cbn [_command_history] in He. unfold command_history_reset in He.
      apply elem_of_list_to_map_2 in He.
      apply list_elem_of_fmap in He as (i & [= _ ->] & _).
      split; reflexivity.
    + intros k command enable ok t.
      apply send_command_no_connection, has_active_connection_dead, Hdead.
  - rewrite El. cbn [negb]. repeat split; congruence.
Qed.

Lemma stop_listening_resets_witness :
  stored_mask
    (sk_state (stop_listening (mkSocket st_connected true 5555)
                 (fun _ => S754_zero false))) 0 = 0.
Proof.
  destruct (stop_listening_resets (mkSocket st_connected true 5555)
              (fun _ => S754_zero false) (fun _ => S754_zero false))
    as (_ & _ & _ & _ & H).
  destruct (H eq_refl) as (_ & _ & _ & Hm & _). exact (Hm 0).
Defined.

(** ** The telemetry decoder and loop, for every run *)

(** X15: [_parse_telemetry] accepts a frame exactly when it is 12 bytes
    long (every other length is the size-mismatch error), and the value
    of the last byte, the padding, has no influence on the result. *)
Theorem parse_telemetry_size (frame body : list byte) (x y : byte) :
  (is_Some (_parse_telemetry frame) <-> length frame = TELEMETRY_STRUCT_size)
  /\ _parse_telemetry (body ++ [x]) = _parse_telemetry (body ++ [y]).
Proof.
  split.
  - split; [intros [t Ht]; apply (parse_Some_length _ _ Ht)
           | apply parse_frame_length].
  - do 12 (destruct body as [| ? body]; [reflexivity |]).
    destruct body; reflexivity.
Qed.

Lemma drain_apply_all (fuel : nat) (pad_num : Z) (ip : string) :
  forall (pads : gmap Z Pad) (buffer : list byte) (pads' : gmap Z Pad)
         (b : list byte) (ts : list telemetry),
    drain fuel pad_num ip pads buffer = Drained pads' b ts ->
    pads' = apply_all pads pad_num ip ts.
Proof.
  induction fuel as [| fuel IH]; intros pads buffer pads' b ts; cbn [drain].
  - destruct (length buffer <? _)%nat; [| discriminate].
    intros [= <- _ <-]. reflexivity.
  - destruct (length buffer <? _)%nat; [intros [= <- _ <-]; reflexivity |].
    destruct (_parse_telemetry _) as [t |]; [| discriminate].
    destruct (drain fuel _ _ _ _) as [q b' ts' | |] eqn:E;
      cbn [drained_cons]; try discriminate.
    intros [= <- _ <-]. apply (IH _ _ _ _ _ E).
Qed.

Section AnyScript.
Variables (pad_num : Z) (ip : string).

(** Whatever the network and the clock do, the updates applied so far
  are the decodings of the whole frames among the bytes read so far. *)
Lemma telemetry_iter_prefix (script : list loop_step) :
forall (pads : gmap Z Pad) (buffer : list byte) (last : spec_float)
       (stream : list byte),
  (length buffer < TELEMETRY_STRUCT_size)%nat ->
  exists (n : nat) (b : list byte),
    drain (length (buffer ++ take n stream)) pad_num ip pads
      (buffer ++ take n stream)
    = Drained
        (lr_pads (telemetry_iter script pad_num ip pads buffer last stream))
        b
        (lr_applied
           (telemetry_iter script pad_num ip pads buffer last stream)).
Proof.
induction script as [| s script IH]; intros pads buffer last stream Hb.
- exists O, buffer. rewrite take_0, app_nil_r. apply drain_short. exact Hb.
- assert (Hnone : exists (n : nat) (b : list byte),
            drain (length (buffer ++ take n stream)) pad_num ip pads
              (buffer ++ take n stream) = Drained pads b []).
  { exists O, buffer. rewrite take_0, app_nil_r. apply drain_short.
    exact Hb. }
  cbn [telemetry_iter].
  destruct (negb (ls_running s)); [exact Hnone |].
  destruct (ls_net s) as [k | |]; cbn [recv]; [| | exact Hnone].
  + set (m := Nat.min (TELEMETRY_STRUCT_size - length buffer) k).
    destruct (take m stream) as [| c chunk] eqn:Hchunk; [exact Hnone |].
    rewrite <- Hchunk.
    assert (Hm : (length (buffer ++ take m stream)
                  <= TELEMETRY_STRUCT_size)%nat)
      by (rewrite length_app, length_take; subst m; lia).
    destruct (Nat.ltb_spec (length (buffer ++ take m stream))
                TELEMETRY_STRUCT_size) as [Hshort | Hfull].
    * rewrite (drain_short _ _ _ _ _ Hshort).
      destruct (timed_out _ _).
      -- exists m, (buffer ++ take m stream). cbn [lr_pads lr_applied].
         apply drain_short. exact Hshort.
      -- rewrite loop_cons_nil.
         destruct (IH pads (buffer ++ take m stream) (ls_t_data s)
                     (drop m stream) Hshort) as (n & b & E).
         exists (m + n)%nat, b.
         rewrite <- take_take_drop, app_assoc. exact E.
    * assert (Hl12 : length (buffer ++ take m stream)
                     = TELEMETRY_STRUCT_size) by lia.
      destruct (parse_frame_length _ Hl12) as [t Ht].
      assert (E1 : drain (length (buffer ++ take m stream)) pad_num ip pads
                     (buffer ++ take m stream)
                   = Drained (_apply_telemetry pads pad_num ip t) [] [t]).
      { rewrite Hl12. rewrite <- (app_nil_r (buffer ++ take m stream)).
        change TELEMETRY_STRUCT_size with (S 11).
        rewrite (drain_frame _ _ _ _ _ _ _ Ht).
        rewrite drain_short by (unfold TELEMETRY_STRUCT_size; simpl; lia).
        reflexivity. }
      rewrite E1. destruct (timed_out _ _).
      -- exists m, []. cbn [lr_pads lr_applied]. exact E1.
      -- destruct (IH (_apply_telemetry pads pad_num ip t) []
                     (ls_t_data s) (drop m stream)
                     ltac:(unfold TELEMETRY_STRUCT_size; simpl; lia))
           as (n & b & E).
         exists (m + n)%nat, b.
         rewrite <- take_take_drop, app_assoc.
         rewrite length_app, Hl12.
         change (TELEMETRY_STRUCT_size + length (take n (drop m stream)))%nat
           with (S (11 + length (take n (drop m stream)))).
         rewrite (drain_frame _ _ _ _ _ _ _ Ht).
         rewrite drain_fuel by lia.
         cbn [app] in E. rewrite E. reflexivity.
  + destruct (timed_out _ _); [exact Hnone | apply IH; exact Hb].
Qed.
End AnyScript.

Lemma telemetry_loop_prefix (script : list loop_step)
    (pad_num : Z) (ip : string) (pads : gmap Z Pad) (t0 : spec_float)
    (stream : list byte) :
  let r := _telemetry_loop script pad_num ip pads t0 stream in
  exists (n : nat) (partial : list byte),
    drain (length (take n stream)) pad_num ip pads (take n stream)
    = Drained (lr_pads r) partial (lr_applied r)
    /\ (length partial < TELEMETRY_STRUCT_size)%nat
    /\ lr_pads r = apply_all pads pad_num ip (lr_applied r).
Proof.
  cbn zeta. unfold _telemetry_loop.
  destruct (telemetry_iter_prefix pad_num ip script pads [] t0 stream
              ltac:(unfold TELEMETRY_STRUCT_size; simpl; lia))
    as (n & b & E).
  cbn [app] in E. exists n, b. split; [exact E |].
  destruct (drain_total pad_num ip _ pads (take n stream) (le_n _))
    as (pads' & b' & ts & E' & Hb & _).
  rewrite E in E'. injection E' as <- <- <-.
  split; [exact Hb |]. apply (drain_apply_all _ _ _ _ _ _ _ _ E).
Qed.


(** X16: whatever the network and the clock do -- short reads, pauses,
    errors, a peer that closes, a stop request -- the updates the
    telemetry loop has applied are exactly the decodings, in order, of
    the whole 12-byte frames at the start of the stream: no frame is
    skipped, repeated or decoded across a boundary, and the pad store is
    the initial one with those updates applied in order. *)
Theorem telemetry_loop_applies_prefix (script : list loop_step)
    (pad_num : Z) (ip : string) (pads : gmap Z Pad) (t0 : spec_float)
    (stream : list byte) :
  let r := _telemetry_loop script pad_num ip pads t0 stream in
  exists (n : nat) (partial : list byte),
    drain (length (take n stream)) pad_num ip pads (take n stream)
    = Drained (lr_pads r) partial (lr_applied r)
    /\ (length partial < TELEMETRY_STRUCT_size)%nat
    /\ lr_pads r = apply_all pads pad_num ip (lr_applied r).
Proof. apply telemetry_loop_prefix. Qed.

Lemma apply_all_other (pad_num k : Z) (ip : string) (ts : list telemetry) :
  forall pads : gmap Z Pad,
    k <> pad_num -> apply_all pads pad_num ip ts !! k = pads !! k.
Proof.
  induction ts as [| t ts IH]; intros pads Hk; [reflexivity |].
  cbn [apply_all foldl]. unfold apply_all in IH. rewrite IH by exact Hk.
  apply apply_telemetry_other. exact Hk.
Qed.

Lemma apply_all_own (pad_num : Z) (ip : string) (ts : list telemetry) :
  forall (pads : gmap Z Pad) (p : Pad),
    pads !! pad_num = Some p ->
    exists p', apply_all pads pad_num ip ts !! pad_num = Some p'
               /\ team_id p' = team_id p /\ buzzer_on p' = buzzer_on p
               /\ led_on p' = led_on p /\ rdy_on p' = rdy_on p.
Proof.
  induction ts as [| t ts IH]; intros pads p Hp.
  - exists p. auto.
  - cbn [apply_all foldl].
    destruct (IH (_apply_telemetry pads pad_num ip t)
                (telemetry_update ip t p)
                (apply_telemetry_lookup _ _ _ _ _ Hp))
      as (p' & E & H).
    exists p'. split; [exact E | exact H].
Qed.

Lemma apply_all_missing (pad_num : Z) (ip : string) (ts : list telemetry) :
  forall pads : gmap Z Pad,
    pads !! pad_num = None -> apply_all pads pad_num ip ts = pads.
Proof.
  induction ts as [| t ts IH]; intros pads Hp; [reflexivity |].
  cbn [apply_all foldl].
  assert (E : _apply_telemetry pads pad_num ip t = pads)
    by (unfold _apply_telemetry; rewrite Hp; reflexivity).
  rewrite E. apply IH. exact Hp.
Qed.

(** X17: a telemetry session is confined to its slot: however it runs,
    the record of every other slot is untouched, the operator's fields
    of its own slot (team id, buzzer, LED and ready flags) are kept, and
    a session for a slot that does not exist changes nothing. *)
Theorem telemetry_loop_confined (script : list loop_step) (pad_num : Z)
    (ip : string) (pads : gmap Z Pad) (t0 : spec_float)
    (stream : list byte) :
  let r := _telemetry_loop script pad_num ip pads t0 stream in
  (forall k : Z, k <> pad_num -> lr_pads r !! k = pads !! k)
  /\ (forall p : Pad,
        pads !! pad_num = Some p ->
        exists p', lr_pads r !! pad_num = Some p'
                   /\ team_id p' = team_id p /\ buzzer_on p' = buzzer_on p
                   /\ led_on p' = led_on p /\ rdy_on p' = rdy_on p)
  /\ (pads !! pad_num = None -> lr_pads r = pads).
Proof.
  cbn zeta.
  destruct (telemetry_loop_prefix script pad_num ip pads t0 stream)
    as (n & b & _ & _ & E).
  rewrite E. split; [| split].
  - intros k Hk. apply apply_all_other. exact Hk.
  - intros p Hp. apply apply_all_own. exact Hp.
  - apply apply_all_missing.
Qed.

Lemma telemetry_loop_confined_witness :
  lr_pads
    (_telemetry_loop [mkStep true (Readable 12) (S754_zero false)
                        (S754_zero false)]
       2 "10.0.0.7" pad_data_init (S754_zero false) example_frame) !! 3
  = pad_data_init !! 3.
Proof.
  destruct (telemetry_loop_confined
              [mkStep true (Readable 12) (S754_zero false) (S754_zero false)]
              2 "10.0.0.7" pad_data_init (S754_zero false) example_frame)
    as (H & _).
  apply (H 3). discriminate.
Defined.

(** ** The connection worker, for every run *)

(** X18: inside the telemetry loop the size check of [_parse_telemetry]
    never fires: whatever arrives, the loop never ends with the
    [ValueError], and no round of the worker ends with an exception that
    escapes it. *)
Theorem telemetry_loop_never_raises (script : list loop_step) (pad_num : Z)
    (ip : string) (pads : gmap Z Pad) (t0 : spec_float) (stream : list byte)
    (st : RLCU) (a : attempt) :
  lr_exit (_telemetry_loop script pad_num ip pads t0 stream)
  <> ExitValueError
  /\ snd (connection_attempt st pad_num ip a) <> AttemptRaised.
Proof.
  split; [apply telemetry_iter_never_raises |].
  unfold connection_attempt.
  destruct (a_connect a) as [c |]; [| discriminate].
  cbn [resync].
  set (r := _telemetry_loop _ _ _ _ _ _).
  pose proof (telemetry_iter_never_raises (a_script a) pad_num ip
                (pad_data st) [] (a_loop_start a) (a_stream a)) as Hr.
  fold (_telemetry_loop (a_script a) pad_num ip (pad_data st)
          (a_loop_start a) (a_stream a)) in Hr.
  change (lr_exit r <> ExitValueError) in Hr.
  destruct (lr_exit r); cbn [snd]; congruence.
Qed.

Lemma connection_attempt_connected (st : RLCU) (pad_num : Z) (ip : string)
    (a : attempt) (c : sock) :
  a_connect a = Some c ->
  let r := _telemetry_loop (a_script a) pad_num ip (pad_data st)
             (a_loop_start a) (a_stream a) in
  connection_attempt st pad_num ip a
  = (if still_running (lr_exit r)
     then session_state st pad_num ip a c
     else release (session_state st pad_num ip a c) ip,
     EvRegister ip c
     :: EvSendall ip (mask_payload (stored_mask st pad_num)) (a_sync_ok a)
     :: apply_events pad_num (lr_applied r)
     ++ EvLoopExit (lr_exit r)
     :: (if still_running (lr_exit r) then [] else [EvClose ip]),
     attempt_end_of (lr_exit r)).
Proof.
  intros Hc. cbn zeta. unfold connection_attempt, session_state.
  rewrite Hc. cbn [resync with_connections pad_data].
  set (r := _telemetry_loop _ _ _ _ _ _).
  change (stored_mask (with_connections st (<[ip := c]> (_connections st)))
            pad_num) with (stored_mask st pad_num).
  destruct (lr_exit r); cbn [attempt_end_of still_running app];
    rewrite <- ?app_assoc; reflexivity.
Qed.

Lemma connection_attempt_failed (st : RLCU) (pad_num : Z) (ip : string)
    (a : attempt) :
  a_connect a = None ->
  connection_attempt st pad_num ip a
  = (release st ip, [EvConnectFailed ip], AttemptDone).
Proof. intros H. unfold connection_attempt. rewrite H. reflexivity. Qed.

Lemma round_frame_refl (pad_num : Z) (ip : string) (st : RLCU) :
  round_frame pad_num ip st st.
Proof. constructor; auto; reflexivity. Qed.

Lemma round_frame_trans (pad_num : Z) (ip : string) (st1 st2 st3 : RLCU) :
  round_frame pad_num ip st1 st2 -> round_frame pad_num ip st2 st3 ->
  round_frame pad_num ip st1 st3.
Proof.
  intros [A1 A2 A3 A4 A5 A6 A7] [B1 B2 B3 B4 B5 B6 B7]. constructor.
  - congruence.
  - congruence.
  - intros k Hk. rewrite B3, A3 by exact Hk. reflexivity.
  - intros k. rewrite B4. apply A4.
  - intros k Hk. rewrite B5, A5 by exact Hk. reflexivity.
  - intros k Hk. rewrite B6, A6 by exact Hk. reflexivity.
  - intros k Hk. rewrite B7, A7 by exact Hk. reflexivity.
Qed.

Lemma round_frame_release (pad_num : Z) (ip : string) (st : RLCU) :
  round_frame pad_num ip st (release st ip).
Proof.
  constructor; try reflexivity.
  intros ip' Hne. apply lookup_delete_ne. congruence.
Qed.

Lemma round_frame_exit (pad_num : Z) (ip : string) (st : RLCU) :
  round_frame pad_num ip st
    (with_connection_threads st (delete ip (_connection_threads st))).
Proof.
  constructor; try reflexivity.
  intros ip' Hne. apply lookup_delete_ne. congruence.
Qed.

Lemma slots_apply_all (pad_num : Z) (ip : string) (ts : list telemetry) :
  forall (pads : gmap Z Pad) (k : Z),
    is_Some (apply_all pads pad_num ip ts !! k) <-> is_Some (pads !! k).
Proof.
  intros pads k. destruct (decide (k = pad_num)) as [-> | Hk].
  - destruct (pads !! pad_num) as [p |] eqn:E.
    + destruct (apply_all_own pad_num ip ts pads p E) as (p' & E' & _).
      rewrite E'. split; eauto.
    + rewrite apply_all_missing by exact E. rewrite E. reflexivity.
  - rewrite apply_all_other by exact Hk. reflexivity.
Qed.

Lemma round_frame_session (pad_num : Z) (ip : string) (st : RLCU)
    (a : attempt) (c : sock) :
  round_frame pad_num ip st (session_state st pad_num ip a c).
Proof.
  unfold session_state.
  destruct (telemetry_loop_prefix (a_script a) pad_num ip (pad_data st)
              (a_loop_start a) (a_stream a)) as (n & b & _ & _ & E).
  constructor; cbn [with_pad_data with_command_history with_connections
                    pad_data _command_state _command_history _connections
                    _connection_threads _pad_peers]; try reflexivity.
  - intros k Hk. rewrite E. apply apply_all_other. exact Hk.
  - intros k. rewrite E. apply slots_apply_all.
  - intros k Hk. apply lookup_insert_ne. congruence.
  - intros ip' Hne. apply lookup_insert_ne. congruence.
Qed.

Lemma round_frame_attempt (pad_num : Z) (ip : string) (st : RLCU)
    (a : attempt) :
  round_frame pad_num ip st (fst (fst (connection_attempt st pad_num ip a))).
Proof.
  destruct (a_connect a) as [c |] eqn:Hc.
  - rewrite (connection_attempt_connected _ _ _ _ _ Hc). cbn [fst].
    destruct (still_running _).
    + apply round_frame_session.
    + eapply round_frame_trans;
        [apply round_frame_session | apply round_frame_release].
  - rewrite (connection_attempt_failed _ _ _ _ Hc). cbn [fst].
    apply round_frame_release.
Qed.

Lemma round_frame_worker (attempts : list attempt) (pad_num : Z)
    (ip : string) :
  forall st : RLCU,
    round_frame pad_num ip st
      (fst (_connection_worker attempts st pad_num ip)).
Proof.
  induction attempts as [| a rest IH]; intros st; cbn [_connection_worker].
  - apply round_frame_refl.
  - destruct (negb (a_running a)); [apply round_frame_exit |].
    pose proof (round_frame_attempt pad_num ip st a) as Ha.
    destruct (connection_attempt st pad_num ip a) as [[st1 events] e].
    cbn [fst] in Ha. destruct e; cbn [fst]; try exact Ha.
    destruct (negb (a_running_after a)); cbn [fst].
    + eapply round_frame_trans; [exact Ha | apply round_frame_exit].
    + specialize (IH st1).
      destruct (_connection_worker rest st1 pad_num ip) as [st2 more].
      cbn [fst] in *. eapply round_frame_trans; eassumption.
Qed.

(** X19: a worker is confined to its slot and its address, however many
    rounds it runs and however they end: it never changes a stored
    command mask (of any slot), never creates or deletes a slot, and
    leaves untouched the pad record and the command history of every
    other slot, and the session and the worker entry of every other
    address. *)
Theorem worker_confined (attempts : list attempt) (st : RLCU) (pad_num : Z)
    (ip : string) :
  let st' := fst (_connection_worker attempts st pad_num ip) in
  (forall k : Z, stored_mask st' k = stored_mask st k)
  /\ (forall k : Z, is_Some (pad_data st' !! k) <-> is_Some (pad_data st !! k))
  /\ (forall k : Z, k <> pad_num ->
        pad_data st' !! k = pad_data st !! k
        /\ _command_history st' !! k = _command_history st !! k)
  /\ (forall ip' : string, ip' <> ip ->
        _connections st' !! ip' = _connections st !! ip'
        /\ _connection_threads st' !! ip' = _connection_threads st !! ip').
Proof.
  cbn zeta. destruct (round_frame_worker attempts pad_num ip st)
    as [A1 A2 A3 A4 A5 A6 A7].
  split; [intros k; unfold stored_mask; rewrite A1; reflexivity |].
  split; [exact A4 |]. split; intros k Hk; split; auto.
Qed.

Lemma worker_confined_witness :
  pad_data
    (fst (_connection_worker [failed_sync_attempt] st_bound 0 "10.0.0.7"))
  !! 1
  = pad_data st_bound !! 1.
Proof.
  destruct (worker_confined [failed_sync_attempt] st_bound 0 "10.0.0.7")
    as (_ & _ & H & _).
  apply (H 1). discriminate.
Defined.

(** *** The trace of a worker *)

Lemma rts_apply_events (pad_num : Z) (ts : list telemetry)
    (l : list event) :
  register_then_sync (apply_events pad_num ts ++ l) = register_then_sync l.
Proof.
  induction ts as [| t ts IH]; [reflexivity |]. exact IH.
Qed.

Lemma rts_round (ip : string) (c : sock) (mask : Z) (ok : bool)
    (pad_num : Z) (ts : list telemetry) (e : loop_exit)
    (closing more : list event) :
  closing = [] \/ closing = [EvClose ip] ->
  register_then_sync
    ((EvRegister ip c :: EvSendall ip (mask_payload mask) ok
      :: apply_events pad_num ts ++ EvLoopExit e :: closing) ++ more)
  = register_then_sync more.
Proof.
  intros Hc. cbn [app register_then_sync mask_payload].
  rewrite String.eqb_refl. cbn [andb].
  rewrite <- app_assoc, rts_apply_events. cbn [app register_then_sync].
  destruct Hc as [-> | ->]; reflexivity.
Qed.

Lemma sends_only_nil (payload : list byte) : sends_only payload [].
Proof. intros ip p ok H. inversion H. Qed.

Lemma sends_only_app (payload : list byte) (l1 l2 : list event) :
  sends_only payload l1 -> sends_only payload l2 ->
  sends_only payload (l1 ++ l2).
Proof.
  intros H1 H2 ip p ok H. apply elem_of_app in H as [H | H]; eauto.
Qed.

Lemma sends_only_other (payload : list byte) (e : event) (l : list event) :
  (forall ip p ok, e <> EvSendall ip p ok) ->
  sends_only payload l -> sends_only payload (e :: l).
Proof.
  intros He Hl ip p ok H. apply elem_of_cons in H as [H | H]; eauto.
  symmetry in H. destruct (He _ _ _ H).
Qed.

Lemma sends_only_apply_events (payload : list byte) (pad_num : Z)
    (ts : list telemetry) :
  sends_only payload (apply_events pad_num ts).
Proof.
  intros ip p ok H. unfold apply_events in H.
  apply list_elem_of_fmap in H as (t & [=] & _).
Qed.

Lemma sends_only_round (ip : string) (c : sock) (mask : Z) (ok : bool)
    (pad_num : Z) (ts : list telemetry) (e : loop_exit)
    (closing : list event) :
  closing = [] \/ closing = [EvClose ip] ->
  sends_only (mask_payload mask)
    (EvRegister ip c :: EvSendall ip (mask_payload mask) ok
     :: apply_events pad_num ts ++ EvLoopExit e :: closing).
Proof.
  intros Hc. apply sends_only_other; [discriminate |].
  intros ip' p ok' H. apply elem_of_cons in H as [[= _ -> _] | H];
    [reflexivity |].
  revert ip' p ok' H. apply sends_only_app;
    [apply sends_only_apply_events |].
  apply sends_only_other; [discriminate |].
  destruct Hc as [-> | ->]; [apply sends_only_nil |].
  apply sends_only_other; [discriminate | apply sends_only_nil].
Qed.

Lemma worker_trace (attempts : list attempt) (pad_num : Z) (ip : string) :
  forall st : RLCU,
    register_then_sync (snd (_connection_worker attempts st pad_num ip))
    = true
    /\ sends_only (mask_payload (stored_mask st pad_num))
         (snd (_connection_worker attempts st pad_num ip)).
Proof.
  induction attempts as [| a rest IH]; intros st; cbn [_connection_worker].
  - split; [reflexivity | apply sends_only_nil].
  - destruct (negb (a_running a)).
    { split; [reflexivity |].
      apply sends_only_other; [discriminate | apply sends_only_nil]. }
    pose proof (round_frame_attempt pad_num ip st a) as Hf.
    destruct (a_connect a) as [c |] eqn:Hc.
    + rewrite (connection_attempt_connected _ _ _ _ _ Hc) in *.
      cbn [fst] in Hf.
      set (r := _telemetry_loop (a_script a) pad_num ip (pad_data st)
                  (a_loop_start a) (a_stream a)) in *.
      set (closing := if still_running (lr_exit r) then []
                      else [EvClose ip]).
      assert (Hcl : closing = [] \/ closing = [EvClose ip])
        by (subst closing; destruct (still_running _); auto).
      set (st1 := if still_running (lr_exit r)
                  then session_state st pad_num ip a c
                  else release (session_state st pad_num ip a c) ip) in *.
      assert (Hround :
                register_then_sync
                  (EvRegister ip c
                   :: EvSendall ip (mask_payload (stored_mask st pad_num))
                        (a_sync_ok a)
                   :: apply_events pad_num (lr_applied r)
                   ++ EvLoopExit (lr_exit r) :: closing) = true).
      { rewrite <- (app_nil_r (_ :: _ :: _ ++ _)).
        rewrite (rts_round _ _ _ _ _ _ _ _ _ Hcl). reflexivity. }
      pose proof (sends_only_round ip c (stored_mask st pad_num)
                    (a_sync_ok a) pad_num (lr_applied r) (lr_exit r)
                    closing Hcl) as Hsend.
      destruct (attempt_end_of (lr_exit r)); cbn [snd];
        try (split; assumption).
      destruct (negb (a_running_after a)); cbn [snd].
      * split.
        -- rewrite (rts_round _ _ _ _ _ _ _ _ _ Hcl). reflexivity.
        -- apply sends_only_app; [exact Hsend |].
           apply sends_only_other; [discriminate | apply sends_only_nil].
      * destruct (IH st1) as [R1 R2].
        assert (Hm : stored_mask st1 pad_num = stored_mask st pad_num)
          by (unfold stored_mask; rewrite (rf_command_state _ _ _ _ Hf);
              reflexivity).
        rewrite Hm in R2.
        destruct (_connection_worker rest st1 pad_num ip) as [st2 more].
        cbn [snd] in *. split.
        -- rewrite (rts_round _ _ _ _ _ _ _ _ _ Hcl).
           cbn [register_then_sync]. exact R1.
        -- apply sends_only_app; [exact Hsend |].
           apply sends_only_other; [discriminate | exact R2].
    + rewrite (connection_attempt_failed _ _ _ _ Hc) in *. cbn [fst] in Hf.
      destruct (negb (a_running_after a)); cbn [snd].
      * split; [reflexivity |].
        apply sends_only_other; [discriminate |].
        apply sends_only_other; [discriminate | apply sends_only_nil].
      * destruct (IH (release st ip)) as [R1 R2].
        assert (Hm : stored_mask (release st ip) pad_num
                     = stored_mask st pad_num) by reflexivity.
        rewrite Hm in R2.
        destruct (_connection_worker rest (release st ip) pad_num ip)
          as [st2 more].
        cbn [snd app] in *. split; [exact R1 |].
        apply sends_only_other; [discriminate |].
        apply sends_only_other; [discriminate | exact R2].
Qed.


Lemma last_round (ip : string) (c : sock) (payload : list byte) (ok : bool)
    (pad_num : Z) (ts : list telemetry) (e : loop_exit)
    (closing : list event) :
  last (EvRegister ip c :: EvSendall ip payload ok
        :: apply_events pad_num ts ++ EvLoopExit e :: closing)
  = last (EvLoopExit e :: closing).
Proof.
  change (EvRegister ip c :: EvSendall ip payload ok
          :: apply_events pad_num ts ++ EvLoopExit e :: closing)
    with ((EvRegister ip c :: EvSendall ip payload ok
           :: apply_events pad_num ts) ++ EvLoopExit e :: closing).
  apply last_app_cons.
Qed.

Lemma worker_session (attempts : list attempt) (pad_num : Z) (ip : string) :
  forall st : RLCU,
    _connections st !! ip = None ->
    let st' := fst (_connection_worker attempts st pad_num ip) in
    let trace := snd (_connection_worker attempts st pad_num ip) in
    (last trace = Some (EvLoopExit StillRunning)
     /\ is_Some (_connections st' !! ip))
    \/ (last trace <> Some (EvLoopExit StillRunning)
        /\ _connections st' !! ip = None
        /\ (last trace = Some EvWorkerExit ->
            _connection_threads st' !! ip = None)).
Proof.
  induction attempts as [| a rest IH]; intros st Hst; cbn zeta;
    cbn [_connection_worker].
  - right. cbn. split; [discriminate |]. split; [exact Hst | discriminate].
  - destruct (negb (a_running a)).
    { right. cbn. split; [discriminate |]. split; [exact Hst |].
      intros _. apply lookup_delete_eq. }
    destruct (a_connect a) as [c |] eqn:Hc.
    + rewrite (connection_attempt_connected _ _ _ _ _ Hc).
      set (r := _telemetry_loop (a_script a) pad_num ip (pad_data st)
                  (a_loop_start a) (a_stream a)).
      destruct (lr_exit r) eqn:Ee; cbn [still_running attempt_end_of].
      6: { left. cbn [fst snd]. rewrite last_round. split; [reflexivity |].
           unfold session_state. cbn. rewrite lookup_insert_eq. eauto. }
      5: { right. cbn [fst snd]. rewrite last_round. cbn.
           split; [discriminate |]. split; [apply lookup_delete_eq |].
           discriminate. }
      all: assert (Hrel : _connections
                            (release (session_state st pad_num ip a c) ip)
                          !! ip = None) by apply lookup_delete_eq.
      all: destruct (negb (a_running_after a)); cbn [fst snd].
      all: try (right; rewrite last_snoc; split; [discriminate |];
                split; [exact Hrel | intros _; apply lookup_delete_eq]).
      all: specialize (IH _ Hrel); cbn zeta in IH;
        destruct (_connection_worker rest _ pad_num ip) as [st2 more];
        cbn [fst snd] in *; rewrite last_app_cons, last_cons;
        destruct IH as [[H1 H2] | (H1 & H2 & H3)];
        [left; rewrite H1; auto |
         right; destruct (last more) as [e' |];
         [split; [exact H1 | split; [exact H2 | exact H3]]
         | split; [discriminate | split; [exact H2 | discriminate]]]].
    + rewrite (connection_attempt_failed _ _ _ _ Hc).
      assert (Hrel : _connections (release st ip) !! ip = None)
        by apply lookup_delete_eq.
      destruct (negb (a_running_after a)); cbn [fst snd].
      * right. cbn. split; [discriminate |]. split; [exact Hrel |].
        intros _. apply lookup_delete_eq.
      * specialize (IH _ Hrel). cbn zeta in IH.
        destruct (_connection_worker rest _ pad_num ip) as [st2 more].
        cbn [fst snd app] in *. rewrite last_cons_cons, last_cons.
        destruct IH as [[H1 H2] | (H1 & H2 & H3)];
          [left; rewrite H1; auto |
           right; destruct (last more) as [e' |];
           [split; [exact H1 | split; [exact H2 | exact H3]]
           | split; [discriminate | split; [exact H2 | discriminate]]]].
Qed.

(** X21: a worker publishes its session only while the session lasts:
    started without a session for its address, a worker has one
    registered exactly when it stands in the middle of a telemetry loop;
    once the loop has ended, for whatever reason, or the connect has
    failed, the address has no session, and a worker that has exited
    has removed itself from the worker table. *)
Theorem worker_releases_session (attempts : list attempt) (st : RLCU)
    (pad_num : Z) (ip : string) :
  _connections st !! ip = None ->
  let st' := fst (_connection_worker attempts st pad_num ip) in
  let trace := snd (_connection_worker attempts st pad_num ip) in
  (is_Some (_connections st' !! ip)
   <-> last trace = Some (EvLoopExit StillRunning))
  /\ (last trace = Some EvWorkerExit ->
      _connection_threads st' !! ip = None).
Proof.
  intros Hst. cbn zeta.
  destruct (worker_session attempts pad_num ip st Hst)
    as [[H1 H2] | (H1 & H2 & H3)].
  - split; [tauto |]. rewrite H1. discriminate.
  - split; [| exact H3]. rewrite H2. split; [intros [? [=]] | tauto].
Qed.

Lemma worker_releases_session_witness :
  is_Some
    (_connections
       (fst (_connection_worker [failed_sync_attempt] st_bound 0 "10.0.0.7"))
     !! "10.0.0.7")
  <-> last (snd (_connection_worker [failed_sync_attempt] st_bound 0
                   "10.0.0.7"))
      = Some (EvLoopExit StillRunning).
Proof.
  apply (worker_releases_session [failed_sync_attempt] st_bound 0
           "10.0.0.7").
  reflexivity.
Defined.

(** ** The serial link *)

(** X22: [send_status_update] packs its three flags into the low three
    bits of the mask -- bit 0 is [arm_hmi], bit 1 is [arm_pad], bit 2 is
    [continuity], nothing above -- and records that mask whether or not
    the port is open; exactly that one byte reaches the port when it is
    open and the write succeeds, and nothing otherwise. *)
Theorem status_update_mask (s : RLCUSerial) (arm_pad arm_hmi continuity : bool)
    (write_ok : bool) :
  let s' := fst (send_status_update s arm_pad arm_hmi continuity write_ok) in
  let sent := snd (send_status_update s arm_pad arm_hmi continuity write_ok) in
  Z.testbit (_tx_mask s') 0 = arm_hmi
  /\ Z.testbit (_tx_mask s') 1 = arm_pad
  /\ Z.testbit (_tx_mask s') 2 = continuity
  /\ 0 <= _tx_mask s' < 8
  /\ _rx_mask s' = _rx_mask s
  /\ byte_val <$> sent
     = (if is_serial_open s && write_ok then [_tx_mask s'] else []).
Proof.
  cbn zeta. unfold send_status_update, _write_byte. cbn [fst snd _tx_mask].
  destruct (is_serial_open s && write_ok);
    destruct arm_hmi, arm_pad, continuity; vm_compute; repeat split;
    discriminate.
Qed.

Lemma listen_no_callback (steps : list serial_step) :
  forall s : RLCUSerial,
    _event_callback s = false -> snd (_listen_serial steps s) = [].
Proof.
  induction steps as [| step steps IH]; intros s Hs; [reflexivity |].
  cbn [_listen_serial].
  destruct step as [| b | |]; try reflexivity;
    destruct (negb (is_serial_open s)); try reflexivity.
  - unfold _handle_rx_byte. rewrite Hs.
    destruct (byte_val b =? _rx_mask s).
    + specialize (IH s Hs).
      destruct (_listen_serial steps s) as [s2 evs]. exact IH.
    + match goal with
      | |- context [_listen_serial steps ?s1] =>
          specialize (IH s1 ltac:(first [exact Hs | reflexivity]));
          destruct (_listen_serial steps s1)
      end.
      exact IH.
  - apply IH. exact Hs.
Qed.

Lemma listen_rising_edges (steps : list serial_step) :
  forall s : RLCUSerial,
    _event_callback s = true ->
    rising_edges (bit_set (_rx_mask s) RX_LAUNCH)
      (snd (_listen_serial steps s)) = true.
Proof.
  induction steps as [| step steps IH]; intros s Hs; [reflexivity |].
  cbn [_listen_serial].
  destruct step as [| b | |]; try reflexivity;
    destruct (negb (is_serial_open s)); try reflexivity.
  - unfold _handle_rx_byte. rewrite Hs.
    destruct (Z.eqb_spec (byte_val b) (_rx_mask s)) as [E | E].
    + specialize (IH s Hs).
      destruct (_listen_serial steps s) as [s2 evs]. exact IH.
    + match goal with
      | |- context [_listen_serial steps ?s1] =>
          specialize (IH s1 ltac:(first [exact Hs | reflexivity]));
          destruct (_listen_serial steps s1)
            as [s2 evs]
      end.
      cbn [snd rising_edges ev_launch ev_launch_edge _rx_mask] in *.
      rewrite IH, Bool.eqb_reflx. reflexivity.
  - apply IH. exact Hs.
Qed.

(** X23: the listener reports changes only, and its launch edges are
    rising edges: with a callback registered, in the sequence of events
    delivered over any run every [launch_edge] is set exactly when the
    launch bit is set in that event and was clear in the event before it
    (or in the mask the listener started from), so two launch edges are
    always separated by an event with the launch bit clear; without a
    callback nothing is delivered. *)
Theorem listener_rising_edges (steps : list serial_step) (s : RLCUSerial) :
  (_event_callback s = true ->
   rising_edges (bit_set (_rx_mask s) RX_LAUNCH)
     (snd (_listen_serial steps s)) = true)
  /\ (_event_callback s = false -> snd (_listen_serial steps s) = []).
Proof.
  split; [apply listen_rising_edges | apply listen_no_callback].
Qed.

Lemma listener_rising_edges_witness :
  rising_edges false
    (snd (_listen_serial [SerByte x02; SerByte x02; SerIdle; SerByte x03;
                          SerByte x01; SerByte x02]
            (mkSerial (Some true) true true 0 0))) = true.
Proof.
  apply (proj1 (listener_rising_edges
                  [SerByte x02; SerByte x02; SerIdle; SerByte x03;
                   SerByte x01; SerByte x02]
                  (mkSerial (Some true) true true 0 0))).
  reflexivity.
Defined.

(** X24: a byte equal to the last one received is dropped without a
    trace: it changes no state and delivers no event, so receiving a
    byte twice in a row, or pausing between bytes, gives the run of the
    listener without the repetition or the pause. *)
Theorem listener_drops_repeats (steps : list serial_step) (s : RLCUSerial)
    (b : byte) :
  is_serial_open s = true ->
  _handle_rx_byte s (_rx_mask s) = (s, None)
  /\ _listen_serial (SerByte b :: SerByte b :: steps) s
     = _listen_serial (SerByte b :: steps) s
  /\ _listen_serial (SerIdle :: steps) s = _listen_serial steps s.
Proof.
  intros Ho. split; [| split].
  - unfold _handle_rx_byte. rewrite Z.eqb_refl. reflexivity.
  - cbn [_listen_serial]. rewrite Ho. cbn [negb].
    destruct (_handle_rx_byte s (byte_val b)) as [s1 ev] eqn:E1.
    assert (Ho1 : is_serial_open s1 = true /\ _rx_mask s1 = byte_val b).
    { unfold _handle_rx_byte in E1.
      destruct (Z.eqb_spec (byte_val b) (_rx_mask s)) as [Eb | Eb];
        injection E1 as <- <-; auto. }
    destruct Ho1 as [Ho1 Hr1]. rewrite Ho1. cbn [negb].
    assert (E2 : _handle_rx_byte s1 (byte_val b) = (s1, None)).
    { unfold _handle_rx_byte. rewrite Hr1, Z.eqb_refl. reflexivity. }
    rewrite E2. destruct (_listen_serial steps s1) as [s2 evs].
    reflexivity.
  - cbn [_listen_serial]. rewrite Ho. reflexivity.
Qed.

Lemma listener_drops_repeats_witness :
  _listen_serial [SerByte x02; SerByte x02; SerByte x03]
    (mkSerial (Some true) true true 0 0)
  = _listen_serial [SerByte x02; SerByte x03]
      (mkSerial (Some true) true true 0 0).
Proof.
  apply (listener_drops_repeats [SerByte x03]
           (mkSerial (Some true) true true 0 0) x02).
  reflexivity.
Defined.

(** ** The operator's toggle buttons *)

Lemma toggle_flag_no_connection (flag : Pad -> bool) (command : Z)
    (write : bool -> operator_write) (st : RLCU) (pad_num : Z) (ok : bool)
    (now : spec_float) (p : Pad) :
  pad_data st !! pad_num = Some p ->
  has_active_connection st pad_num = false ->
  toggle_flag flag command write st pad_num ok now
  = Some (st, [], (if buzzer_on p then "Buzzer OFF" else "Buzzer ON",
                   if led_on p then "LED OFF" else "LED ON")).
Proof.
  intros Hp Hc. unfold toggle_flag. rewrite Hp.
  apply has_active_connection_dead in Hc.
  rewrite (send_command_no_connection _ _ _ _ _ _ Hc).
  unfold update_button_texts. rewrite Hp. reflexivity.
Qed.

(** A press on a connected slot: the byte handed to the transport is the
    stored mask with the command's bits set or cleared, opposite to the
    flag; that mask is stored and recorded; the flag is written only
    after a successful write. *)
Lemma toggle_flag_connected (flag : Pad -> bool) (command : Z)
    (write : bool -> operator_write) (st : RLCU) (pad_num : Z) (ok : bool)
    (now : spec_float) (p : Pad) :
  pad_data st !! pad_num = Some p ->
  has_active_connection st pad_num = true ->
  command <> 0 ->
  let mask := if flag p
              then Z.land (stored_mask st pad_num) (Z.lnot command)
              else Z.lor (stored_mask st pad_num) command in
  let p' := if ok then operator_update (write (negb (flag p))) p else p in
  exists st' : RLCU,
    toggle_flag flag command write st pad_num ok now
    = Some (st', [EvSendall (pad_ip st pad_num) (mask_payload mask) ok],
            (if buzzer_on p' then "Buzzer OFF" else "Buzzer ON",
             if led_on p' then "LED OFF" else "LED ON"))
    /\ pad_data st'
       = (if ok then <[pad_num := p']> (pad_data st) else pad_data st)
    /\ pad_data st' !! pad_num = Some p'
    /\ stored_mask st' pad_num = mask
    /\ get_last_command_status st' pad_num = Some (mkCmd mask ok now).
Proof.
  intros Hp Hc Hcmd mask p'.
  apply has_active_connection_live in Hc as [c Hc].
  unfold toggle_flag. rewrite Hp.
  rewrite (send_command_connected _ _ _ _ _ _ c Hc).
  assert (Ha : attempted_mask st pad_num (Some command)
                 (Some (negb (flag p))) = mask).
  { unfold attempted_mask, next_mask, truthy, command_value. subst mask.
    apply Z.eqb_neq in Hcmd. rewrite Hcmd.
    destruct (flag p); reflexivity. }
  assert (Hn : fst (next_mask (stored_mask st pad_num) (Some command)
                      (Some (negb (flag p)))) = Some mask).
  { unfold next_mask, truthy, command_value. subst mask.
    apply Z.eqb_neq in Hcmd. rewrite Hcmd.
    destruct (flag p); reflexivity. }
  rewrite Ha, Hn.
  set (st1 := with_command_history _ _).
  assert (Hd1 : pad_data st1 = pad_data st) by reflexivity.
  assert (Hm1 : stored_mask st1 pad_num = mask)
    by (subst st1; apply stored_mask_persist).
  assert (Hh1 : get_last_command_status st1 pad_num
                = Some (mkCmd mask ok now)).
  { subst st1. unfold get_last_command_status.
    rewrite command_history_persist. apply lookup_insert_eq. }
  destruct ok; subst p'.
  - rewrite Hd1, Hp. unfold update_button_texts.
    cbn [with_pad_data pad_data]. rewrite lookup_insert_eq.
    eexists. split; [reflexivity |].
    cbn [with_pad_data pad_data]. rewrite lookup_insert_eq.
    split; [reflexivity |]. split; [reflexivity |].
    split; [exact Hm1 | exact Hh1].
  - unfold update_button_texts. rewrite Hd1, Hp.
    exists st1. split; [reflexivity |]. split; [exact Hd1 |].
    split; [rewrite Hd1; exact Hp |]. split; [exact Hm1 | exact Hh1].
Qed.

Lemma toggled_bit (state : Z) (i : Z) (on : bool) :
  0 <= i ->
  let mask := if on then Z.land state (Z.lnot (2 ^ i))
              else Z.lor state (2 ^ i) in
  Z.testbit mask i = negb on
  /\ forall n : Z, 0 <= n -> n <> i -> Z.testbit mask n = Z.testbit state n.
Proof.
  intros Hi mask. subst mask. split.
  - destruct on.
    + rewrite Z.land_spec, Z.lnot_spec, Z.pow2_bits_true by lia.
      apply andb_false_r.
    + rewrite Z.lor_spec, Z.pow2_bits_true by lia. apply orb_true_r.
  - intros n Hn Hne. destruct on.
    + rewrite Z.land_spec, Z.lnot_spec, Z.pow2_bits_false by lia.
      apply andb_true_r.
    + rewrite Z.lor_spec, Z.pow2_bits_false by lia. apply orb_false_r.
Qed.

(** X25: the buzzer button follows the command path.  Without an active
    connection a press changes nothing: no byte is sent, and flag, label
    and stored mask stay.  With one, exactly one byte is sent: the stored
    mask with the buzzer bit (bit 3) in the state opposite to the flag
    and every other bit kept; that mask is stored and recorded in the
    history with the outcome of the write; the flag is flipped, and the
    label with it, exactly when the write succeeded; after a failed write
    flag and label still show the old state although the stored mask
    already holds the new one. *)
Theorem toggle_buzzer_follows_send (st : RLCU) (pad_num : Z) (ok : bool)
    (now : spec_float) (p : Pad) :
  pad_data st !! pad_num = Some p ->
  let mask := if buzzer_on p
              then Z.land (stored_mask st pad_num) (Z.lnot CMD_BUZZER)
              else Z.lor (stored_mask st pad_num) CMD_BUZZER in
  (has_active_connection st pad_num = false ->
   toggle_buzzer st pad_num ok now
   = Some (st, [], (if buzzer_on p then "Buzzer OFF" else "Buzzer ON",
                    if led_on p then "LED OFF" else "LED ON")))
  /\ (has_active_connection st pad_num = true ->
      exists (st' : RLCU) (p' : Pad),
        toggle_buzzer st pad_num ok now
        = Some (st', [EvSendall (pad_ip st pad_num) (mask_payload mask) ok],
                (if buzzer_on p' then "Buzzer OFF" else "Buzzer ON",
                 if led_on p' then "LED OFF" else "LED ON"))
        /\ pad_data st'
           = (if ok then <[pad_num := p']> (pad_data st) else pad_data st)
        /\ pad_data st' !! pad_num = Some p'
        /\ buzzer_on p' = (if ok then negb (buzzer_on p) else buzzer_on p)
        /\ led_on p' = led_on p
        /\ stored_mask st' pad_num = mask
        /\ get_last_command_status st' pad_num = Some (mkCmd mask ok now)
        /\ Z.testbit mask 3 = negb (buzzer_on p)
        /\ (forall n, 0 <= n -> n <> 3 ->
              Z.testbit mask n = Z.testbit (stored_mask st pad_num) n)).
Proof.
  intros Hp mask. split.
  - intros Hc. apply (toggle_flag_no_connection _ _ _ _ _ _ _ _ Hp Hc).
  - intros Hc.
    destruct (toggle_flag_connected buzzer_on CMD_BUZZER SetBuzzerOn st
                pad_num ok now p Hp Hc ltac:(discriminate))
      as (st' & E & Hd & Hl & Hm & Hh).
    exists st', (if ok then operator_update (SetBuzzerOn (negb (buzzer_on p))) p
                 else p).
    split; [exact E |]. split; [exact Hd |]. split; [exact Hl |].
    split; [destruct ok; reflexivity |].
    split; [destruct ok; reflexivity |].
    split; [exact Hm |]. split; [exact Hh |].
    apply (toggled_bit (stored_mask st pad_num) 3 (buzzer_on p)). lia.
Qed.

Lemma toggle_buzzer_follows_send_witness :
  toggle_buzzer st_bound 0 true (S754_zero false)
  = Some (st_bound, [], ("Buzzer ON", "LED ON"))
  /\ (exists st' : RLCU,
        toggle_buzzer st_connected 0 true (S754_zero false)
        = Some (st', [EvSendall "10.0.0.7" [x08] true],
                ("Buzzer OFF", "LED ON"))
        /\ stored_mask st' 0 = 8)
  /\ (exists st' : RLCU,
        toggle_buzzer st_connected 0 false (S754_zero false)
        = Some (st', [EvSendall "10.0.0.7" [x08] false],
                ("Buzzer ON", "LED ON"))
        /\ stored_mask st' 0 = 8).
Proof.
  split; [| split].
  - apply (proj1 (toggle_buzzer_follows_send st_bound 0 true
                    (S754_zero false) (mark_contact "10.0.0.7" Pad_init)
                    eq_refl)).
    reflexivity.
  - destruct (proj2 (toggle_buzzer_follows_send st_connected 0 true
                       (S754_zero false) (mark_contact "10.0.0.7" Pad_init)
                       eq_refl) eq_refl)
      as (st' & p' & E & _ & _ & Hb & Hl & Hm & _).
    exists st'. rewrite Hb, Hl in E. split; [exact E | exact Hm].
  - destruct (proj2 (toggle_buzzer_follows_send st_connected 0 false
                       (S754_zero false) (mark_contact "10.0.0.7" Pad_init)
                       eq_refl) eq_refl)
      as (st' & p' & E & _ & _ & Hb & Hl & Hm & _).
    exists st'. rewrite Hb, Hl in E. split; [exact E | exact Hm].
Defined.

(** X28: the LED button follows the command path in the same way.
    Without an active connection a press changes nothing and sends
    nothing.  With one, exactly one byte is sent: the stored mask with
    the LED bit (bit 2) in the state opposite to the flag and every other
    bit kept; that mask is stored and recorded in the history with the
    outcome of the write; the flag and the label flip exactly when the
    write succeeded. *)
Theorem toggle_led_follows_send (st : RLCU) (pad_num : Z) (ok : bool)
    (now : spec_float) (p : Pad) :
  pad_data st !! pad_num = Some p ->
  let mask := if led_on p
              then Z.land (stored_mask st pad_num) (Z.lnot CMD_LED)
              else Z.lor (stored_mask st pad_num) CMD_LED in
  (has_active_connection st pad_num = false ->
   toggle_led st pad_num ok now
   = Some (st, [], (if buzzer_on p then "Buzzer OFF" else "Buzzer ON",
                    if led_on p then "LED OFF" else "LED ON")))
  /\ (has_active_connection st pad_num = true ->
      exists (st' : RLCU) (p' : Pad),
        toggle_led st pad_num ok now
        = Some (st', [EvSendall (pad_ip st pad_num) (mask_payload mask) ok],
                (if buzzer_on p' then "Buzzer OFF" else "Buzzer ON",
                 if led_on p' then "LED OFF" else "LED ON"))
        /\ pad_data st'
           = (if ok then <[pad_num := p']> (pad_data st) else pad_data st)
        /\ pad_data st' !! pad_num = Some p'
        /\ led_on p' = (if ok then negb (led_on p) else led_on p)
        /\ buzzer_on p' = buzzer_on p
        /\ stored_mask st' pad_num = mask
        /\ get_last_command_status st' pad_num = Some (mkCmd mask ok now)
        /\ Z.testbit mask 2 = negb (led_on p)
        /\ (forall n, 0 <= n -> n <> 2 ->
              Z.testbit mask n = Z.testbit (stored_mask st pad_num) n)).
Proof.
  intros Hp mask. split.
  - intros Hc. apply (toggle_flag_no_connection _ _ _ _ _ _ _ _ Hp Hc).
  - intros Hc.
    destruct (toggle_flag_connected led_on CMD_LED SetLedOn st
                pad_num ok now p Hp Hc ltac:(discriminate))
      as (st' & E & Hd & Hl & Hm & Hh).
    exists st', (if ok then operator_update (SetLedOn (negb (led_on p))) p
                 else p).
    split; [exact E |]. split; [exact Hd |]. split; [exact Hl |].
    split; [destruct ok; reflexivity |].
    split; [destruct ok; reflexivity |].
    split; [exact Hm |]. split; [exact Hh |].
    apply (toggled_bit (stored_mask st pad_num) 2 (led_on p)). lia.
Qed.

Lemma toggle_led_follows_send_witness :
  toggle_led st_bound 0 true (S754_zero false)
  = Some (st_bound, [], ("Buzzer ON", "LED ON"))
  /\ (exists st' : RLCU,
        toggle_led st_connected 0 true (S754_zero false)
        = Some (st', [EvSendall "10.0.0.7" [x04] true],
                ("Buzzer ON", "LED OFF"))
        /\ stored_mask st' 0 = 4)
  /\ (exists st' : RLCU,
        toggle_led st_connected 0 false (S754_zero false)
        = Some (st', [EvSendall "10.0.0.7" [x04] false],
                ("Buzzer ON", "LED ON"))
        /\ stored_mask st' 0 = 4).
Proof.
  split; [| split].
  - apply (proj1 (toggle_led_follows_send st_bound 0 true
                    (S754_zero false) (mark_contact "10.0.0.7" Pad_init)
                    eq_refl)).
    reflexivity.
  - destruct (proj2 (toggle_led_follows_send st_connected 0 true
                       (S754_zero false) (mark_contact "10.0.0.7" Pad_init)
                       eq_refl) eq_refl)
      as (st' & p' & E & _ & _ & Hb & Hl & Hm & _).
    exists st'. rewrite Hb, Hl in E. split; [exact E | exact Hm].
  - destruct (proj2 (toggle_led_follows_send st_connected 0 false
                       (S754_zero false) (mark_contact "10.0.0.7" Pad_init)
                       eq_refl) eq_refl)
      as (st' & p' & E & _ & _ & Hb & Hl & Hm & _).
    exists st'. rewrite Hb, Hl in E. split; [exact E | exact Hm].
Defined.

(** ** The simulator's parsers *)

(** X26: the simulator and the station read the same wire formats: the
    simulator decodes a telemetry buffer exactly as the station decodes
    its first 12 bytes (and refuses a shorter one), and the station
    accepts a discovery datagram exactly when the simulator's parser
    returns the secret as the key and a slot index below the fleet
    size. *)
Theorem simulator_agrees (data : list byte) :
  ((TELEMETRY_STRUCT_size <= length data)%nat ->
   sim_parse_telemetry data
   = _parse_telemetry (take TELEMETRY_STRUCT_size data)
   /\ is_Some (sim_parse_telemetry data))
  /\ ((length data < TELEMETRY_STRUCT_size)%nat ->
      sim_parse_telemetry data = None)
  /\ (discovery_accepted data = true
      <-> exists id, sim_parse_payload data = Some (id, AUTH_KEY)
                     /\ id < n_pads).
Proof.
  split; [| split].
  - intros Hl. unfold sim_parse_telemetry.
    assert (E : length (take TELEMETRY_STRUCT_size data)
                = TELEMETRY_STRUCT_size) by (rewrite length_take; lia).
    rewrite E, Nat.ltb_irrefl. split; [reflexivity |].
    apply parse_frame_length. exact E.
  - intros Hl. unfold sim_parse_telemetry.
    rewrite length_take.
    replace (Nat.min TELEMETRY_STRUCT_size (length data)
             <? TELEMETRY_STRUCT_size)%nat with true
      by (symmetry; apply Nat.ltb_lt; lia).
    reflexivity.
  - unfold discovery_accepted, sim_parse_payload.
    destruct (Nat.ltb_spec (length data) DISCOVERY_STRUCT_size) as [Hs | Hs];
      cbn [negb andb].
    + split; [discriminate | intros (id & [=] & _)].
    + assert (Hp : discovery_pad_num (take DISCOVERY_STRUCT_size data)
                   = discovery_pad_num data)
        by (destruct data; reflexivity).
      assert (Ha : decode_ascii_ignore
                     (until_null
                        (take 16 (drop 1 (take DISCOVERY_STRUCT_size data))))
                   = discovery_auth_key data).
      { unfold discovery_auth_key, discovery_raw_auth. do 2 f_equal.
        destruct data as [| b data]; [reflexivity |].
        change (take DISCOVERY_STRUCT_size (b :: data))
          with (b :: take 16 data).
        cbn [drop]. apply take_take. }
      rewrite Hp, Ha. split.
      * intros H. apply andb_true_iff in H as [H1 H2].
        apply String.eqb_eq in H1. apply negb_true_iff, Z.leb_gt in H2.
        exists (discovery_pad_num data). rewrite H1. auto.
      * intros (id & [= <- H1] & H2). rewrite H1, String.eqb_refl.
        cbn [andb]. apply negb_true_iff, Z.leb_gt. exact H2.
Qed.

Lemma simulator_agrees_witness :
  sim_parse_telemetry (example_frame ++ [xff; xff])
  = _parse_telemetry
      (take TELEMETRY_STRUCT_size (example_frame ++ [xff; xff])).
Proof.
  apply (proj1 (simulator_agrees (example_frame ++ [xff; xff]))).
  vm_compute. lia.
Defined.

Lemma recv_exact_spec (events : list net_event) (size : nat) :
  forall (buffer stream data rest : list byte),
    (length buffer <= size)%nat ->
    recv_exact events size buffer stream = ExactBytes data rest ->
    data ++ rest = buffer ++ stream /\ length data = size.
Proof.
  induction events as [| ev events IH]; intros buffer stream data rest Hb;
    cbn [recv_exact].
  - destruct (Nat.ltb_spec (length buffer) size); [discriminate |].
    intros [= <- <-]. split; [reflexivity | lia].
  - destruct (Nat.ltb_spec (length buffer) size) as [Hlt | Hge];
      [| intros [= <- <-]; split; [reflexivity | lia]].
    destruct ev as [k | |]; cbn [recv]; try discriminate.
    destruct (take _ stream) as [| c chunk] eqn:Hc; [discriminate |].
    rewrite <- Hc. intros H. apply IH in H.
    + destruct H as [H1 H2]. split; [| exact H2].
      rewrite H1, <- app_assoc, take_drop. reflexivity.
    + rewrite length_app, length_take. lia.
Qed.

(** X27: when the simulator's [recv_exact] returns, it returns exactly
    the next [size] bytes of the stream, however the network cut them
    into chunks, and leaves the rest of the stream unread. *)
Theorem recv_exact_exact (events : list net_event) (size : nat)
    (stream data rest : list byte) :
  recv_exact events size [] stream = ExactBytes data rest ->
  data = take size stream /\ rest = drop size stream /\ length data = size.
Proof.
  intros H. apply recv_exact_spec in H as [H1 H2]; [| simpl; lia].
  cbn [app] in H1. subst stream.
  rewrite take_app_length', drop_app_length' by (symmetry; exact H2).
  auto.
Qed.

Lemma recv_exact_exact_witness :
  example_frame = take 12 (example_frame ++ [xff])
  /\ [xff] = drop 12 (example_frame ++ [xff])
  /\ length example_frame = 12%nat.
Proof.
  apply (recv_exact_exact [Readable 5; Readable 100; Readable 1] 12
           (example_frame ++ [xff]) example_frame [xff]).
  reflexivity.
Defined.
